(* ===== verification/_CoqProject ===== *)
-Q . S2P
Prelude.v
Text.v
Series.v
Reconcile.v
Projection.v
PowerDb.v
Scraper.v
ProductionView.v
Installations.v
Csv.v
Collector.v
Regex.v
Cooperatives.v
Communities.v
DummyApp.v
