(* ===== verification/Prelude.v ===== *)
(** * Stroumauer: a verification development of the Luxembourg energy-data pipeline

    The repository ([src/]) is a handful of Python scripts:

    - [src/daily_data_lux.py]: reads the persisted series [data/entsoe_lux.csv],
      computes a fetch window from its last timestamp, fetches generation per
      production type and load from the ENTSO-E API, selects the wanted columns,
      merges the fresh window into the persisted series (purge the overlap,
      concatenate, drop duplicate timestamps keeping the last, sort) and writes
      the CSV back; then it scrapes data.public.lu for the ILR Excel export.
    - [src/first_of_month_data_lux.py]: scrapes the ILR page for the PDF of
      energy communities (link text "Télécharger", falling back to a [.pdf] link).
    - [src/stroumauer_interface.py]: the Streamlit dashboard: sums installed
      power per commune, joins coordinates, filters the production series to a
      date range, counts energy communities per month from the PDF text.
    - [src/old/database.py], [src/old/database_retrieve.py],
      [src/old/first_steps.py]: an earlier SQLite store keyed by (timestamp,
      country, generation type), where a duplicate insert is ignored, and the
      query that reads it back; [src/old/app.py]: a dashboard on dummy data.

    The components interact only through files: the collector writes the CSV
    and the downloaded documents, the dashboard reads them.

    ** Layout of the development

    The files are listed in dependency order in [_CoqProject]; each opens with
    a comment saying which lines of which source file it models.

    - [Prelude] (this file): the notation scope [stroum_scope], the hint
      database [stroum], the tactic [case_zb] that case-splits the boolean
      comparisons of [Z], and generic lemmas on [List.filter], subsequences
      ([sublist_of]) and strict sortedness shared by the components.
    - [Text]: [String.append] and [s[n:]] ([sdrop]) equations shared by the
      CSV layer and the regular-expression engine; decimal numerals
      ([string_of_nat]); the Latin-1 form of text ([latin1], one character
      per code point) and the NFKD-then-ASCII normalisation [nfkd_ascii] of
      the dashboard.
    - [Series]: a time-indexed table as pandas holds it: a list of
      [(timestamp, row)] pairs in file order ([Timestamp] is [Z], seconds
      since the Unix epoch), with [lookup_last] (the value kept by
      [keep='last']), [index_min] / [index_max] ([NaT] is [None]) and the
      invariant [strictly_increasing] of the persisted CSV, decidable.
    - [Reconcile]: [src/daily_data_lux.py] lines 28-63. [fetch_window]
      (lines 28-40), the overlap mask [purge_overlap] (lines 53-55),
      [drop_duplicates_keep_last], [sort_index], [merge_update] (lines 56-58),
      [update] and the whole run [daily_run] against the market-data
      interface, a typeclass [MarketSource] with its laws [MarketSourceLaws];
      the reachable persisted series as the inductive step relation
      [reachable]; the ordered-map specification [reconcile_spec].
    - [Projection]: lines 17-49 of the same file: the fetched frame
      ([frame]: column labels and rows of optional cells), the column
      selection [select_columns] (pandas' [KeyError] as a sum type), the load
      assignment [assign_load] as pandas' [__setitem__] runs it (a frame
      without rows takes the load's index, an equal index is assigned by
      position, any other is reindexed, [InvalidIndexError] on a duplicate)
      and [build_result], against the client interface [MarketClient].
    - [PowerDb]: [src/old/database.py]: the SQLite table as a record
      [power_db] (the next row id and a [gmap] from the UNIQUE key
      (timestamp, country, type) to (id, value)), [setup_database],
      [insert_power_data] ([IntegrityError] on a duplicate key or a NULL
      value), [store_data_in_db] (the per-row, per-type loops, errors
      swallowed), [update_power_data]; the reachable databases [db_reachable];
      the read-back [retrieve_power_data] of [database_retrieve.py].
    - [Scraper]: lines 67-89 of [src/daily_data_lux.py] and
      [src/first_of_month_data_lux.py] lines 5-30: the HTTP and HTML-parsing
      interface [Web], the link searches [download_link] and [find_pdf_link],
      [absolutize], and the downloads as file-system updates (a [gmap] from
      path to bytes) with outcomes [Saved], [NoLink], [Failed].
    - [ProductionView]: [src/stroumauer_interface.py] lines 113-183: the
      zone the parsed index ends up in ([index_zone]: one offset, or UTC for
      a file with several), the default seven-day range [default_range]
      (dates in the latest reading's own offset), the alignment of the picked
      dates with the index [align_user_date], and [filter_production].
    - [Installations]: [src/stroumauer_interface.py] lines 8-88 and 350: the
      photovoltaic filter and per-commune sum [installed_per_commune] (with
      its [KeyError] and [st.stop()] exits), [groupby(...).sum()] as
      [group_sum] over keys ordered by the typeclass [GroupKey] (strings,
      pairs), the left join [merge_left] with [dropna_coords], the
      technology table [combined_grouped] / [technology_map], the
      normalisation of the displayed text ([Text.nfkd_ascii]), the colour
      lookup [color_map_lookup], and the sizes of the bubble plot [pv_sizes].
    - [Csv]: the persisted file: [to_csv] (the QUOTE_MINIMAL writer
      [write_csv], one header line per level of column labels:
      [frame_to_csv], [table_to_csv]) and [read_csv(header=0, skiprows=[1],
      index_col=0)] (the quote-aware reader [scan], a state machine over the
      characters, the header names of pandas' C reader [header_names]: an
      empty field [Unnamed: i], a repeated name mangled into [X.1], [X.2],
      ...; then [read_csv]); cells and timestamps through the codec classes
      [CsvCell] and [TimestampCodec] and their round-trip laws.
    - [Collector]: the whole series part of [src/daily_data_lux.py]
      ([collector_run], lines 11-63): API key check, [Csv.read_csv],
      [Reconcile.fetch_window], [Projection.build_result], [pd.concat] on the
      union of the column labels ([concat_columns], [align]),
      [Reconcile.merge_update], and the write; successive runs, each on the
      text the previous one wrote, as the inductive relation [runs], against
      the API's promise [MarketClientLaws] (generation and load rows from
      the window start on).
    - [Regex]: Python's [re] as the dashboard calls it: patterns ([regex]:
      character classes, sequence, alternation, numbered groups, greedy or
      lazy repetition of one class), the backtracking matcher [match_re] in
      continuation-passing style, [search], the loop of [re.findall]
      ([findall_loop], with [must_advance] after an empty match and fuel
      [findall_fuel]), [re_findall] and [extract] ([str.extract]); its
      language [in_re]; pattern equivalence [re_equiv] with its [Proper]
      instances for setoid rewriting.
    - [Cooperatives]: [src/stroumauer_interface.py] lines 238-295: the PDF
      text, [re.findall] of the three date patterns ([findall], structural
      with a skip counter), [pd.to_datetime] with the three formats (calendar
      validity and the [int64] nanosecond range, [days_from_civil]), the
      counts per month ([Installations.group_sum]), [cumsum], the forward
      filled reindex ([ffill]) and the page's three outcomes; the source's
      patterns as [Regex] patterns ([date_regexes]).
    - [Communities]: lines 297-343: the three-group pattern of line 304 run
      by [Regex.re_findall] ([communities]), the postcode by two
      [str.extract] ([postcode_of]), the address key deduplicated keeping
      the first row, the left join on the postcode ([NaN] keys matching),
      [dropna], the hover columns and the section's outcomes.
    - [DummyApp]: [src/old/app.py] lines 7-28: the dummy rows and [melt].

    ** What the theorems show

    The claims are numbered C1-C29 in their doc comments.

    - Reconcile (C1-C4, C6-C8): the merged series is strictly increasing
      whatever the inputs (C1); its content timestamp by timestamp: the last
      incoming row wins, an existing row survives exactly outside [[min,
      max]] of the incoming index (C2); refinement of the ordered-map
      specification (C3); two runs on consecutive windows equal one run on
      both exactly when no persisted row lies between them (C4); the fetch
      window starts five days before the last stored timestamp (C6); a run
      keeps the history before its window (C7) and the last timestamp never
      decreases (C8).
    - Collector (C5, C27, C29): after as many runs as the file has readings
      up to a time [t] more than five days before its latest reading, none
      of them is left (C5); every run writes one header line, so the next
      read loses the earliest row, and reads the labels back renamed (C27);
      every run adds the fetched table's columns to the file, since the
      labels read back never line up with the fetched ones (C29).
    - Projection (C9-C13): column selection returns exactly the requested
      columns or the list of missing labels (C9, C10); the load assignment
      raises exactly on a table with rows, another index and a duplicate
      load timestamp (C11); [build_result] succeeds with the production types
      and the load (C12) and fails with [KeyError] when a type is missing
      (C13).
    - PowerDb (C14): what [store_data_in_db] stores: the first value offered
      under each key.
    - Scraper (C15, C16): each scraper writes only its own file, and the PDF
      link search returns the first matching anchor.
    - Communities (C17): every community the pattern finds has a postcode of
      four digits.
    - ProductionView (C18, C19): the rows shown for a date range; when the
      default view shows the latest reading (with the collector's file,
      only from local midnight to 01:00 or 02:00).
    - Installations (C20-C25): the per-commune totals of photovoltaic power,
      sorted, one group per commune; the [KeyError] and [st.stop()] exits;
      the rows of both maps, normalised, after a join that matches names
      exactly (not case-insensitively as the comment of line 34 says); each
      row counted once under its technology; the solar bubbles, whose
      normalised name is no key of [color_map], get no colour of it.
    - Csv (C26): the first write, with its two header lines, reads back every
      row and the first level of the labels as the reader names them (any
      label quoted and unquoted).
    - Cooperatives (C28): the chart equals the direct count of dates up to
      each month, over every month from the earliest to the latest.

    ** Bounds and fuel

    Two definitions run on fuel. [Regex.findall_loop], the [while] loop of
    [re.findall], resumes at the end of the last match, which is not a
    subterm of the text. [findall_fuel s = 2 * length s + 2] is enough
    ([Regex.re_findall_total]): the variant [loop_measure], twice the length
    of the rest plus one or two, decreases at every match, since an empty
    match sets [must_advance] and the next one advances. [Csv.mangle_loop],
    the [while cur_count > 0] loop of the header naming, gets
    [len(this_header) + 1] rounds ([Csv.mangle_loop_fuel]): every count the
    loop reads belongs to a name of the header, so it stops at the first
    candidate [X.k] that is no name of the header, after at most one round
    per name of the header other than [X]. Every other recursion is
    structural on a list or a string (the CSV reader and the matcher consume
    one character per step; [findall_from] counts the characters of a match
    still to skip), and the
    loops of the source ([for] over rows, types and columns) are
    [foldl]/[foldr]/[map] over the lists they iterate. Timestamps, ids and
    power values are unbounded integers: Python integers do not wrap, and the
    collector's timestamps (2020 onwards) stay far inside pandas' [int64]
    nanoseconds. Where the bound matters, the dates read from the PDF, it is
    written out: [Cooperatives.in_ns_range] keeps a day only when its
    midnight in nanoseconds fits a signed 64-bit integer (1677-09-22 to
    2262-04-11).

    ** Not modelled

    HTTP, HTML parsing, Excel/PDF decoding, Streamlit and Plotly rendering
    are library calls; they appear as oracles (typeclass methods such as
    [MarketSource], [MarketClient], [Web]) or as the inputs of the modelled
    functions. The CSV format is modelled ([Csv]); the printing and parsing of
    a float or a timestamp is a codec with its round-trip law. Floating-point
    values are carried as an abstract row type where the code never inspects
    them, and as integers (scaled kW, tenths of MW) where it sums them. Time
    zones are fixed UTC offsets, one per reading. Not modelled at all: the
    production chart (dashboard lines 185-229), the date pickers' bounds
    (lines 133-135; a history shorter than seven days makes Streamlit reject
    the default value), the conversion of the community dates with
    [pd.to_datetime(errors='coerce')] and no format (line 313: pandas infers
    the format from the first date; the result only feeds the hover text),
    the read of the address CSV (its rows are the input of [Communities]),
    characters beyond Latin-1 (text is one character per Latin-1 code
    point; strings only compared or searched, such as the link text of the
    scrapers, keep their UTF-8 spelling), the random jitter of the bubble
    plot, the per-commune mean of the address coordinates, the CSV line
    terminator of Windows ([\r\n]; the model writes [\n]), the binding
    error [store_data_in_db] raises on a frame with two levels of labels
    ([PowerDb]), and [src/old/first_steps.py], which does not parse (an
    [IndentationError] at line 30).
*)

From stdpp Require Export base list sorting.
From Stdlib Require Export ZArith Lia.

Declare Scope stroum_scope.
Delimit Scope stroum_scope with stroum.
Open Scope Z_scope.

Create HintDb stroum discriminated.

(** Case analysis on the boolean comparisons of [Z] in the goal and in the
    hypotheses, turning each into its propositional meaning. *)
Ltac case_zb :=
  repeat match goal with
    | |- context [Z.eqb ?a ?b] => destruct (Z.eqb_spec a b)
    | |- context [Z.leb ?a ?b] => destruct (Z.leb_spec a b)
    | |- context [Z.ltb ?a ?b] => destruct (Z.ltb_spec a b)
    | H : context [Z.eqb ?a ?b] |- _ => destruct (Z.eqb_spec a b)
    | H : context [Z.leb ?a ?b] |- _ => destruct (Z.leb_spec a b)
    | H : context [Z.ltb ?a ?b] |- _ => destruct (Z.ltb_spec a b)
    end; simpl in *.

(** ** Generic lemmas on lists *)

Lemma existsb_Zeqb_elem (t : Z) (l : list Z) :
  existsb (Z.eqb t) l = true <-> t ∈ l.
Proof.
  induction l as [|k l IH]; simpl.
  - split; [discriminate | intros Hin; inversion Hin].
  - rewrite orb_true_iff, IH, elem_of_cons. case_zb; intuition congruence.
Qed.

Lemma existsb_Zeqb_not_elem (t : Z) (l : list Z) :
  existsb (Z.eqb t) l = false <-> t ∉ l.
Proof.
  rewrite <- existsb_Zeqb_elem. destruct (existsb _ _); intuition congruence.
Qed.

Lemma list_filter_elem {A} (f : A -> bool) (l : list A) (x : A) :
  x ∈ List.filter f l <-> x ∈ l /\ f x = true.
Proof. rewrite !list_elem_of_In. apply filter_In. Qed.

Lemma list_filter_length_le {A} (f : A -> bool) (l : list A) :
  (length (List.filter f l) <= length l)%nat.
Proof. induction l as [|x l IH]; simpl; [lia|]. destruct (f x); simpl; lia. Qed.

Lemma list_filter_sublist {A} (f : A -> bool) (l : list A) :
  List.filter f l `sublist_of` l.
Proof. induction l as [|x l IH]; simpl; [constructor|]. destruct (f x); by constructor. Qed.

Lemma Forall_sublist_of {A} (P : A -> Prop) (l1 l2 : list A) :
  l1 `sublist_of` l2 -> Forall P l2 -> Forall P l1.
Proof.
  induction 1 as [|x l1 l2 _ IH|x l1 l2 _ IH]; intros HF; [done| |];
    inversion HF; subst; [constructor|]; auto.
Qed.

Lemma StronglySorted_sublist {A} (R : relation A) (l1 l2 : list A) :
  l1 `sublist_of` l2 -> StronglySorted R l2 -> StronglySorted R l1.
Proof.
  induction 1 as [|x l1 l2 Hs IH|x l1 l2 Hs IH]; intros H; [done| |];
    inversion H as [|? ? H1 H2]; subst; [|auto].
  constructor; [auto|]. by eapply Forall_sublist_of.
Qed.

(** A list that is strongly sorted for a strict order has no duplicate. *)
Lemma StronglySorted_lt_NoDup (l : list Z) :
  StronglySorted Z.lt l -> NoDup l.
Proof.
  induction 1 as [|x l _ IH HF]; constructor; [|done].
  intros Hin. rewrite Forall_forall in HF. specialize (HF x Hin). lia.
Qed.

(** Sorted for [<=] and free of duplicates is sorted for [<]. *)
Lemma StronglySorted_le_NoDup_lt {A} (key : A -> Z) (l : list A) :
  StronglySorted (fun a b => key a <= key b) l -> NoDup (key <$> l) ->
  StronglySorted Z.lt (key <$> l).
Proof.
  induction 1 as [|x l _ IH HF]; intros Hnd; rewrite ?fmap_nil, ?fmap_cons in *;
    constructor.
  - apply IH. by inversion Hnd.
  - inversion Hnd as [|? ? Hnotin _]; subst.
    apply Forall_fmap, Forall_forall. intros y Hy.
    rewrite Forall_forall in HF. specialize (HF y Hy).
    assert (key x <> key y); [|simpl; lia].
    intros Heq. apply Hnotin. rewrite Heq. by apply list_elem_of_fmap_2.
Qed.

(** Sorted by a key with [<=], without duplicates, the key injective on the
    list: sorted with [<]. *)
Lemma StronglySorted_le_inj_lt {A} (key : A -> Z) (l : list A) :
  StronglySorted (fun a b => key a <= key b) l -> NoDup l ->
  (forall a b, a ∈ l -> b ∈ l -> key a = key b -> a = b) ->
  StronglySorted (fun a b => key a < key b) l.
Proof.
  induction 1 as [|x l _ IH HF]; intros Hnd Hinj; constructor.
  - apply IH; [by inversion Hnd|]. intros a b Ha Hb. apply Hinj; by apply list_elem_of_further.
  - inversion Hnd as [|? ? Hnotin _]; subst. rewrite Forall_forall in HF |- *. intros y Hy.
    specialize (HF y Hy). assert (key x <> key y); [|lia].
    intros Heq. apply Hnotin. rewrite (Hinj x y); [done|apply list_elem_of_here| |done].
    by apply list_elem_of_further.
Qed.

#[export] Hint Resolve StronglySorted_lt_NoDup : stroum.
