(* ===== verification/Text.v ===== *)
(** * Text: generic lemmas on [String.string]

    Python's [str] values are modelled as [String.string], one [Ascii.ascii]
    per character. [String.append] does not reduce under [simpl]; these
    lemmas give its equations for the CSV layer ([Csv]) and the regular
    expression engine ([Regex]). [sdrop n s] is [s[n:]]. The file also holds
    decimal numerals ([print_uint], [string_of_nat]), the Latin-1 reading
    of a UTF-8 literal ([latin1]) and the dashboard's NFKD-then-ASCII
    normalisation ([nfkd_ascii]), whose table for the Latin-1 characters is
    that of Python's [unicodedata]. *)

From stdpp Require Import strings.
From Stdlib Require DecimalNat.
From S2P Require Import Prelude.

(** [s[n:]]. *)
Fixpoint sdrop (n : nat) (s : string) : string :=
  match n, s with
  | O, _ => s
  | S n', String _ s' => sdrop n' s'
  | S _, EmptyString => EmptyString
  end.

Lemma append_assoc s1 s2 s3 :
  String.append (String.append s1 s2) s3 = String.append s1 (String.append s2 s3).
Proof. induction s1 as [|c s1 IH]; [done|exact (f_equal (String c) IH)]. Qed.

Lemma append_nil_r s : String.append s EmptyString = s.
Proof. induction s as [|c s IH]; [done|exact (f_equal (String c) IH)]. Qed.

Lemma append_cons c s1 s2 : String.append (String c s1) s2 = String c (String.append s1 s2).
Proof. reflexivity. Qed.

Lemma length_append s1 s2 :
  String.length (String.append s1 s2) = (String.length s1 + String.length s2)%nat.
Proof. induction s1 as [|c s1 IH]; [done|]. rewrite append_cons. cbn. by rewrite IH. Qed.

Lemma append_nil_inv s1 s2 : String.append s1 s2 = EmptyString -> s1 = EmptyString.
Proof. by destruct s1. Qed.

(** The prefix of [w ++ s] of the length of [w] is [w]. *)
Lemma substring_append_l w s :
  String.substring 0 (String.length w) (String.append w s) = w.
Proof. induction w as [|c w IH]; [by destruct s|]. rewrite append_cons. cbn. by rewrite IH. Qed.

(** The prefix of [s] before its suffix [s']. *)
Lemma substring_before_suffix w s :
  String.substring 0 (String.length (String.append w s) - String.length s) (String.append w s) = w.
Proof. rewrite length_append, Nat.add_sub. apply substring_append_l. Qed.

Lemma sdrop_append w s : sdrop (String.length w) (String.append w s) = s.
Proof. by induction w. Qed.

Lemma length_sdrop n s : String.length (sdrop n s) = (String.length s - n)%nat.
Proof.
  revert s; induction n as [|n IH]; intros [|c s]; cbn; rewrite ?IH; lia.
Qed.

(** A string is its prefix followed by the rest. *)
Lemma substring_sdrop n s :
  (n <= String.length s)%nat -> s = String.append (String.substring 0 n s) (sdrop n s).
Proof.
  revert s; induction n as [|n IH]; intros [|c s]; cbn [String.length]; intros Hn; try done.
  cbn [String.substring sdrop]. rewrite append_cons. f_equal. apply IH. lia.
Qed.

(** ** Decimal numerals *)

Definition digit_char (d : nat) : Ascii.ascii := Ascii.ascii_of_nat (48 + d).

Fixpoint print_uint (u : Decimal.uint) : string :=
  match u with
  | Decimal.Nil => EmptyString
  | Decimal.D0 u => String (digit_char 0) (print_uint u)
  | Decimal.D1 u => String (digit_char 1) (print_uint u)
  | Decimal.D2 u => String (digit_char 2) (print_uint u)
  | Decimal.D3 u => String (digit_char 3) (print_uint u)
  | Decimal.D4 u => String (digit_char 4) (print_uint u)
  | Decimal.D5 u => String (digit_char 5) (print_uint u)
  | Decimal.D6 u => String (digit_char 6) (print_uint u)
  | Decimal.D7 u => String (digit_char 7) (print_uint u)
  | Decimal.D8 u => String (digit_char 8) (print_uint u)
  | Decimal.D9 u => String (digit_char 9) (print_uint u)
  end.

Fixpoint parse_uint (s : string) : option Decimal.uint :=
  match s with
  | EmptyString => Some Decimal.Nil
  | String c s' =>
      u ← parse_uint s';
      match Ascii.nat_of_ascii c with
      | 48 => Some (Decimal.D0 u) | 49 => Some (Decimal.D1 u)
      | 50 => Some (Decimal.D2 u) | 51 => Some (Decimal.D3 u)
      | 52 => Some (Decimal.D4 u) | 53 => Some (Decimal.D5 u)
      | 54 => Some (Decimal.D6 u) | 55 => Some (Decimal.D7 u)
      | 56 => Some (Decimal.D8 u) | 57 => Some (Decimal.D9 u)
      | _ => None
      end%nat
  end.

Lemma parse_print_uint u : parse_uint (print_uint u) = Some u.
Proof. induction u; cbn; rewrite ?IHu; reflexivity. Qed.

(** [f"{n}"] of a natural number. *)
Definition string_of_nat (n : nat) : string := print_uint (Nat.to_uint n).

Lemma string_of_nat_inj m n : string_of_nat m = string_of_nat n -> m = n.
Proof.
  unfold string_of_nat. intros H%(f_equal parse_uint). rewrite !parse_print_uint in H.
  injection H as H%(f_equal Nat.of_uint). by rewrite !DecimalNat.Unsigned.of_to in H.
Qed.

Lemma append_inv_l s a b : String.append s a = String.append s b -> a = b.
Proof. induction s as [|c s IH]; [done|]. rewrite !append_cons. intros [= H]. by apply IH. Qed.

(** ** Latin-1 text *)

(** A Python [str] of Latin-1 characters is modelled with one [Ascii.ascii]
    per character, holding its code point. [latin1] reads a UTF-8 literal of
    the Rocq source into that form (two-byte sequences [C2 xx] and [C3 xx]
    become one character; other bytes are kept). *)
Fixpoint latin1 (s : string) : string :=
  match s with
  | EmptyString => EmptyString
  | String c s' =>
      let n := Ascii.nat_of_ascii c in
      if ((n =? 194) || (n =? 195))%nat then
        match s' with
        | String c' s'' =>
            String (Ascii.ascii_of_nat ((n - 194) * 64 + Ascii.nat_of_ascii c')) (latin1 s'')
        | EmptyString => String c EmptyString
        end
      else String c (latin1 s')
  end.

(** [unicodedata.normalize('NFKD', ch).encode('ascii', 'ignore')] of a
    Latin-1 character: the character itself when it is ASCII, otherwise the
    ASCII part of its compatibility decomposition (the base letter of an
    accented one, a space, digits), nothing when there is none. *)
Definition nfkd_ascii_char (c : Ascii.ascii) : string :=
  match Ascii.nat_of_ascii c with
  | n => if (n <? 128)%nat then String c EmptyString else
    match n with
  | 160 => " " | 168 => " " | 170 => "a" | 175 => " " | 178 => "2" | 179 => "3"
  | 180 => " " | 184 => " " | 185 => "1" | 186 => "o" | 188 => "14" | 189 => "12"
  | 190 => "34" | 192 => "A" | 193 => "A" | 194 => "A" | 195 => "A" | 196 => "A"
  | 197 => "A" | 199 => "C" | 200 => "E" | 201 => "E" | 202 => "E" | 203 => "E"
  | 204 => "I" | 205 => "I" | 206 => "I" | 207 => "I" | 209 => "N" | 210 => "O"
  | 211 => "O" | 212 => "O" | 213 => "O" | 214 => "O" | 217 => "U" | 218 => "U"
  | 219 => "U" | 220 => "U" | 221 => "Y" | 224 => "a" | 225 => "a" | 226 => "a"
  | 227 => "a" | 228 => "a" | 229 => "a" | 231 => "c" | 232 => "e" | 233 => "e"
  | 234 => "e" | 235 => "e" | 236 => "i" | 237 => "i" | 238 => "i" | 239 => "i"
  | 241 => "n" | 242 => "o" | 243 => "o" | 244 => "o" | 245 => "o" | 246 => "o"
  | 249 => "u" | 250 => "u" | 251 => "u" | 252 => "u" | 253 => "y" | 255 => "y"
  | _ => EmptyString
    end%nat
  end.

(** Lines 48-52 and 85-88 of [src/stroumauer_interface.py]:
    [.str.normalize('NFKD').str.encode('ascii', errors='ignore').str.decode('utf-8')]. *)
Fixpoint nfkd_ascii (s : string) : string :=
  match s with
  | EmptyString => EmptyString
  | String c s' => String.append (nfkd_ascii_char c) (nfkd_ascii s')
  end.
