(* ===== verification/Series.v ===== *)
(** * Series: time-indexed tables as the merge of [daily_data_lux.py] sees them

    A pandas [DataFrame] indexed by timestamps is modelled as the list of its
    rows in file order, each row paired with its index value. The merge never
    inspects the cells of a row, so the row type [V] is a parameter. A
    timestamp is an instant as a [Z] (seconds since the Unix epoch, UTC).

    - [index s] is [s.index];
    - [lookup_last s t] is the row that [s[~s.index.duplicated(keep='last')]]
      keeps at [t], i.e. the last row of [s] with index [t];
    - [index_min] / [index_max] are [s.index.min()] / [s.index.max()], with
      [None] for the [NaT] pandas returns on an empty index;
    - [strictly_increasing s] is the invariant of the persisted CSV: its
      timestamps are strictly increasing (sorted, no duplicate). *)

From S2P Require Import Prelude.

Abbreviation Timestamp := Z (only parsing).

(** A day in seconds ([pd.Timedelta(days=1)]). *)
Definition day : Z := 86400.

Definition series (V : Type) : Type := list (Timestamp * V).

Section Series.
Context {V : Type}.
Implicit Types (s : series V) (t : Timestamp).

Definition index s : list Timestamp := s.*1.

Fixpoint lookup_last s t : option V :=
  match s with
  | [] => None
  | (k, v) :: s' =>
      match lookup_last s' t with
      | Some w => Some w
      | None => if Z.eqb k t then Some v else None
      end
  end.

Definition index_min s : option Timestamp :=
  match index s with [] => None | k :: ks => Some (foldl Z.min k ks) end.

Definition index_max s : option Timestamp :=
  match index s with [] => None | k :: ks => Some (foldl Z.max k ks) end.

Definition strictly_increasing s : Prop := StronglySorted Z.lt (index s).

#[global] Instance strictly_increasing_dec s : Decision (strictly_increasing s) := _.

(** ** Lookup *)

Lemma lookup_last_app s1 s2 t :
  lookup_last (s1 ++ s2) t =
  match lookup_last s2 t with Some v => Some v | None => lookup_last s1 t end.
Proof.
  induction s1 as [|[k v] s1 IH]; simpl; [by destruct (lookup_last s2 t)|].
  rewrite IH. by destruct (lookup_last s2 t).
Qed.

Lemma lookup_last_elem s t v : lookup_last s t = Some v -> (t, v) ∈ s.
Proof.
  induction s as [|[k w] s IH]; simpl; [discriminate|].
  destruct (lookup_last s t) eqn:E.
  - intros [= ->]. apply list_elem_of_further, IH. reflexivity.
  - case_zb; intros; simplify_eq. apply list_elem_of_here.
Qed.

Lemma lookup_last_None s t : lookup_last s t = None <-> t ∉ index s.
Proof.
  unfold index. induction s as [|[k w] s IH]; cbn [lookup_last].
  - split; [intros _ Hin; inversion Hin | done].
  - rewrite fmap_cons, elem_of_cons. simpl.
    destruct (lookup_last s t) eqn:E; case_zb; subst; intuition congruence.
Qed.

Lemma lookup_last_is_Some s t : is_Some (lookup_last s t) <-> t ∈ index s.
Proof.
  rewrite <- not_eq_None_Some, lookup_last_None.
  destruct (decide (t ∈ index s)); tauto.
Qed.

Lemma lookup_last_nodup s t v :
  NoDup (index s) -> lookup_last s t = Some v <-> (t, v) ∈ s.
Proof.
  intros Hnd. split; [apply lookup_last_elem|].
  unfold index in Hnd. induction s as [|[k w] s IH]; cbn [lookup_last]; intros Hin.
  - inversion Hin.
  - rewrite fmap_cons in Hnd. inversion Hnd as [|? ? Hk Hnd']; subst.
    apply elem_of_cons in Hin as [[= <- <-] | Hin].
    + replace (lookup_last s t) with (@None V); [by rewrite Z.eqb_refl|].
      symmetry. by apply lookup_last_None.
    + by rewrite IH.
Qed.

Lemma lookup_last_perm s1 s2 t :
  s1 ≡ₚ s2 -> NoDup (index s1) -> lookup_last s1 t = lookup_last s2 t.
Proof.
  intros Hp Hnd.
  assert (Hnd2 : NoDup (index s2)) by (unfold index; by rewrite <- Hp).
  destruct (lookup_last s1 t) as [v|] eqn:E1.
  - symmetry. apply lookup_last_nodup; [done|].
    rewrite <- Hp. by apply lookup_last_nodup.
  - symmetry. apply lookup_last_None. apply lookup_last_None in E1.
    unfold index in *. by rewrite <- Hp.
Qed.

(** Selecting rows by a mask computed from their timestamp. *)
Lemma lookup_last_filter_key (f : Timestamp -> bool) s t :
  lookup_last (List.filter (fun r => f r.1) s) t =
  if f t then lookup_last s t else None.
Proof.
  induction s as [|[k v] s IH]; simpl; [by destruct (f t)|].
  destruct (f k) eqn:Hk; simpl; rewrite IH;
    destruct (f t) eqn:Ht, (lookup_last s t); case_zb; subst; congruence.
Qed.

(** ** The strict-order invariant *)

Lemma strictly_increasing_NoDup s : strictly_increasing s -> NoDup (index s).
Proof. apply StronglySorted_lt_NoDup. Qed.

Lemma strictly_increasing_pairs s :
  strictly_increasing s -> StronglySorted (fun a b => a.1 < b.1) s.
Proof.
  unfold strictly_increasing, index.
  induction s as [|x s IH]; rewrite ?fmap_cons; intros H; constructor;
    inversion H as [|? ? H1 H2]; subst; [by apply IH|].
  rewrite Forall_fmap in H2. exact H2.
Qed.

(** Two strictly increasing series with the same content at every timestamp
    are equal: the content determines the file. *)
Lemma strictly_increasing_ext s1 s2 :
  strictly_increasing s1 -> strictly_increasing s2 ->
  (forall t, lookup_last s1 t = lookup_last s2 t) -> s1 = s2.
Proof.
  intros H1 H2 Hl.
  assert (AntiSymm eq (fun a b : Z * V => a.1 < b.1)) by (intros a b ? ?; lia).
  apply (StronglySorted_unique (fun a b : Z * V => a.1 < b.1)).
  - by apply strictly_increasing_pairs.
  - by apply strictly_increasing_pairs.
  - apply strictly_increasing_NoDup in H1 as Hn1, H2 as Hn2.
    apply NoDup_Permutation.
    + eapply NoDup_fmap_1. exact Hn1.
    + eapply NoDup_fmap_1. exact Hn2.
    + intros [t v]. rewrite <- !lookup_last_nodup by done. by rewrite Hl.
Qed.

(** ** Minimum and maximum of the index *)

Lemma foldl_min_spec k ks :
  foldl Z.min k ks ∈ k :: ks /\ Forall (fun x => foldl Z.min k ks <= x) (k :: ks).
Proof.
  revert k. induction ks as [|k' ks IH]; intros k; simpl.
  - split; [apply list_elem_of_here|]. constructor; [lia | constructor].
  - destruct (IH (Z.min k k')) as [Hin Hle]. split.
    + apply elem_of_cons in Hin as [-> | Hin]; [|by do 2 apply list_elem_of_further].
      destruct (Z.min_spec k k') as [[_ ->] | [_ ->]];
        [apply list_elem_of_here | apply list_elem_of_further, list_elem_of_here].
    + inversion Hle as [|? ? Hm Hrest]; subst.
      constructor; [lia|]. constructor; [lia | exact Hrest].
Qed.

Lemma foldl_max_spec k ks :
  foldl Z.max k ks ∈ k :: ks /\ Forall (fun x => x <= foldl Z.max k ks) (k :: ks).
Proof.
  revert k. induction ks as [|k' ks IH]; intros k; simpl.
  - split; [apply list_elem_of_here|]. constructor; [lia | constructor].
  - destruct (IH (Z.max k k')) as [Hin Hle]. split.
    + apply elem_of_cons in Hin as [-> | Hin]; [|by do 2 apply list_elem_of_further].
      destruct (Z.max_spec k k') as [[_ ->] | [_ ->]];
        [apply list_elem_of_further, list_elem_of_here | apply list_elem_of_here].
    + inversion Hle as [|? ? Hm Hrest]; subst.
      constructor; [lia|]. constructor; [lia | exact Hrest].
Qed.

Lemma index_min_None s : index_min s = None <-> s = [].
Proof. unfold index_min, index. destruct s; simpl; split; congruence. Qed.

Lemma index_max_None s : index_max s = None <-> s = [].
Proof. unfold index_max, index. destruct s; simpl; split; congruence. Qed.

Lemma index_min_spec s m :
  index_min s = Some m -> m ∈ index s /\ forall k, k ∈ index s -> m <= k.
Proof.
  unfold index_min. destruct (index s) as [|k ks]; [discriminate|].
  intros [= <-]. destruct (foldl_min_spec k ks) as [Hin Hle].
  split; [done|]. intros x Hx. by eapply Forall_forall in Hle; [|exact Hx].
Qed.

Lemma index_max_spec s m :
  index_max s = Some m -> m ∈ index s /\ forall k, k ∈ index s -> k <= m.
Proof.
  unfold index_max. destruct (index s) as [|k ks]; [discriminate|].
  intros [= <-]. destruct (foldl_max_spec k ks) as [Hin Hle].
  split; [done|]. intros x Hx. by eapply Forall_forall in Hle; [|exact Hx].
Qed.

End Series.

(** Rewriting the cells of every row keeps the index. *)
Lemma index_map_cells {A B} (g : Timestamp * A -> B) (s : series A) :
  index (map (fun row => (row.1, g row)) s) = index s.
Proof.
  unfold index. induction s as [|r s IH]; [done|].
  cbn [map]. rewrite !fmap_cons. simpl. by rewrite IH.
Qed.

Notation "s '@[' t ']'" := (lookup_last s t)
  (at level 1, format "s @[ t ]") : stroum_scope.

#[export] Hint Resolve strictly_increasing_NoDup : stroum.
