(* ===== verification/Reconcile.v ===== *)
(** * Reconcile: the incremental merge of [src/daily_data_lux.py]

    Lines 28-40 compute the fetch window from the persisted series, lines
    42-49 fetch it (the market-data interface [MarketSource] below), and lines
    51-60 merge the fetched table [result] into [existing]:

    - [purge_overlap] is line 54-55: the rows of [existing] whose timestamp lies
      in [[result.index.min(), result.index.max()]] are removed;
    - [drop_duplicates_keep_last] is [updated[~updated.index.duplicated(keep='last')]];
    - [sort_index] is [.sort_index()], modelled by stdpp's merge sort on the
      timestamp (pandas' default quicksort is not stable, but it only ever
      sorts rows with distinct timestamps here, where every sort agrees);
    - [merge_update] is lines 53-58 and [update] the [if existing is not None]
      of line 52;
    - [daily_run] chains the window, the fetch and the merge; [run_step] is one
      invocation of the script seen as a step on the persisted file, absent
      ([None]) or present.

    The abstract specification [reconcile_spec] is the ordered-map algorithm
    of the design notes: insert the purged existing rows then the incoming
    rows into a [gmap] keyed by timestamp, later insertions overwriting, and
    emit the entries sorted. *)

From stdpp Require Import gmap.
From S2P Require Import Prelude Series.

(** Line 34: [pd.Timedelta(days=5)]. *)
Definition overlap_days : Z := 5.

(** Line 38: [pd.Timestamp('2020-01-01T00:00', tz='Europe/Brussels')], i.e.
    2019-12-31T23:00:00Z. *)
Definition history_start : Timestamp := 1577833200.

(** The market-data collaborator of lines 42-49: the ENTSO-E client queried
    for generation and load, projected to the wanted columns, for the window
    [[start, end]]. Its laws are what the merge relies on: the table it
    returns is strictly increasing in time and lies inside the window. *)
Class MarketSource (V : Type) := {
  query : Timestamp -> Timestamp -> series V
}.

Class MarketSourceLaws (V : Type) `{!MarketSource V} := {
  query_strictly_increasing start end_ : strictly_increasing (query start end_);
  query_in_window start end_ t : t ∈ index (query start end_) -> start <= t <= end_
}.

(** A market source used by the examples: it reports one row, at the start
    of the window, whenever the window is not empty. *)
#[local] Instance sample_source : MarketSource nat := {|
  query start end_ := if start <=? end_ then [(start, 0%nat)] else []
|}.

#[local] Instance sample_source_laws : MarketSourceLaws nat.
Proof.
  split; intros start end_; simpl; case_zb.
  - repeat constructor.
  - constructor.
  - intros t Ht. apply list_elem_of_singleton in Ht. lia.
  - intros t Ht. inversion Ht.
Qed.

Section Reconcile.
Context {V : Type}.
Implicit Types (e r s : series V) (t : Timestamp).

(** Lines 29-40. [now] is [datetime.utcnow()] as an instant; the code builds
    [pd.Timestamp(datetime.utcnow(), tz=Z)], which reads the naive UTC wall
    time as a wall time of zone [Z]: the instant obtained is [now - tz_offset],
    [tz_offset] being the UTC offset of [Z] (of [last_date], or of
    Europe/Brussels). An existing but empty file has [last_date = NaT], the
    window is then undefined ([None]) and the API call raises. *)
Definition fetch_window (existing : option (series V)) (now tz_offset : Timestamp)
  : option (Timestamp * Timestamp) :=
  match existing with
  | Some e =>
      match index_max e with
      | Some last_date => Some (last_date - overlap_days * day, now - tz_offset)
      | None => None
      end
  | None => Some (history_start, now - tz_offset)
  end.

(** The elementwise condition of line 54,
    [(existing.index >= lo) & (existing.index <= hi)]; a comparison with
    [NaT] is [False]. *)
Definition in_update_range (lo hi : option Timestamp) (t : Timestamp) : bool :=
  match lo, hi with
  | Some l, Some h => (l <=? t) && (t <=? h)
  | _, _ => false
  end.

(** Lines 54-55: [existing.loc[~(...)]]. *)
Definition purge_overlap (result existing : series V) : series V :=
  List.filter
    (fun row => negb (in_update_range (index_min result) (index_max result) row.1))
    existing.

(** Line 58, [updated[~updated.index.duplicated(keep='last')]]: a row is
    dropped when a later row has the same timestamp. *)
Fixpoint drop_duplicates_keep_last (s : series V) : series V :=
  match s with
  | [] => []
  | (k, v) :: s' =>
      if existsb (Z.eqb k) (index s') then drop_duplicates_keep_last s'
      else (k, v) :: drop_duplicates_keep_last s'
  end.

Definition index_le (a b : Timestamp * V) : Prop := a.1 <= b.1.

#[global] Instance index_le_dec : RelDecision index_le :=
  fun a b => decide (a.1 <= b.1).

(** Line 58, [.sort_index()]. *)
Definition sort_index (s : series V) : series V := merge_sort index_le s.

(** Lines 53-58. *)
Definition merge_update (existing result : series V) : series V :=
  sort_index (drop_duplicates_keep_last (purge_overlap result existing ++ result)).

(** Lines 52-60. *)
Definition update (existing : option (series V)) (result : series V) : series V :=
  match existing with
  | Some e => merge_update e result
  | None => result
  end.

(** One run of the script on the persisted file ([None]: no file). The run
    fails ([None]) when the window is undefined. *)
Definition daily_run `{!MarketSource V} (existing : option (series V))
    (now tz_offset : Timestamp) : option (series V) :=
  match fetch_window existing now tz_offset with
  | Some (start, end_) => Some (update existing (query start end_))
  | None => None
  end.

(** The persisted files reachable from the first run on. *)
Inductive reachable `{!MarketSource V} : option (series V) -> Prop :=
  | reachable_no_file : reachable None
  | reachable_run st now tz_offset st' :
      reachable st -> daily_run st now tz_offset = Some st' -> reachable (Some st').

(** ** The specification: an ordered map keyed by timestamp *)

(** Insert rows in order into the map; a later row overwrites an earlier one. *)
Definition insert_rows (m : gmap Timestamp V) (s : series V) : gmap Timestamp V :=
  foldl (fun acc row => <[row.1 := row.2]> acc) m s.

(** Purge the window [[lo, hi]] from [e], insert the rest of [e] then [r],
    emit the entries in timestamp order. *)
Definition reconcile_spec (lo hi : Timestamp) (e r : series V) : series V :=
  sort_index
    (map_to_list
       (insert_rows ∅
          (List.filter (fun row => negb ((lo <=? row.1) && (row.1 <=? hi))) e ++ r))).

(** ** Lemmas on the steps of the merge *)

#[local] Instance index_le_trans : Transitive index_le.
Proof. intros a b c; unfold index_le; lia. Qed.

#[local] Instance index_le_total : Total index_le.
Proof. intros a b; unfold index_le; lia. Qed.

Lemma sort_index_perm s : sort_index s ≡ₚ s.
Proof. apply merge_sort_Permutation. Qed.

Lemma sort_index_strictly_increasing s :
  NoDup (index s) -> strictly_increasing (sort_index s).
Proof.
  intros Hnd. apply (StronglySorted_le_NoDup_lt fst).
  - apply StronglySorted_merge_sort; typeclasses eauto.
  - unfold index in Hnd. by rewrite sort_index_perm.
Qed.

Lemma sort_index_lookup s t :
  NoDup (index s) -> lookup_last (sort_index s) t = lookup_last s t.
Proof.
  intros Hnd. symmetry. apply lookup_last_perm; [|done].
  symmetry. apply sort_index_perm.
Qed.

Lemma drop_duplicates_lookup s t :
  lookup_last (drop_duplicates_keep_last s) t = lookup_last s t.
Proof.
  induction s as [|[k v] s IH]; simpl; [done|].
  destruct (existsb (Z.eqb k) (index s)) eqn:E; simpl; rewrite IH; [|done].
  destruct (lookup_last s t) eqn:Hl; [done|]. case_zb; [|done]. subst.
  apply existsb_Zeqb_elem in E. by apply lookup_last_None in Hl.
Qed.

Lemma drop_duplicates_index s t :
  t ∈ index (drop_duplicates_keep_last s) <-> t ∈ index s.
Proof. by rewrite <- !lookup_last_is_Some, drop_duplicates_lookup. Qed.

Lemma drop_duplicates_NoDup s : NoDup (index (drop_duplicates_keep_last s)).
Proof.
  induction s as [|[k v] s IH]; simpl; [constructor|].
  destruct (existsb (Z.eqb k) (index s)) eqn:E; [done|].
  unfold index in *. rewrite fmap_cons. constructor; [|done].
  apply existsb_Zeqb_not_elem in E. intros Hin. apply E.
  by apply (drop_duplicates_index s k).
Qed.

Lemma purge_overlap_lookup result existing t :
  lookup_last (purge_overlap result existing) t =
  if in_update_range (index_min result) (index_max result) t then None
  else lookup_last existing t.
Proof.
  unfold purge_overlap.
  rewrite (lookup_last_filter_key
             (fun k => negb (in_update_range (index_min result) (index_max result) k))).
  by destruct (in_update_range _ _ t).
Qed.

(** [in_update_range] on the bounds of a table: [t] lies between two of its
    timestamps. *)
Lemma in_update_range_between s t :
  in_update_range (index_min s) (index_max s) t = true <->
  exists k1 k2, k1 ∈ index s /\ k2 ∈ index s /\ k1 <= t <= k2.
Proof.
  unfold in_update_range.
  destruct (index_min s) as [lo|] eqn:Hlo, (index_max s) as [hi|] eqn:Hhi.
  - apply index_min_spec in Hlo as [Hlo Hlo'].
    apply index_max_spec in Hhi as [Hhi Hhi'].
    rewrite andb_true_iff, Z.leb_le, Z.leb_le. split.
    + intros [? ?]. by exists lo, hi.
    + intros (k1 & k2 & H1 & H2 & ?). specialize (Hlo' k1 H1). specialize (Hhi' k2 H2). lia.
  - apply index_max_None in Hhi. subst. split; [discriminate|].
    intros (k1 & _ & Hk & _). inversion Hk.
  - apply index_min_None in Hlo. subst. split; [discriminate|].
    intros (k1 & _ & Hk & _). inversion Hk.
  - apply index_min_None in Hlo. subst. split; [discriminate|].
    intros (k1 & _ & Hk & _). inversion Hk.
Qed.

Lemma in_update_range_elem s t :
  t ∈ index s -> in_update_range (index_min s) (index_max s) t = true.
Proof. intros H. apply in_update_range_between. by exists t, t. Qed.

(** The content of the merged table at each timestamp. *)
Lemma merge_update_lookup_eq e r t :
  lookup_last (merge_update e r) t =
  match lookup_last r t with
  | Some v => Some v
  | None =>
      if in_update_range (index_min r) (index_max r) t then None
      else lookup_last e t
  end.
Proof.
  unfold merge_update.
  rewrite sort_index_lookup by apply drop_duplicates_NoDup.
  by rewrite drop_duplicates_lookup, lookup_last_app, purge_overlap_lookup.
Qed.

Lemma merge_update_sorted e r : strictly_increasing (merge_update e r).
Proof. apply sort_index_strictly_increasing, drop_duplicates_NoDup. Qed.

(** The merge keeps a timestamp at least as late as the latest persisted one:
    the latest row itself, or a fetched row after it. *)
Lemma merge_update_late_row e r m :
  index_max e = Some m -> exists k, k ∈ index (merge_update e r) /\ m <= k.
Proof.
  intros [Hm _]%index_max_spec.
  setoid_rewrite <- lookup_last_is_Some. setoid_rewrite merge_update_lookup_eq.
  destruct (lookup_last r m) eqn:Hr; [exists m; rewrite Hr; eauto with lia|].
  destruct (in_update_range (index_min r) (index_max r) m) eqn:B.
  - apply in_update_range_between in B as (k1 & k2 & Hk1 & Hk2 & ?).
    exists k2. split; [|lia].
    apply lookup_last_is_Some in Hk2 as [v Hv]. rewrite Hv. eauto.
  - exists m. rewrite Hr, B. split; [|lia]. by apply lookup_last_is_Some.
Qed.

(** A timestamp of the merge is persisted or fetched. *)
Lemma merge_update_index e r k :
  k ∈ index (merge_update e r) -> k ∈ index e \/ k ∈ index r.
Proof.
  intros [v Hv]%lookup_last_is_Some. rewrite merge_update_lookup_eq in Hv.
  destruct (lookup_last r k) eqn:Hr; [right; apply lookup_last_is_Some; eauto|].
  destruct (in_update_range _ _ k); [done|]. left. apply lookup_last_is_Some. eauto.
Qed.

Lemma in_update_range_bounds s t :
  in_update_range (index_min s) (index_max s) t = true ->
  exists lo hi, index_min s = Some lo /\ index_max s = Some hi /\ lo <= t <= hi.
Proof.
  unfold in_update_range.
  destruct (index_min s), (index_max s); try discriminate.
  rewrite andb_true_iff, !Z.leb_le. eauto.
Qed.

Lemma in_update_range_app_l s1 s2 t :
  in_update_range (index_min s1) (index_max s1) t = true ->
  in_update_range (index_min (s1 ++ s2)) (index_max (s1 ++ s2)) t = true.
Proof.
  rewrite !in_update_range_between. unfold index. rewrite fmap_app.
  intros (k1 & k2 & ? & ? & ?). exists k1, k2. rewrite !elem_of_app. auto.
Qed.

Lemma in_update_range_app_r s1 s2 t :
  in_update_range (index_min s2) (index_max s2) t = true ->
  in_update_range (index_min (s1 ++ s2)) (index_max (s1 ++ s2)) t = true.
Proof.
  rewrite !in_update_range_between. unfold index. rewrite fmap_app.
  intros (k1 & k2 & ? & ? & ?). exists k1, k2. rewrite !elem_of_app. auto.
Qed.

(** The range of two consecutive windows is covered by the two ranges and the
    gap between them. *)
Lemma in_update_range_app_split s1 s2 b1 a2 t :
  index_max s1 = Some b1 -> index_min s2 = Some a2 -> b1 < a2 ->
  in_update_range (index_min (s1 ++ s2)) (index_max (s1 ++ s2)) t = true ->
  t <= b1 \/ a2 <= t ->
  in_update_range (index_min s1) (index_max s1) t = true \/
  in_update_range (index_min s2) (index_max s2) t = true.
Proof.
  intros Hb1 Ha2 Hlt Hin Hout.
  apply index_max_spec in Hb1 as [Hb1 Hb1']. apply index_min_spec in Ha2 as [Ha2 Ha2'].
  rewrite !in_update_range_between. rewrite in_update_range_between in Hin.
  destruct Hin as (k1 & k2 & Hk1 & Hk2 & Hk). unfold index in *.
  rewrite fmap_app, elem_of_app in Hk1, Hk2.
  destruct Hk1 as [Hk1 | Hk1], Hk2 as [Hk2 | Hk2].
  - left. eauto.
  - destruct Hout; [left; exists k1, b1 | right; exists a2, k2]; eauto with lia.
  - specialize (Hb1' _ Hk2). specialize (Ha2' _ Hk1). lia.
  - right. eauto.
Qed.

Lemma insert_rows_lookup (m : gmap Timestamp V) s t :
  insert_rows m s !! t =
  match lookup_last s t with Some v => Some v | None => m !! t end.
Proof.
  revert m. induction s as [|[k v] s IH]; intros m; simpl; [done|].
  unfold insert_rows in *. simpl. rewrite IH.
  destruct (lookup_last s t); [done|]. rewrite lookup_insert.
  case_decide; case_zb; congruence.
Qed.

Lemma map_to_list_lookup (m : gmap Timestamp V) t :
  lookup_last (map_to_list m) t = m !! t.
Proof.
  assert (Hnd : NoDup (index (map_to_list m))) by apply NoDup_fst_map_to_list.
  destruct (m !! t) as [v|] eqn:Hm.
  - apply lookup_last_nodup; [done|]. by apply elem_of_map_to_list.
  - apply lookup_last_None. unfold index. intros Hin.
    apply list_elem_of_fmap in Hin as ([k w] & -> & Hkw).
    apply elem_of_map_to_list in Hkw. simpl in Hm. congruence.
Qed.

(** ** Properties of the merge *)

(** C1. Whatever the persisted series and the fetched table (unsorted, with
    duplicate timestamps, overlapping or not), the merged series written back
    has strictly increasing timestamps: no duplicate, ascending order. *)
Theorem merge_update_strictly_increasing e r :
  strictly_increasing (merge_update e r).
Proof. apply sort_index_strictly_increasing, drop_duplicates_NoDup. Qed.

(** C2. The content of the merged series at each timestamp: the last fetched
    row at that timestamp if there is one; otherwise nothing inside the range
    [[min, max]] of the fetched timestamps; otherwise the last persisted row. *)
Theorem merge_update_content e r t :
  lookup_last (merge_update e r) t =
  match lookup_last r t with
  | Some v => Some v
  | None =>
      if in_update_range (index_min r) (index_max r) t then None
      else lookup_last e t
  end.
Proof.
  unfold merge_update.
  rewrite sort_index_lookup by apply drop_duplicates_NoDup.
  rewrite drop_duplicates_lookup, lookup_last_app, purge_overlap_lookup.
  reflexivity.
Qed.

(** C3. Refinement: on a non-empty fetched table with timestamps ranging over
    [[lo, hi]], the pandas merge computes exactly the ordered-map algorithm of
    the specification with purge window [[lo, hi]]. *)
Theorem merge_update_refines_spec e r lo hi :
  index_min r = Some lo -> index_max r = Some hi ->
  merge_update e r = reconcile_spec lo hi e r.
Proof.
  intros Hlo Hhi. apply strictly_increasing_ext.
  - apply merge_update_sorted.
  - apply sort_index_strictly_increasing, NoDup_fst_map_to_list.
  - intros t. unfold reconcile_spec.
    rewrite sort_index_lookup by apply NoDup_fst_map_to_list.
    rewrite map_to_list_lookup, insert_rows_lookup, lookup_empty, lookup_last_app.
    rewrite (lookup_last_filter_key (fun k => negb ((lo <=? k) && (k <=? hi)))).
    rewrite merge_update_lookup_eq, Hlo, Hhi. simpl.
    destruct (lookup_last r t); [done|].
    destruct ((lo <=? t) && (t <=? hi)); simpl; [done|]. by destruct (lookup_last e t).
Qed.

(** Re-running the merge with the same fetched window on its own output
    changes nothing. *)
Theorem merge_update_idempotent e r :
  merge_update (merge_update e r) r = merge_update e r.
Proof.
  apply strictly_increasing_ext; [apply merge_update_sorted.. |].
  intros t. rewrite !merge_update_lookup_eq.
  destruct (lookup_last r t); [done|].
  by destruct (in_update_range (index_min r) (index_max r) t).
Qed.

(** A persisted row strictly between two consecutive windows survives the
    two runs and is purged by the combined one. *)
Lemma merge_update_gap_row e r1 r2 b1 a2 t :
  index_max r1 = Some b1 -> index_min r2 = Some a2 -> t ∈ index e -> b1 < t < a2 ->
  is_Some (lookup_last (merge_update (merge_update e r1) r2) t) /\
  lookup_last (merge_update e (r1 ++ r2)) t = None.
Proof.
  intros Hb1 Ha2 He Ht.
  pose proof Hb1 as [Hb1m Hb1']%index_max_spec. pose proof Ha2 as [Ha2m Ha2']%index_min_spec.
  assert (lookup_last r1 t = None) as N1
    by (apply lookup_last_None; intros ?%Hb1'; lia).
  assert (lookup_last r2 t = None) as N2
    by (apply lookup_last_None; intros ?%Ha2'; lia).
  rewrite !merge_update_lookup_eq, lookup_last_app, N1, N2. split.
  - assert (in_update_range (index_min r1) (index_max r1) t = false) as ->.
    { apply not_true_iff_false. intros (lo & hi & _ & Hhi & ?)%in_update_range_bounds.
      rewrite Hb1 in Hhi. simplify_eq. lia. }
    assert (in_update_range (index_min r2) (index_max r2) t = false) as ->.
    { apply not_true_iff_false. intros (lo & hi & Hlo & _ & ?)%in_update_range_bounds.
      rewrite Ha2 in Hlo. simplify_eq. lia. }
    by apply lookup_last_is_Some.
  - assert (in_update_range (index_min (r1 ++ r2)) (index_max (r1 ++ r2)) t = true) as -> ; [|done].
    apply in_update_range_between. exists b1, a2. unfold index. rewrite fmap_app, !elem_of_app.
    split_and!; auto with lia.
Qed.

(** C4. Two runs with consecutive windows (the second entirely after the
    first) give the same series as one run with both windows exactly when no
    persisted timestamp lies in the gap between the two windows: a row in that
    gap is kept by the two runs and purged by the combined one. *)
Theorem merge_update_two_windows e r1 r2 b1 a2 :
  index_max r1 = Some b1 -> index_min r2 = Some a2 -> b1 < a2 ->
  merge_update (merge_update e r1) r2 = merge_update e (r1 ++ r2) <->
  (forall t, t ∈ index e -> t <= b1 \/ a2 <= t).
Proof.
  intros Hb1 Ha2 Hlt. split.
  { intros Heq t Ht. destruct (Z_le_gt_dec t b1) as [|H1]; [by left|].
    destruct (Z_le_gt_dec a2 t) as [|H2]; [by right|].
    destruct (merge_update_gap_row e r1 r2 b1 a2 t) as [[v Hv] Hn]; [done..|lia|].
    rewrite Heq, Hn in Hv. discriminate. }
  intros Hgap.
  apply strictly_increasing_ext; [apply merge_update_sorted.. |].
  intros t. rewrite !merge_update_lookup_eq, lookup_last_app.
  destruct (lookup_last r2 t) as [v|] eqn:E2; [done|].
  destruct (lookup_last r1 t) as [v|] eqn:E1.
  - (* a timestamp of the first window lies before the second range *)
    destruct (in_update_range (index_min r2) (index_max r2) t) eqn:B2; [|done].
    apply in_update_range_bounds in B2 as (lo & hi & Hlo & _ & ?).
    assert (t ∈ index r1) as Ht%(proj2 (index_max_spec _ _ Hb1))
      by (apply lookup_last_is_Some; eauto).
    rewrite Ha2 in Hlo. simplify_eq. lia.
  - destruct (in_update_range (index_min (r1 ++ r2)) (index_max (r1 ++ r2)) t) eqn:B12.
    + destruct (in_update_range (index_min r2) _ t) eqn:B2; [done|].
      destruct (in_update_range (index_min r1) _ t) eqn:B1; [done|].
      apply lookup_last_None. intros Ht%Hgap.
      destruct (in_update_range_app_split r1 r2 b1 a2 t) as [?|?]; congruence.
    + destruct (in_update_range (index_min r2) _ t) eqn:B2.
      { by rewrite (in_update_range_app_r r1) in B12. }
      destruct (in_update_range (index_min r1) _ t) eqn:B1; [|done].
      by rewrite (in_update_range_app_l _ r2) in B12.
Qed.

(** An empty fetch raises no error: the persisted series is written back
    unchanged (when it satisfies the file invariant). *)
Theorem merge_update_empty_fetch e :
  strictly_increasing e -> merge_update e [] = e.
Proof.
  intros He. apply strictly_increasing_ext; [apply merge_update_sorted | done |].
  intros t. by rewrite merge_update_lookup_eq.
Qed.

(** [updated[~updated.index.duplicated(keep='last')]] keeps a subsequence
    of the rows, with no two rows sharing a timestamp, and at every timestamp
    the row it keeps is the last one. *)
Theorem drop_duplicates_keep_last_spec s :
  drop_duplicates_keep_last s `sublist_of` s /\
  NoDup (index (drop_duplicates_keep_last s)) /\
  forall t, lookup_last (drop_duplicates_keep_last s) t = lookup_last s t.
Proof.
  split_and!; [| apply drop_duplicates_NoDup | apply drop_duplicates_lookup].
  induction s as [|[k v] s IH]; simpl; [done|].
  destruct (existsb _ _); by constructor.
Qed.

(** C6. On a non-empty persisted series, the fetch window starts five days
    (432000 s) before the latest persisted timestamp, and ends at the instant
    [now - tz_offset]: the naive UTC clock reading taken as a local time. *)
Theorem fetch_window_nonempty (e : series V) now tz_offset :
  e <> [] ->
  exists start last_date,
    fetch_window (Some e) now tz_offset = Some (start, now - tz_offset) /\
    last_date ∈ index e /\ (forall t, t ∈ index e -> t <= last_date) /\
    start = last_date - 432000.
Proof.
  intros Hne. unfold fetch_window.
  destruct (index_max e) as [m|] eqn:Hm; [|by apply index_max_None in Hm].
  apply index_max_spec in Hm as [Hin Hle].
  exists (m - overlap_days * day), m. split_and!; try done.
Qed.

(** Invariant of the persisted file: every file the script can have
    written, from the first run on, is strictly increasing in time, as long as
    the market source honours its laws. *)
Theorem reachable_strictly_increasing `{!MarketSource V, !MarketSourceLaws V} s :
  reachable (Some s) -> strictly_increasing s.
Proof.
  intros Hr. remember (Some s) as st eqn:Est. revert s Est.
  induction Hr as [|st now off st' Hr IH Hrun]; intros s Est; [discriminate|].
  injection Est as <-. unfold daily_run in Hrun.
  destruct (fetch_window st now off) as [[start end_]|]; [|discriminate].
  injection Hrun as <-.
  destruct st as [e|]; simpl; [apply merge_update_sorted | apply query_strictly_increasing].
Qed.

(** C7. A run never touches the persisted history before its fetch window:
    at every timestamp earlier than the window start the new file holds what
    the old one held. *)
Theorem daily_run_preserves_history `{!MarketSource V, !MarketSourceLaws V}
    e now tz_offset start end_ s' t :
  fetch_window (Some e) now tz_offset = Some (start, end_) ->
  daily_run (Some e) now tz_offset = Some s' -> t < start ->
  lookup_last s' t = lookup_last e t.
Proof.
  intros Hw Hrun Ht. unfold daily_run in Hrun. rewrite Hw in Hrun.
  injection Hrun as <-. simpl. rewrite merge_update_lookup_eq.
  destruct (lookup_last (query start end_) t) eqn:Hq.
  - assert (t ∈ index (query start end_)) as Hin%query_in_window
      by (apply lookup_last_is_Some; eauto). lia.
  - destruct (in_update_range _ _ t) eqn:B; [|done].
    apply in_update_range_between in B as (k1 & k2 & Hk1%query_in_window & Hk2 & ?). lia.
Qed.

(** C8. The end of the persisted series never moves backwards: the latest
    timestamp after a merge is at least the latest one before. *)
Theorem merge_update_last_date_monotone e r m :
  index_max e = Some m ->
  exists m', index_max (merge_update e r) = Some m' /\ m <= m'.
Proof.
  intros Hm. destruct (merge_update_late_row e r m Hm) as (k & Hk & Hle).
  destruct (index_max (merge_update e r)) as [m'|] eqn:Hm'.
  - apply index_max_spec in Hm' as [_ Hm']. specialize (Hm' k Hk). eauto with lia.
  - apply index_max_None in Hm'. rewrite Hm' in Hk. inversion Hk.
Qed.

End Reconcile.

(** ** Witnesses and examples *)

(** The scenarios of the specification's testable properties 4 and 5, with
    timestamps in seconds and one-cell rows. A fetched correction replaces the
    persisted row; a row ten days back survives while the latest is updated. *)
Example overlap_correction_wins :
  merge_update [(1000, 5%nat)] [(1000, 7%nat)] = [(1000, 7%nat)].
Proof. vm_compute. reflexivity. Qed.

Example outside_window_preserved :
  merge_update [(1000000 - 10 * day, 1%nat); (1000000, 2%nat)] [(1000000, 3%nat)] =
  [(1000000 - 10 * day, 1%nat); (1000000, 3%nat)].
Proof. vm_compute. reflexivity. Qed.

(** On the first run ([existing is None]) the fetched table is written as
    fetched: neither deduplicated nor sorted. *)
Example first_run_writes_fetch_as_is :
  update None [(900, 1%nat); (0, 2%nat); (900, 3%nat)] =
  [(900, 1%nat); (0, 2%nat); (900, 3%nat)].
Proof. reflexivity. Qed.

Lemma merge_update_refines_spec_witness :
  merge_update [(1, 10%nat); (4, 40%nat)] [(5, 50%nat); (3, 30%nat)] =
  reconcile_spec 3 5 [(1, 10%nat); (4, 40%nat)] [(5, 50%nat); (3, 30%nat)].
Proof. apply merge_update_refines_spec; reflexivity. Defined.

Lemma merge_update_two_windows_witness :
  merge_update (merge_update [(0, 1%nat); (100, 2%nat)] [(10, 3%nat)]) [(20, 4%nat)] =
  merge_update [(0, 1%nat); (100, 2%nat)] ([(10, 3%nat)] ++ [(20, 4%nat)]) /\
  merge_update (merge_update [(0, 1%nat); (15, 2%nat)] [(10, 3%nat)]) [(20, 4%nat)] <>
  merge_update [(0, 1%nat); (15, 2%nat)] ([(10, 3%nat)] ++ [(20, 4%nat)]).
Proof.
  split.
  - apply (merge_update_two_windows _ _ _ 10 20); [reflexivity | reflexivity | lia |].
    intros t Ht. apply list_elem_of_In in Ht. simpl in Ht. lia.
  - intros Heq.
    pose proof (proj1 (merge_update_two_windows [(0, 1%nat); (15, 2%nat)] [(10, 3%nat)]
      [(20, 4%nat)] 10 20 eq_refl eq_refl ltac:(lia)) Heq) as Hg.
    assert (15 ∈ index [(0, 1%nat); (15, 2%nat)]) as H15
      by (apply list_elem_of_In; simpl; auto).
    apply Hg in H15. lia.
Defined.

Lemma merge_update_empty_fetch_witness :
  merge_update [(1, 1%nat); (2, 2%nat)] [] = [(1, 1%nat); (2, 2%nat)].
Proof. apply merge_update_empty_fetch. vm_compute. repeat constructor. Defined.

Lemma fetch_window_nonempty_witness :
  exists start last_date,
    fetch_window (Some [(1000000, 0%nat)]) 2000000 3600 = Some (start, 2000000 - 3600) /\
    last_date ∈ index [(1000000, 0%nat)] /\
    (forall t, t ∈ index [(1000000, 0%nat)] -> t <= last_date) /\
    start = last_date - 432000.
Proof. apply fetch_window_nonempty. discriminate. Defined.

(** Two runs with the sample source: the first writes the row at the history
    start, the second adds a row five days before it. *)
Lemma reachable_strictly_increasing_witness :
  strictly_increasing [(history_start - 432000, 0%nat); (history_start, 0%nat)].
Proof.
  apply reachable_strictly_increasing.
  eapply (reachable_run (Some [(history_start, 0%nat)]) 1700000000 3600);
    [| vm_compute; reflexivity].
  eapply (reachable_run None 1700000000 3600); [apply reachable_no_file|].
  vm_compute. reflexivity.
Defined.

Lemma daily_run_preserves_history_witness :
  lookup_last (merge_update [(500000, 1%nat); (1000000, 2%nat)]
                 (query (1000000 - 432000) (2000000 - 3600))) 500000 =
  lookup_last [(500000, 1%nat); (1000000, 2%nat)] 500000.
Proof.
  apply (daily_run_preserves_history [(500000, 1%nat); (1000000, 2%nat)] 2000000 3600
           (1000000 - 432000) (2000000 - 3600)); [reflexivity | reflexivity | lia].
Defined.

Lemma merge_update_last_date_monotone_witness :
  exists m', index_max (merge_update [(5, 1%nat)] [(7, 2%nat)]) = Some m' /\ 5 <= m'.
Proof. apply merge_update_last_date_monotone. reflexivity. Defined.
