(* ===== verification/Projection.v ===== *)
(** * Projection: building the fetched table [result] (daily_data_lux.py, lines 17-49)

    The ENTSO-E client returns the generation per production type as a
    [DataFrame] whose columns form a two-level [MultiIndex]: the production
    type, then ['Actual Aggregated'] or ['Actual Consumption']. The script keeps
    the wanted production types with [gen[production_types]] (line 44), which
    raises [KeyError] when one of them is absent, and adds the load with
    [result['Load'] = load] (line 49). That assignment follows pandas'
    [DataFrame.__setitem__]: a table without rows first takes the load's
    index ([_ensure_valid_index]); a load on the table's very index is
    assigned position by position; otherwise it is aligned on the generation
    index ([_reindex_for_setitem]): a timestamp without load gets [NaN], a
    load timestamp outside the generation index is dropped, and a load index
    with duplicates raises.

    A frame is its list of columns and its rows in file order; a row is the
    list of its cells, [None] being [NaN]. The cell type [C] is a parameter.
    The client is the interface [MarketClient]. *)

From stdpp Require Import strings.
From S2P Require Import Prelude Series.

(** Lines 18-26. *)
Definition production_types : list string :=
  ["Hydro Run-of-river and poundage"; "Biomass"; "Fossil Gas";
   "Hydro Water Reservoir"; "Waste"; "Wind Onshore"; "Solar"]%string.

(** A column label of the two-level [MultiIndex]. *)
Definition column : Type := (string * string)%type.

(** [result['Load']] on a two-level column index is the column [('Load', '')]. *)
Definition load_column : column := ("Load", "")%string.

Record frame (C : Type) := Frame {
  columns : list column;
  rows : series (list (option C))
}.
Arguments Frame {C} _ _.
Arguments columns {C} _.
Arguments rows {C} _.

(** The pandas errors of lines 44 and 49. *)
Inductive pandas_error :=
  | KeyError (labels : list string)
  | InvalidIndexError.

(** The market-data client of lines 43 and 46. *)
Class MarketClient (C : Type) := {
  query_generation : Timestamp -> Timestamp -> frame C;
  query_load : Timestamp -> Timestamp -> series C
}.

(** Sample tables used by the examples: every production type plus one that
    the script does not keep, two quarter-hours, a load known at the first. *)
Definition sample_columns : list column :=
  map (fun l => (l, "Actual Aggregated")%string) (production_types ++ ["Nuclear"%string]).

Definition sample_generation : frame nat :=
  Frame sample_columns
    [(0, map Some (seq 1 8)); (900, map Some (seq 11 8))].

Definition sample_client : MarketClient nat := {|
  query_generation _ _ := sample_generation;
  query_load _ _ := [(0, 500%nat)]
|}.

(** The same source on a day it does not report solar generation. *)
Definition sample_client_no_solar : MarketClient nat := {|
  query_generation _ _ :=
    Frame (List.filter (fun c => negb (String.eqb c.1 "Solar")) sample_columns)
      [(0, map Some (seq 1 7))];
  query_load _ _ := [(0, 500%nat)]
|}.

Section Projection.
Context {C : Type}.
Implicit Types (f : frame C) (cols : list column) (cells : list (option C)).

Definition frame_wf f : Prop :=
  Forall (fun row => length row.2 = length (columns f)) (rows f).

(** The position of a column in the column index (its first occurrence). *)
Fixpoint column_position cols (c : column) : option nat :=
  match cols with
  | [] => None
  | c' :: cols' =>
      if decide (c' = c) then Some 0%nat else S <$> column_position cols' c
  end.

(** The cell of column [c] in a row. *)
Definition cell cols cells (c : column) : option C :=
  match column_position cols c with
  | Some i => mjoin (cells !! i)
  | None => None
  end.

Definition has_label (label : string) (c : column) : bool := String.eqb c.1 label.

(** Line 44, [gen[production_types]]: the columns whose first level is one
    of the wanted labels, label by label; [KeyError] names the absent labels. *)
Definition select_columns f (wanted : list string) : pandas_error + frame C :=
  let missing :=
    List.filter (fun l => negb (existsb (has_label l) (columns f))) wanted in
  match missing with
  | [] =>
      let sel := concat (map (fun l => List.filter (has_label l) (columns f)) wanted) in
      inr (Frame sel (map (fun row => (row.1, map (cell (columns f) row.2) sel)) (rows f)))
  | _ :: _ => inl (KeyError missing)
  end.

(** Whether an index has no duplicate (pandas' [index.is_unique]). *)
Fixpoint index_is_unique (ks : list Timestamp) : bool :=
  match ks with
  | [] => true
  | k :: ks' => negb (existsb (Z.eqb k) ks') && index_is_unique ks'
  end.

(** Writing a column of values, position by position, under [('Load', '')]:
    an existing column of that label is overwritten, otherwise the column is
    appended. *)
Definition set_load_column f (vals : list (option C)) : frame C :=
  match column_position (columns f) load_column with
  | Some i => Frame (columns f) (zip_with (fun row v => (row.1, <[i := v]> row.2)) (rows f) vals)
  | None => Frame (columns f ++ [load_column]) (zip_with (fun row v => (row.1, row.2 ++ [v])) (rows f) vals)
  end.

(** [_ensure_valid_index]: a frame without rows takes the index of the
    series assigned to it, every existing cell [NaN]. *)
Definition ensure_valid_index f (load : series C) : frame C :=
  match rows f, load with
  | [], _ :: _ => Frame (columns f) (map (fun k => (k, map (fun _ => None) (columns f))) (index load))
  | _, _ => f
  end.

(** Line 49, [result['Load'] = load] ([DataFrame.__setitem__] with a
    [Series]): after [ensure_valid_index], [_reindex_for_setitem] takes the
    load's values as they are when its index equals the frame's (or the
    frame has no rows), and otherwise reindexes it on the frame's index,
    which raises when the load's index has a duplicate. *)
Definition assign_load f (load : series C) : pandas_error + frame C :=
  let f := ensure_valid_index f load in
  if bool_decide (index load = index (rows f)) || bool_decide (rows f = []) then
    inr (set_load_column f (map (fun r => Some r.2) load))
  else if index_is_unique (index load) then
    inr (set_load_column f (map (fun row => lookup_last load row.1) (rows f)))
  else inl InvalidIndexError.

(** Lines 43-49. *)
Definition build_result `{!MarketClient C} (start end_ : Timestamp)
  : pandas_error + frame C :=
  match select_columns (query_generation start end_) production_types with
  | inl err => inl err
  | inr gen_selected => assign_load gen_selected (query_load start end_)
  end.

(** ** Lemmas *)

Lemma has_label_true l c : has_label l c = true <-> c.1 = l.
Proof. apply String.eqb_eq. Qed.

Lemma index_is_unique_NoDup ks : index_is_unique ks = true <-> NoDup ks.
Proof.
  induction ks as [|k ks IH]; simpl; [split; [constructor | done]|].
  rewrite andb_true_iff, negb_true_iff, existsb_Zeqb_not_elem, IH, NoDup_cons.
  tauto.
Qed.

Lemma column_position_lookup cols c i :
  column_position cols c = Some i -> cols !! i = Some c.
Proof.
  revert i. induction cols as [|c' cols IH]; intros i; simpl; [discriminate|].
  case_decide; [intros [= <-]; simpl; congruence|].
  destruct (column_position cols c) eqn:E; simpl; [|discriminate].
  intros [= <-]. simpl. by apply IH.
Qed.

Lemma column_position_None cols c : column_position cols c = None <-> c ∉ cols.
Proof.
  induction cols as [|c' cols IH]; simpl.
  - split; [intros _ H; inversion H | done].
  - rewrite not_elem_of_cons. case_decide as Heq.
    + subst. split; [discriminate | tauto].
    + destruct (column_position cols c) eqn:E; simpl.
      * split; [discriminate|]. intros [_ Hc]. apply IH in Hc. discriminate.
      * split; [intros _; split; [congruence | by apply IH] | done].
Qed.

Lemma column_position_elem cols c : c ∈ cols -> exists i, column_position cols c = Some i.
Proof.
  intros Hin. destruct (column_position cols c) eqn:E; [eauto|].
  by apply column_position_None in E.
Qed.

(** Reading a row built column by column from another one. *)
Lemma cell_map cols cells sel c :
  c ∈ sel -> cell sel (map (cell cols cells) sel) c = cell cols cells c.
Proof.
  intros (j & Hj)%column_position_elem. unfold cell at 1. rewrite Hj.
  apply column_position_lookup in Hj. by rewrite list_lookup_fmap, Hj.
Qed.

Lemma cell_app_last cols cells x c :
  length cells = length cols -> c ∉ cols ->
  cell (cols ++ [c]) (cells ++ [x]) c = x.
Proof.
  intros Hlen Hc. unfold cell.
  assert (column_position (cols ++ [c]) c = Some (length cols)) as ->.
  { induction cols as [|c' cols IH] in cells, Hlen, Hc |- *; simpl.
    - by rewrite decide_True.
    - apply not_elem_of_cons in Hc as [Hne Hc].
      rewrite decide_False by congruence. destruct cells as [|x' cells]; [done|].
      by rewrite (IH cells) by (simpl in *; lia || done). }
  by rewrite lookup_app_r, Hlen, Nat.sub_diag by lia.
Qed.

Lemma cell_app_prefix cols cells x c c' :
  length cells = length cols -> c ∈ cols ->
  cell (cols ++ [c']) (cells ++ [x]) c = cell cols cells c.
Proof.
  intros Hlen (i & Hi)%column_position_elem. unfold cell.
  assert (column_position (cols ++ [c']) c = Some i) as ->.
  { clear Hlen. induction cols as [|c0 cols IH] in i, Hi |- *; simpl in *; [discriminate|].
    case_decide; [done|].
    destruct (column_position cols c) eqn:E; [|discriminate]. simpl in Hi.
    injection Hi as <-. by rewrite (IH n). }
  rewrite Hi. apply column_position_lookup, lookup_lt_Some in Hi.
  by rewrite lookup_app_l by lia.
Qed.

Lemma select_columns_inr f wanted f' :
  select_columns f wanted = inr f' ->
  List.filter (fun l => negb (existsb (has_label l) (columns f))) wanted = [] /\
  columns f' = concat (map (fun l => List.filter (has_label l) (columns f)) wanted) /\
  rows f' = map (fun row => (row.1, map (cell (columns f) row.2) (columns f'))) (rows f).
Proof.
  unfold select_columns. destruct (List.filter _ _) eqn:E; [|discriminate].
  intros [= <-]. done.
Qed.

Lemma existsb_has_label l cols :
  existsb (has_label l) cols = true <-> exists c, c ∈ cols /\ c.1 = l.
Proof.
  rewrite existsb_exists. setoid_rewrite has_label_true.
  setoid_rewrite list_elem_of_In. done.
Qed.

Lemma missing_labels_elem (cols : list column) wanted l :
  l ∈ List.filter (fun l => negb (existsb (has_label l) cols)) wanted <->
  l ∈ wanted /\ forall c, c ∈ cols -> c.1 <> l.
Proof.
  rewrite list_filter_elem, negb_true_iff, <- not_true_iff_false, existsb_has_label.
  split; [intros [Hw Hn]; split; [done|] | intros [Hw Hn]; split; [done|]].
  - intros c Hc Heq. apply Hn. eauto.
  - intros (c & Hc & Heq). exact (Hn c Hc Heq).
Qed.

Lemma labels_present_iff (cols : list column) wanted :
  forallb (fun l => existsb (has_label l) cols) wanted = true <->
  forall l, l ∈ wanted -> exists c, c ∈ cols /\ c.1 = l.
Proof.
  rewrite forallb_forall. setoid_rewrite existsb_has_label.
  setoid_rewrite list_elem_of_In. done.
Qed.

Lemma label_absent_iff (cols : list column) l :
  existsb (has_label l) cols = false <-> forall c, c ∈ cols -> c.1 <> l.
Proof.
  rewrite <- not_true_iff_false, existsb_has_label.
  split; [intros Hn c Hc Heq; apply Hn; eauto | intros Hn (c & Hc & Heq); exact (Hn c Hc Heq)].
Qed.

Lemma select_columns_ok f wanted :
  (forall l, l ∈ wanted -> exists c, c ∈ columns f /\ c.1 = l) ->
  select_columns f wanted =
  inr (let sel := concat (map (fun l => List.filter (has_label l) (columns f)) wanted) in
       Frame sel (map (fun row => (row.1, map (cell (columns f) row.2) sel)) (rows f))).
Proof.
  intros Hall. unfold select_columns.
  destruct (List.filter _ _) as [|l ?] eqn:E; [done|].
  assert (Hl : l ∈ List.filter (fun l => negb (existsb (has_label l) (columns f))) wanted)
    by (rewrite E; apply list_elem_of_here).
  apply missing_labels_elem in Hl as [Hw Hnone].
  destruct (Hall l Hw) as (c & Hc & <-). by destruct (Hnone c Hc).
Qed.

Lemma selected_columns_elem (cols : list column) wanted c :
  c ∈ concat (map (fun l => List.filter (has_label l) cols) wanted) <->
  c ∈ cols /\ c.1 ∈ wanted.
Proof.
  rewrite !list_elem_of_In, in_concat. setoid_rewrite in_map_iff.
  split.
  - intros (? & (l & <- & Hl) & Hc). apply filter_In in Hc as [Hc Hlab].
    apply has_label_true in Hlab. subst. by split.
  - intros [Hc Hw]. exists (List.filter (has_label c.1) cols). split.
    + by exists c.1.
    + apply filter_In. split; [done|]. by apply has_label_true.
Qed.

Lemma Forall2_map_r {A B} (P : A -> B -> Prop) (g : A -> B) (l : list A) :
  Forall (fun x => P x (g x)) l -> Forall2 P l (map g l).
Proof. induction 1; simpl; constructor; auto. Qed.

Lemma selected_frame_wf cols (sel : list column) (rs : series (list (option C))) :
  frame_wf (Frame sel (map (fun row => (row.1, map (cell cols row.2) sel)) rs)).
Proof.
  unfold frame_wf. simpl. rewrite Forall_forall. intros row Hrow.
  apply list_elem_of_In, in_map_iff in Hrow as (r & <- & _). apply length_map.
Qed.

Lemma zip_with_map_r {A B D} (g : A -> B -> D) (h : A -> B) (l : list A) :
  zip_with g l (map h l) = map (fun x => g x (h x)) l.
Proof. induction l as [|x l IH]; cbn; [done|by rewrite IH]. Qed.

Lemma map_index {A B} (g : Timestamp -> B) (s : series A) :
  map g (index s) = map (fun r => g r.1) s.
Proof. induction s as [|r s IH]; [done|]. unfold index in *. rewrite fmap_cons. cbn. by rewrite IH. Qed.

Lemma index_pairs {A} (g : Timestamp -> A) (ks : list Timestamp) :
  index (map (fun k => (k, g k)) ks) = ks.
Proof. induction ks as [|k ks IH]; [done|]. unfold index in *. cbn. by rewrite IH. Qed.

Lemma ensure_valid_index_rows f (load : series C) : rows f <> [] -> ensure_valid_index f load = f.
Proof. unfold ensure_valid_index. by destruct (rows f). Qed.

(** The values of a series with a unique index, position by position, are
    its lookups at its own timestamps. *)
Lemma values_by_position (load : series C) :
  NoDup (index load) -> map (fun r => Some r.2) load = map (lookup_last load) (index load).
Proof.
  intros Hnd. rewrite map_index. apply map_ext_in. intros [k v] Hr.
  symmetry. by apply lookup_last_nodup, list_elem_of_In.
Qed.

(** With a unique load index, and rows in the frame unless the load is
    empty, line 49 is the reindex: each row gets the load at its timestamp. *)
Lemma assign_load_reindex f (load : series C) :
  NoDup (index load) -> (rows f = [] -> load = []) ->
  assign_load f load = inr (set_load_column f (map (fun row => lookup_last load row.1) (rows f))).
Proof.
  intros Hnd Hne. unfold assign_load.
  assert (ensure_valid_index f load = f) as ->.
  { destruct (rows f) eqn:E; [|by apply ensure_valid_index_rows; rewrite E].
    unfold ensure_valid_index. by rewrite E, Hne. }
  rewrite (proj2 (index_is_unique_NoDup _) Hnd).
  case_bool_decide as Heq; cbn [orb].
  - rewrite values_by_position, Heq by done. by rewrite map_index.
  - case_bool_decide as Hr; [|done]. by rewrite Hr, (Hne Hr).
Qed.

Lemma index_cons {A} (r : Timestamp * A) (s : series A) : index (r :: s) = r.1 :: index s.
Proof. reflexivity. Qed.

Lemma set_load_column_index f vals :
  (length (rows f) <= length vals)%nat -> index (rows (set_load_column f vals)) = index (rows f).
Proof.
  unfold set_load_column. destruct (column_position _ _); cbn [rows];
    generalize (rows f) as rs; intros rs; revert vals;
    induction rs as [|r rs IH]; intros [|v vals] Hlen; cbn [zip_with length] in *; try (done || lia);
    rewrite !index_cons, IH by lia; done.
Qed.

Lemma set_load_column_columns f vals : columns (set_load_column f vals) <> [].
Proof.
  unfold set_load_column. destruct (column_position _ _) eqn:E; cbn [columns].
  - intros Hc. by rewrite Hc in E.
  - by destruct (columns f).
Qed.

(** The rows of [result] are those of the frame, or the load's timestamps
    when the frame has none. *)
Lemma assign_load_index f (load : series C) f' :
  assign_load f load = inr f' ->
  index (rows f') = if bool_decide (rows f = []) then index load else index (rows f).
Proof.
  assert (Hev : index (rows (ensure_valid_index f load)) =
                if bool_decide (rows f = []) then index load else index (rows f)).
  { unfold ensure_valid_index. destruct (rows f) eqn:E, load; cbn [rows]; rewrite ?E; try done.
    by rewrite index_pairs. }
  rewrite <- Hev. unfold assign_load. cbv zeta.
  assert (Hl : forall {A} (s : series A), length (index s) = length s) by (intros A s; apply length_fmap).
  destruct (bool_decide _ || bool_decide _) eqn:B.
  - intros [= <-]. apply set_load_column_index. rewrite length_map.
    apply orb_true_iff in B as [B|B]; apply bool_decide_eq_true in B.
    + rewrite <- (Hl _ load), <- (Hl _ (rows _)), B. lia.
    + rewrite B. cbn. lia.
  - destruct (index_is_unique _); [|done]. intros [= <-].
    apply set_load_column_index. rewrite length_map. lia.
Qed.

(** Appending the load column to a well-formed frame without one. *)
Lemma assign_load_append_spec f (load : series C) :
  NoDup (index load) -> (rows f = [] -> load = []) -> load_column ∉ columns f -> frame_wf f ->
  assign_load f load =
  inr (Frame (columns f ++ [load_column])
         (map (fun row => (row.1, row.2 ++ [lookup_last load row.1])) (rows f))) /\
  Forall (fun r =>
    cell (columns f ++ [load_column]) (r.2 ++ [lookup_last load r.1]) load_column =
      lookup_last load r.1 /\
    forall c, c ∈ columns f ->
      cell (columns f ++ [load_column]) (r.2 ++ [lookup_last load r.1]) c =
      cell (columns f) r.2 c) (rows f).
Proof.
  intros Hnd Hne Hc Hwf. rewrite assign_load_reindex by done. unfold set_load_column.
  rewrite (proj2 (column_position_None _ _) Hc), zip_with_map_r.
  split; [done|]. unfold frame_wf in Hwf. rewrite Forall_forall in Hwf |- *.
  intros r Hr. split; [apply cell_app_last; [by apply Hwf | done]|].
  intros c' Hc'. apply cell_app_prefix; [by apply Hwf | done].
Qed.

(** ** Properties of the projection *)

(** C9. [gen[production_types]] either selects (when every wanted label is
    the first level of some column) or raises [KeyError] naming exactly the
    wanted labels no column carries: a missing production type is an error,
    not an absent field. *)
Theorem select_columns_result f wanted :
  match select_columns f wanted with
  | inl err =>
      exists missing, err = KeyError missing /\ missing <> [] /\
        forall l, l ∈ missing <-> l ∈ wanted /\ forall c, c ∈ columns f -> c.1 <> l
  | inr _ => forall l, l ∈ wanted -> exists c, c ∈ columns f /\ c.1 = l
  end.
Proof.
  unfold select_columns.
  destruct (List.filter _ _) as [|l0 ls] eqn:E.
  - intros l Hl. apply existsb_has_label.
    destruct (existsb (has_label l) (columns f)) eqn:Hb; [done|].
    assert (l ∈ List.filter (fun l => negb (existsb (has_label l) (columns f))) wanted)
      as Hin by (apply list_filter_elem; by rewrite Hb).
    rewrite E in Hin. inversion Hin.
  - exists (l0 :: ls). split_and!; [done | done |]. intros l.
    by rewrite <- E, missing_labels_elem.
Qed.

(** C10. A successful selection keeps the generation index row for row,
    every row has one cell per selected column, and the selected columns are
    those of the input whose first level is a wanted label. *)
Theorem select_columns_shape f wanted f' :
  select_columns f wanted = inr f' ->
  frame_wf f' /\ index (rows f') = index (rows f) /\
  forall c, c ∈ columns f' <-> c ∈ columns f /\ c.1 ∈ wanted.
Proof.
  intros (_ & Hcols & Hrows)%select_columns_inr. split_and!.
  - destruct f' as [cols' rs']. simpl in *. subst rs'. apply selected_frame_wf.
  - rewrite Hrows. apply index_map_cells.
  - intros c. rewrite Hcols. apply selected_columns_elem.
Qed.

(** Row by row, every selected column holds the cell the generation
    table had in that column. *)
Theorem select_columns_cells f wanted f' :
  select_columns f wanted = inr f' ->
  Forall2 (fun r r' => r'.1 = r.1 /\
             forall c, c ∈ columns f' -> cell (columns f') r'.2 c = cell (columns f) r.2 c)
          (rows f) (rows f').
Proof.
  intros (_ & _ & ->)%select_columns_inr. apply Forall2_map_r.
  apply Forall_forall. intros r _. split; [done|]. intros c Hc. by apply cell_map.
Qed.


(** C12. Lines 43-49 end to end: when the generation table carries every
    production type and the load index is unique, [result] has one row per
    generation row, the selected generation cells unchanged, and a last
    column [Load] holding the load at that timestamp, [NaN] ([None]) where the
    load has no value: not reported, not zero. *)
Theorem build_result_ok `{!MarketClient C} start end_ :
  (forall l, l ∈ production_types ->
     exists c, c ∈ columns (query_generation start end_) /\ c.1 = l) ->
  NoDup (index (query_load start end_)) ->
  (rows (query_generation start end_) = [] -> query_load start end_ = []) ->
  exists res, build_result start end_ = inr res /\
    last (columns res) = Some load_column /\
    Forall2 (fun r r' => r'.1 = r.1 /\
       cell (columns res) r'.2 load_column = lookup_last (query_load start end_) r.1 /\
       forall c, c ∈ columns (query_generation start end_) -> c.1 ∈ production_types ->
         cell (columns res) r'.2 c = cell (columns (query_generation start end_)) r.2 c)
      (rows (query_generation start end_)) (rows res).
Proof.
  intros Hall Hnd Hne. unfold build_result. rewrite select_columns_ok by done.
  cbv beta iota zeta.
  set (gen := query_generation start end_) in *.
  set (sel := concat (map (fun l => List.filter (has_label l) (columns gen)) production_types)).
  assert (Hno : load_column ∉ sel).
  { intros [_ Hin]%selected_columns_elem. vm_compute in Hin.
    repeat (apply elem_of_cons in Hin as [Hin | Hin]; [discriminate|]). inversion Hin. }
  destruct (assign_load_append_spec (Frame sel (map (fun row => (row.1, map (cell (columns gen) row.2) sel)) (rows gen)))
              (query_load start end_)) as [-> Hcells];
    [done | by intros ?%map_eq_nil%Hne | done | apply selected_frame_wf |].
  eexists. split_and!; [done | simpl; by rewrite last_snoc |]. cbn [columns rows] in *.
  rewrite Forall_forall in Hcells.
  clear Hne. induction (rows gen) as [|r rs IH]; [constructor|]. cbn [map]. constructor.
  - destruct (Hcells _ (list_elem_of_here _ _)) as [Hl Hp]. cbn [fst snd] in *.
    split_and!; [done | done |]. intros c Hc Hlab.
    rewrite Hp by (by apply selected_columns_elem). by apply cell_map, selected_columns_elem.
  - apply IH. intros x Hx. apply Hcells. by apply list_elem_of_further.
Qed.

(** C13. When the API omits a production type, building [result] fails with
    a [KeyError] naming it, and the run stops before any merge. *)
Theorem build_result_missing_type `{!MarketClient C} start end_ l :
  l ∈ production_types ->
  (forall c, c ∈ columns (query_generation start end_) -> c.1 <> l) ->
  exists missing, build_result start end_ = inl (KeyError missing) /\ l ∈ missing.
Proof.
  intros Hl Hnone. unfold build_result, select_columns.
  assert (Hin : l ∈ List.filter
     (fun l => negb (existsb (has_label l) (columns (query_generation start end_))))
     production_types) by (apply missing_labels_elem; auto).
  destruct (List.filter _ _) as [|m ms]; [inversion Hin | eauto].
Qed.

End Projection.

(** ** Witnesses *)

Lemma select_columns_shape_witness :
  exists f', select_columns sample_generation production_types = inr f' /\ frame_wf f'.
Proof.
  eexists. split; [vm_compute; reflexivity|].
  exact (proj1 (select_columns_shape sample_generation production_types _ eq_refl)).
Defined.

Lemma select_columns_cells_witness :
  exists f', select_columns sample_generation production_types = inr f' /\
    length (rows f') = 2%nat.
Proof.
  eexists. split; [vm_compute; reflexivity|].
  exact (eq_sym (Forall2_length _ _ _
    (select_columns_cells sample_generation production_types _ eq_refl))).
Defined.


Lemma build_result_ok_witness :
  exists res, @build_result nat sample_client 0 900 = inr res.
Proof.
  destruct (@build_result_ok nat sample_client 0 900) as (res & Hres & _).
  - apply labels_present_iff. reflexivity.
  - apply index_is_unique_NoDup. reflexivity.
  - discriminate.
  - eauto.
Defined.

Lemma build_result_missing_type_witness :
  exists missing, @build_result nat sample_client_no_solar 0 900 = inl (KeyError missing) /\
    "Solar"%string ∈ missing.
Proof.
  apply (@build_result_missing_type nat sample_client_no_solar 0 900).
  - apply list_elem_of_In. simpl. tauto.
  - apply label_absent_iff. reflexivity.
Defined.
