(* ===== verification/PowerDb.v ===== *)
(** * PowerDb: the earlier SQLite store of [src/old/database.py]

    [setup_database] creates [power_data] (an autoincrement [id], the
    [timestamp] text, [country_code], [generation_type], a [value REAL NOT
    NULL], and [UNIQUE(timestamp, country_code, generation_type)]) if it does
    not exist; [store_data_in_db] inserts one row per (row, generation type)
    and swallows every [IntegrityError]; [update_power_data] creates the table,
    fetches the last [days] days and stores them when the fetch is not empty;
    [fetch_entsoe_data] returns an empty frame when the client raises.

    The table is a [gmap] keyed by the UNIQUE columns, each entry holding its
    [id] and its value; [None] is the database file before the table exists.
    A value [NaN] is [None] in a row: SQLite stores NaN as NULL, so the
    [NOT NULL] constraint rejects it with an [IntegrityError].

    The timestamp text is [strftime("%Y-%m-%d %H:%M:%S")] of the index, which is
    in local time and carries no offset: the key is the local wall-clock
    reading [local_wall_time t offset = t + offset], the information the text
    holds (a bijection between the two is left to the formatting model).

    A row's cells are taken by the generation-type name: the model covers a
    fetched frame with one level of column labels. The client's generation
    frame has two ([Projection]); with those, [generation_type in row] holds
    but [row[generation_type]] is a [Series], the [INSERT] raises a binding
    error that the [except IntegrityError] does not catch, and the run stops
    with nothing committed. That path is not modelled. *)

From stdpp Require Import gmap strings.
From S2P Require Import Prelude Series.

(** Lines 68-69, in the order of the loop. *)
Definition db_generation_types : list string :=
  ["Biomass"; "Fossil Gas"; "Hydro Run-of-river and poundage";
   "Hydro Water Reservoir"; "Solar"; "Waste"; "Wind Onshore"]%string.

(** [UNIQUE(timestamp, country_code, generation_type)]. *)
Definition power_key : Type := (Timestamp * string * string)%type.

(** The errors sqlite3 raises here. *)
Inductive sql_error := IntegrityError | OperationalError.

(** Line 28: what the formatted timestamp retains of an instant observed in
    a zone of UTC offset [offset]. *)
Definition local_wall_time (t offset : Timestamp) : Timestamp := t + offset.

Section PowerDb.
Context {V : Type}.

Record power_db := PowerDb {
  next_id : Z;
  power_data : gmap power_key (Z * V)
}.

(** A row of the fetched frame after [reset_index()]: its instant, the UTC
    offset of its zone, and its cells by column label ([None] is [NaN]). *)
Record db_row := DbRow {
  row_instant : Timestamp;
  row_offset : Timestamp;
  row_cells : list (string * option V)
}.

Implicit Types (d : power_db) (st : option power_db) (rs : list db_row).

(** Lines 38-55: [CREATE TABLE IF NOT EXISTS]. *)
Definition setup_database st : option power_db :=
  match st with
  | Some d => Some d
  | None => Some (PowerDb 1 ∅)
  end.

(** Lines 72-75: one [INSERT]. *)
Definition insert_power_data d (key : power_key) (value : option V)
  : sql_error + power_db :=
  match value with
  | None => inl IntegrityError
  | Some v =>
      match power_data d !! key with
      | Some _ => inl IntegrityError
      | None => inr (PowerDb (next_id d + 1) (<[key := (next_id d, v)]> (power_data d)))
      end
  end.

(** [generation_type in row] and [row[generation_type]]. *)
Definition row_has (r : db_row) (label : string) : bool :=
  existsb (fun c => String.eqb c.1 label) (row_cells r).

Definition row_get (r : db_row) (label : string) : option V :=
  match List.find (fun c => String.eqb c.1 label) (row_cells r) with
  | Some c => c.2
  | None => None
  end.

(** Lines 70-78: the [if] and the [try]/[except IntegrityError: pass]. *)
Definition store_cell (country_code : string) (r : db_row) d (gt : string) : power_db :=
  if row_has r gt then
    match insert_power_data d
            (local_wall_time (row_instant r) (row_offset r), country_code, gt)
            (row_get r gt) with
    | inr d' => d'
    | inl IntegrityError => d
    | inl OperationalError => d
    end
  else d.

(** Lines 67-79. *)
Definition store_rows (country_code : string) d rs : power_db :=
  foldl (fun acc r => foldl (store_cell country_code r) acc db_generation_types) d rs.

(** Lines 57-82; without the table the first [INSERT] executed raises
    [OperationalError], which the [except] does not catch. *)
Definition store_data_in_db st (country_code : string) rs : sql_error + option power_db :=
  match st with
  | None =>
      if existsb (fun r => existsb (row_has r) db_generation_types) rs
      then inl OperationalError else inr None
  | Some d => inr (Some (store_rows country_code d rs))
  end.

(** Lines 15-36: the client's answer, [None] when it raised; the [except]
    returns an empty frame. *)
Definition fetch_entsoe_data (answer : option (list db_row)) : list db_row :=
  match answer with Some rs => rs | None => [] end.

(** Lines 85-94, the client being the oracle [fetch]. *)
Definition update_power_data (fetch : Timestamp -> Timestamp -> option (list db_row))
    st (country_code : string) (days now : Timestamp) : option power_db :=
  let st1 := setup_database st in
  let end_date := now in
  let start_date := end_date - days * day in
  let dataframe := fetch_entsoe_data (fetch start_date end_date) in
  match dataframe with
  | [] => st1
  | _ :: _ =>
      match store_data_in_db st1 country_code dataframe with
      | inr st2 => st2
      | inl _ => st1
      end
  end.

(** The well-formedness of the table: ids below [next_id], at least 1, and
    distinct. *)
Definition db_wf d : Prop :=
  1 <= next_id d /\
  (forall k r, power_data d !! k = Some r -> 1 <= r.1 < next_id d) /\
  (forall k1 k2 r1 r2, power_data d !! k1 = Some r1 -> power_data d !! k2 = Some r2 ->
     r1.1 = r2.1 -> k1 = k2).

(** The first value a list of rows reports for a key: what the store keeps. *)
Fixpoint first_reported rs (country_code : string) (key : power_key) : option V :=
  match rs with
  | [] => None
  | r :: rs' =>
      if bool_decide (key = (local_wall_time (row_instant r) (row_offset r), country_code, key.2))
         && row_has r key.2
      then match row_get r key.2 with
           | Some v => Some v
           | None => first_reported rs' country_code key
           end
      else first_reported rs' country_code key
  end.

(** The database files reachable by runs of [update_power_data] with the
    same fetch, from a missing table on. *)
Inductive db_reachable (fetch : Timestamp -> Timestamp -> option (list db_row))
    (country_code : string) : option power_db -> Prop :=
  | db_reachable_init : db_reachable fetch country_code None
  | db_reachable_update st days now :
      db_reachable fetch country_code st ->
      db_reachable fetch country_code (update_power_data fetch st country_code days now).

(** The value stored under a key, forgetting the id. *)
Definition stored_value d (k : power_key) : option V := snd <$> power_data d !! k.

(** A row of [SELECT * FROM power_data]: the id, the three key columns and
    the value. *)
Definition db_record : Type := (Z * power_key * V)%type.

Definition id_le (a b : db_record) : Prop := a.1.1 <= b.1.1.

#[global] Instance id_le_dec : RelDecision id_le := fun a b => Z.le_dec _ _.

(** [src/old/database_retrieve.py] lines 8-17:
    [pd.read_sql_query("SELECT * FROM power_data;", conn)], a scan of the
    table in the order of its [id] (the rowid); without the table SQLite
    raises [OperationalError] (no such table). *)
Definition retrieve_power_data st : sql_error + list db_record :=
  match st with
  | None => inl OperationalError
  | Some d =>
      inr (merge_sort id_le ((fun kv : power_key * (Z * V) => (kv.2.1, kv.1, kv.2.2)) <$>
                             map_to_list (power_data d)))
  end.

(** ** Lemmas *)

Lemma stored_value_store_cell cc r d gt k :
  stored_value (store_cell cc r d gt) k =
  match stored_value d k with
  | Some v => Some v
  | None =>
      if bool_decide (k = (local_wall_time (row_instant r) (row_offset r), cc, gt)) && row_has r gt
      then row_get r gt else None
  end.
Proof.
  unfold stored_value, store_cell, insert_power_data.
  destruct (row_has r gt) eqn:Hhas; rewrite ?andb_false_r, ?andb_true_r;
    [|by destruct (power_data d !! k)].
  case_bool_decide as Hk.
  - subst k. destruct (row_get r gt) as [v|];
      destruct (power_data d !! _) as [[i w]|] eqn:E; simpl; rewrite ?E; try done.
    by rewrite lookup_insert_eq.
  - destruct (row_get r gt) as [v|]; [|by destruct (power_data d !! k)].
    destruct (power_data d !! _) as [[i w]|] eqn:E; simpl; [by destruct (power_data d !! k)|].
    rewrite lookup_insert_ne by congruence. by destruct (power_data d !! k).
Qed.

Lemma stored_value_store_row cc r d ts k :
  stored_value (foldl (store_cell cc r) d ts) k =
  match stored_value d k with
  | Some v => Some v
  | None =>
      if bool_decide (k = (local_wall_time (row_instant r) (row_offset r), cc, k.2))
         && bool_decide (k.2 ∈ ts) && row_has r k.2
      then row_get r k.2 else None
  end.
Proof.
  revert d. induction ts as [|gt ts IH]; intros d; simpl.
  - destruct (stored_value d k); [done|].
    by rewrite andb_false_r.
  - rewrite IH, stored_value_store_cell.
    destruct (stored_value d k) as [v|]; [done|].
    destruct (decide (k = (local_wall_time (row_instant r) (row_offset r), cc, gt)))
      as [-> | Hne]; simpl.
    + rewrite !bool_decide_eq_true_2 by (done || apply list_elem_of_here). simpl.
      rewrite (bool_decide_eq_true_2 (gt ∈ gt :: ts)) by apply list_elem_of_here.
      destruct (row_has r gt), (row_get r gt); simpl; try done.
      all: by destruct (bool_decide (gt ∈ ts)).
    + rewrite (bool_decide_eq_false_2 _ Hne). simpl.
      case_bool_decide as Hk; simpl; [|done].
      assert (k.2 <> gt) by (intros Heq; apply Hne; rewrite Hk, Heq; done).
      rewrite (bool_decide_ext (k.2 ∈ gt :: ts) (k.2 ∈ ts)); [done|].
      rewrite elem_of_cons. tauto.
Qed.

Lemma stored_value_store_rows cc d rs k :
  stored_value (store_rows cc d rs) k =
  match stored_value d k with
  | Some v => Some v
  | None =>
      if bool_decide (k.2 ∈ db_generation_types) then first_reported rs cc k else None
  end.
Proof.
  unfold store_rows. remember db_generation_types as gts eqn:Hg.
  revert d. induction rs as [|r rs IH]; intros d; simpl.
  - destruct (stored_value d k); [done|]. by case_bool_decide.
  - rewrite IH, stored_value_store_row.
    destruct (stored_value d k) as [v|]; [done|].
    destruct (bool_decide (k.2 ∈ gts)); simpl; rewrite ?andb_false_r, ?andb_true_r.
    + destruct (bool_decide (k = _) && row_has r k.2); [|done].
      by destruct (row_get r k.2).
    + by rewrite andb_false_l.
Qed.

Lemma store_data_in_db_Some d cc rs :
  store_data_in_db (Some d) cc rs = inr (Some (store_rows cc d rs)).
Proof. reflexivity. Qed.

Lemma insert_power_data_wf d k v d' :
  db_wf d -> insert_power_data d k v = inr d' -> db_wf d'.
Proof.
  intros (Hpos & Hlt & Hinj). unfold insert_power_data.
  destruct v as [x|]; [|discriminate].
  destruct (power_data d !! k) eqn:Hk; [discriminate|]. intros [= <-].
  split_and!; simpl; [lia| |].
  - intros k' r. rewrite lookup_insert. case_decide; [intros [= <-]; simpl; lia|].
    intros Hr. specialize (Hlt _ _ Hr). lia.
  - intros k1 k2 r1 r2. rewrite !lookup_insert.
    case_decide as H1; case_decide as H2; intros E1 E2 Hid; simplify_eq; try done.
    + specialize (Hlt _ _ E2). simpl in *. lia.
    + specialize (Hlt _ _ E1). simpl in *. lia.
    + eauto.
Qed.

Lemma store_cell_wf cc r d gt : db_wf d -> db_wf (store_cell cc r d gt).
Proof.
  intros Hwf. unfold store_cell. destruct (row_has r gt); [|done].
  destruct (insert_power_data _ _ _) as [[]|d'] eqn:E; [done | done |].
  by eapply insert_power_data_wf.
Qed.

Lemma store_rows_wf cc d rs : db_wf d -> db_wf (store_rows cc d rs).
Proof.
  unfold store_rows. revert d. induction rs as [|r rs IH]; intros d Hwf; cbn [foldl];
    [exact Hwf|].
  apply IH. generalize db_generation_types as ts. intros ts.
  revert d Hwf. induction ts as [|gt ts IHt]; intros d Hwf; cbn [foldl]; [exact Hwf|].
  by apply IHt, store_cell_wf.
Qed.

Lemma store_cell_keeps cc r d gt k e :
  power_data d !! k = Some e -> power_data (store_cell cc r d gt) !! k = Some e.
Proof.
  intros Hk. unfold store_cell, insert_power_data.
  repeat case_match; simplify_eq/=; try done.
  rewrite lookup_insert. case_decide; [subst; congruence | done].
Qed.

Lemma store_rows_keeps cc d rs k e :
  power_data d !! k = Some e -> power_data (store_rows cc d rs) !! k = Some e.
Proof.
  unfold store_rows. revert d. induction rs as [|r rs IH]; intros d Hk; cbn [foldl];
    [exact Hk|].
  apply IH. generalize db_generation_types as ts. intros ts.
  revert d Hk. induction ts as [|gt ts IHt]; intros d Hk; cbn [foldl]; [exact Hk|].
  by apply IHt, store_cell_keeps.
Qed.

(** ** Properties of the store *)

(** C14. After storing a frame into the table, the value under a key is the
    value it had if any; otherwise, for this country and one of the seven
    generation types, the first value the frame reports for that local
    timestamp and type ([NaN] cells are rejected by [NOT NULL] and skipped);
    otherwise nothing. *)
Theorem store_data_in_db_content d cc rs d' k :
  store_data_in_db (Some d) cc rs = inr (Some d') ->
  stored_value d' k =
  match stored_value d k with
  | Some v => Some v
  | None =>
      if bool_decide (k.2 ∈ db_generation_types) then first_reported rs cc k else None
  end.
Proof. rewrite store_data_in_db_Some. intros [= <-]. apply stored_value_store_rows. Qed.

(** First writer wins: storing never changes an existing entry, its id
    or its value: a corrected value fetched later is silently dropped. *)
Theorem store_data_in_db_keeps d cc rs d' k e :
  store_data_in_db (Some d) cc rs = inr (Some d') ->
  power_data d !! k = Some e -> power_data d' !! k = Some e.
Proof. rewrite store_data_in_db_Some. intros [= <-]. apply store_rows_keeps. Qed.

(** Every database file reachable by runs of [update_power_data] has a
    well-formed table: ids are distinct and below the next id. *)
Theorem db_reachable_wf fetch cc st d :
  db_reachable fetch cc st -> st = Some d -> db_wf d.
Proof.
  intros Hr. revert d. induction Hr as [|st days now Hr IH]; intros d Est; [discriminate|].
  revert Est. unfold update_power_data.
  assert (Hs : forall d1, setup_database st = Some d1 -> db_wf d1).
  { destruct st as [d0|]; simpl; intros d1 [= <-]; [by apply IH|].
    split_and!; [simpl; lia | intros *; rewrite ?lookup_empty; discriminate..]. }
  destruct (fetch _ _) as [[|r rs]|]; try apply Hs.
  destruct (setup_database st) as [d1|] eqn:E1; [|by destruct st].
  rewrite store_data_in_db_Some.
  assert (db_wf (store_rows cc d1 (r :: rs))) by (apply store_rows_wf; eapply Hs; reflexivity).
  intros Est. injection Est as Est. by subst.
Qed.

(** A failed fetch (the client raised) or an empty one leaves the
    database as [setup_database] made it: the table exists, nothing else
    changes. *)
Theorem update_power_data_failed_fetch fetch st cc days now :
  fetch (now - days * day) now = None \/ fetch (now - days * day) now = Some [] ->
  update_power_data fetch st cc days now = setup_database st.
Proof. unfold update_power_data. intros [-> | ->]; reflexivity. Qed.

(** Reading the table back: [SELECT * FROM power_data] returns each
    stored entry once, with its id, key and value, in increasing id order. *)
Theorem retrieve_power_data_roundtrip d :
  db_wf d ->
  exists recs, retrieve_power_data (Some d) = inr recs /\
    StronglySorted (fun a b => a.1.1 < b.1.1) recs /\
    forall i k v, (i, k, v) ∈ recs <-> power_data d !! k = Some (i, v).
Proof.
  intros (_ & _ & Hinj). eexists. split; [reflexivity|].
  set (f := fun kv : power_key * (Z * V) => (kv.2.1, kv.1, kv.2.2)).
  assert (Hmem : forall i k v, (i, k, v) ∈ f <$> map_to_list (power_data d) <->
                               power_data d !! k = Some (i, v)).
  { intros i k v. rewrite list_elem_of_fmap. split.
    - intros [[k' [i' v']] [[= -> -> ->] Hin]]. by apply elem_of_map_to_list.
    - intros Hl. exists (k, (i, v)). split; [done|]. by apply elem_of_map_to_list. }
  assert (Hp := merge_sort_Permutation id_le (f <$> map_to_list (power_data d))).
  split.
  - apply (StronglySorted_le_inj_lt (fun r : db_record => r.1.1)).
    + apply Sorted_StronglySorted; [intros a b c; unfold id_le; lia|].
      apply Sorted_merge_sort. intros a b. unfold id_le. lia.
    + rewrite Hp. apply NoDup_fmap_2; [|apply NoDup_map_to_list].
      intros [k1 [i1 v1]] [k2 [i2 v2]]. unfold f. cbn. by intros [= -> -> ->].
    + intros [[i1 k1] v1] [[i2 k2] v2]. rewrite !Hp, !Hmem. cbn. intros H1 H2 ->.
      assert (k1 = k2) as -> by (by apply (Hinj k1 k2 (i2, v1) (i2, v2))).
      rewrite H1 in H2. by injection H2 as ->.
  - intros i k v. by rewrite Hp.
Qed.

End PowerDb.

Arguments power_db : clear implicits.
Arguments db_row : clear implicits.

(** ** The end of summer time, and witnesses *)

(** 2024-10-27T00:00:00Z: 02:00 in Luxembourg (UTC+2). One hour later the
    clocks go back and 01:00:00Z is 02:00 again (UTC+1). *)
Definition dst_end_utc : Timestamp := 1729987200.

Definition dst_rows : list (db_row nat) :=
  [DbRow dst_end_utc 7200 [("Solar"%string, Some 10%nat)];
   DbRow (dst_end_utc + 3600) 3600 [("Solar"%string, Some 20%nat)]].

(** Two distinct instants of the night summer time ends carry the same
    timestamp text, so the UNIQUE constraint drops the second reading: the
    table keeps one entry, with the first value. *)
Theorem dst_fallback_drops_second_reading :
  dst_end_utc <> dst_end_utc + 3600 /\
  local_wall_time dst_end_utc 7200 = local_wall_time (dst_end_utc + 3600) 3600 /\
  map_to_list (power_data (store_rows "LU" (PowerDb 1 ∅) dst_rows)) =
    [((local_wall_time dst_end_utc 7200, "LU", "Solar"), (1, 10%nat))]%string.
Proof. split_and!; [unfold dst_end_utc; lia | reflexivity | vm_compute; reflexivity]. Qed.

Lemma store_data_in_db_content_witness :
  stored_value (store_rows "LU" (PowerDb 1 ∅) dst_rows) (dst_end_utc + 7200, "LU", "Solar")%string =
  first_reported dst_rows "LU" (dst_end_utc + 7200, "LU", "Solar")%string.
Proof.
  rewrite (store_data_in_db_content (PowerDb 1 ∅) "LU" dst_rows _ _ eq_refl).
  reflexivity.
Defined.

Lemma store_data_in_db_keeps_witness :
  power_data (store_rows "LU"
    (PowerDb 2 {[(dst_end_utc + 7200, "LU", "Solar") := (1, 5%nat)]}) dst_rows)
    !! (dst_end_utc + 7200, "LU", "Solar")%string = Some (1, 5%nat).
Proof.
  apply (store_data_in_db_keeps
           (PowerDb 2 {[(dst_end_utc + 7200, "LU", "Solar") := (1, 5%nat)]}) "LU" dst_rows
           _ _ _ eq_refl).
  vm_compute. reflexivity.
Defined.

Lemma db_reachable_wf_witness :
  db_wf (store_rows "LU" (PowerDb 1 ∅) dst_rows).
Proof.
  apply (db_reachable_wf (fun _ _ => Some dst_rows) "LU"
           (update_power_data (fun _ _ => Some dst_rows) None "LU" 7 1730000000)).
  - apply db_reachable_update, db_reachable_init.
  - reflexivity.
Defined.

Lemma retrieve_power_data_roundtrip_witness :
  exists recs, retrieve_power_data (V:=nat) (Some (store_rows "LU" (PowerDb 1 ∅) dst_rows)) = inr recs /\
    StronglySorted (fun a b => a.1.1 < b.1.1) recs /\
    forall i k v, (i, k, v) ∈ recs <-> power_data (store_rows "LU" (PowerDb 1 ∅) dst_rows) !! k = Some (i, v).
Proof.
  apply retrieve_power_data_roundtrip, store_rows_wf. split; [cbn; lia|split].
  - intros k r. cbn. by rewrite lookup_empty.
  - intros k1 k2 r1 r2. cbn. by rewrite lookup_empty.
Defined.

Lemma update_power_data_failed_fetch_witness :
  update_power_data (V:=nat) (fun _ _ => None) None "LU" 7 1730000000 = setup_database None.
Proof. apply update_power_data_failed_fetch. left. reflexivity. Defined.
