(* ===== verification/Scraper.v ===== *)
(** * Scraper: the two document downloads of the collectors

    - [download_ilr_excel] is [src/daily_data_lux.py] lines 67-89: fetch the
      data.public.lu dataset page, take the first [<a>] whose [href] ends with
      the Excel file name, make the link absolute, fetch it and write it to
      [data/<file name>]; a missing link prints a message, an exception (a
      connection failure or [raise_for_status]) prints another.
    - [download_ilr_pdf] is [src/first_of_month_data_lux.py] lines 5-30: the
      same with the first [<a>] whose string contains "Télécharger", falling
      back to the first [<a>] whose [href] ends with [.pdf] only when there is
      no such anchor at all.

    HTTP and HTML parsing are the interface [Web]: [http_get] answers [None]
    when [requests.get] raises, and [parse_anchors] lists the [<a>] tags of a
    page in document order with their [href] attribute and their [.string]
    (both possibly absent). The files written are a [gmap] from path to
    content. Strings are byte strings: the UTF-8 bytes of the literals. *)

From stdpp Require Import gmap strings.
From Stdlib Require Import Strings.Byte.
From S2P Require Import Prelude.

Record response := Response { status_code : Z; content : list byte }.

Record anchor := Anchor { href : option string; link_string : option string }.

(** The collaborators: [requests.get] and BeautifulSoup's [<a>] tags. *)
Class Web := {
  http_get : string -> option response;
  parse_anchors : list byte -> list anchor
}.

Abbreviation files := (gmap string (list byte)).

(** What the [try] block ends with: the file written, the message that no
    link was found, or the message of the exception. *)
Inductive scrape_outcome := Saved (path : string) | NoLink | Failed.

(** [response.raise_for_status()]: HTTP 4xx and 5xx raise. *)
Definition raise_for_status (r : response) : option response :=
  if (400 <=? status_code r) && (status_code r <? 600) then None else Some r.

(** [h.endswith(suffix)]. *)
Definition ends_with (suffix s : string) : bool :=
  (String.length suffix <=? String.length s)%nat &&
  String.eqb (String.substring (String.length s - String.length suffix)
                (String.length suffix) s) suffix.

(** [pattern in s]. *)
Definition contains (pattern s : string) : bool :=
  match String.index 0 pattern s with Some _ => true | None => false end.

(** [soup.find("a", ...)] with a filter: the first anchor it accepts. *)
Definition find_anchor (accept : anchor -> bool) (anchors : list anchor) : option anchor :=
  List.find accept anchors.

(** [href=lambda h: h and h.endswith(suffix)]. *)
Definition href_ends_with (suffix : string) (a : anchor) : bool :=
  match href a with Some h => ends_with suffix h | None => false end.

(** [string=lambda s: s and pattern in s]. *)
Definition string_contains (pattern : string) (a : anchor) : bool :=
  match link_string a with Some s => contains pattern s | None => false end.

(** [if not url.startswith("http"): url = site + url]. *)
Definition absolutize (site url : string) : string :=
  if String.prefix "http" url then url else (site ++ url)%string.

Section Scraper.
Context `{!Web}.

(** Fetch a link found on a page and write it; lines 78-85 and 110-118. *)
Definition download_link (site path : string) (link : option anchor) (fs : files)
  : files * scrape_outcome :=
  match link with
  | Some a =>
      match href a with
      | Some h =>
          match http_get (absolutize site h) ≫= raise_for_status with
          | Some resp => (<[path := content resp]> fs, Saved path)
          | None => (fs, Failed)
          end
      | None => (fs, NoLink)
      end
  | None => (fs, NoLink)
  end.

(** [src/daily_data_lux.py] lines 67-89. *)
Definition public_lu_url : string :=
  "https://data.public.lu/fr/datasets/la-production-denergie-electrique-au-luxembourg-1/#/resources".
Definition excel_filename : string :=
  "ilr-energie-centrales-de-production-canton-commune-details-v2.xlsx".

Definition download_ilr_excel (fs : files) : files * scrape_outcome :=
  match http_get public_lu_url ≫= raise_for_status with
  | None => (fs, Failed)
  | Some page =>
      download_link "https://data.public.lu" ("data/" ++ excel_filename)
        (find_anchor (href_ends_with excel_filename) (parse_anchors (content page))) fs
  end.

(** [src/first_of_month_data_lux.py] lines 5-30. *)
Definition ilr_url : string := "https://www.ilr.lu/publications/liste-des-communautes-energetiques/".
Definition pdf_filename : string := "ilr-elc-pub-Communautes-Energetiques.pdf".

(** Lines 14-17: the link by its text, else (only if there is none) the first
    PDF link. *)
Definition find_pdf_link (anchors : list anchor) : option anchor :=
  match find_anchor (string_contains "Télécharger") anchors with
  | Some a => Some a
  | None => find_anchor (href_ends_with ".pdf") anchors
  end.

Definition download_ilr_pdf (fs : files) : files * scrape_outcome :=
  match http_get ilr_url ≫= raise_for_status with
  | None => (fs, Failed)
  | Some page =>
      download_link "https://www.ilr.lu" ("data/" ++ pdf_filename)
        (find_pdf_link (parse_anchors (content page))) fs
  end.

End Scraper.

(** ** Lemmas on strings *)

Lemma prefix_app (p s1 s2 : string) :
  String.prefix p s1 = true -> String.prefix p (s1 ++ s2) = true.
Proof.
  revert s1. induction p as [|c p IH]; intros s1 H.
  - by destruct (s1 ++ s2)%string.
  - destruct s1 as [|c1 s1]; simpl in *; [discriminate|].
    destruct (Ascii.ascii_dec c c1); [by apply IH | discriminate].
Qed.

Lemma substring_full (s : string) : String.substring 0 (String.length s) s = s.
Proof. induction s as [|c s IH]; simpl; [done|]. by rewrite IH. Qed.

Lemma substring_app_r (pre suf : string) :
  String.substring (String.length pre) (String.length suf) (pre ++ suf) = suf.
Proof.
  induction pre as [|c pre IH]; simpl; [apply substring_full | done].
Qed.

Lemma substring_split (s : string) n :
  (n <= String.length s)%nat ->
  (String.substring 0 n s ++ String.substring n (String.length s - n) s)%string = s.
Proof.
  revert n. induction s as [|c s IH]; intros n Hn; simpl in *.
  - destruct n; [done | lia].
  - destruct n as [|n]; simpl.
    + by rewrite substring_full.
    + exact (f_equal (String c) (IH n ltac:(lia))).
Qed.

Lemma length_append_string (s1 s2 : string) :
  String.length (s1 ++ s2) = (String.length s1 + String.length s2)%nat.
Proof. induction s1 as [|c s1 IH]; simpl; [done|]. by rewrite IH. Qed.

(** ** Properties of the scrapers *)

(** A link made absolute starts with ["http"] (the site does), and
    making it absolute again changes nothing. *)
Theorem absolutize_spec site url :
  String.prefix "http" site = true ->
  String.prefix "http" (absolutize site url) = true /\
  absolutize site (absolutize site url) = absolutize site url.
Proof.
  intros Hsite. unfold absolutize.
  destruct (String.prefix "http" url) eqn:Hu; [by rewrite Hu|].
  assert (Hp : String.prefix "http" (site ++ url) = true) by (by apply prefix_app).
  by rewrite Hp.
Qed.

(** [h.endswith(suffix)] holds exactly when [h] is some string followed
    by [suffix]. *)
Theorem ends_with_spec suffix s :
  ends_with suffix s = true <-> exists pre, s = (pre ++ suffix)%string.
Proof.
  unfold ends_with. rewrite andb_true_iff, Nat.leb_le, String.eqb_eq. split.
  - intros [Hle Hsub].
    set (n := (String.length s - String.length suffix)%nat) in *.
    exists (String.substring 0 n s).
    transitivity (String.substring 0 n s ++ String.substring n (String.length s - n) s)%string.
    { symmetry. apply substring_split. unfold n. lia. }
    f_equal. replace (String.length s - n)%nat with (String.length suffix) by (unfold n; lia).
    exact Hsub.
  - intros [pre ->]. rewrite length_append_string.
    replace (String.length pre + String.length suffix - String.length suffix)%nat
      with (String.length pre) by lia.
    split; [lia | apply substring_app_r].
Qed.

Lemma download_link_effect `{!Web} site path link fs :
  match download_link site path link fs with
  | (fs', Saved p) => p = path /\ exists c, fs' = <[p := c]> fs
  | (fs', _) => fs' = fs
  end.
Proof.
  unfold download_link. destruct link as [a|]; [|done].
  destruct (href a) as [h|]; [|done].
  destruct (http_get _ ≫= raise_for_status); [eauto | done].
Qed.

Lemma find_anchor_spec accept anchors a :
  find_anchor accept anchors = Some a -> a ∈ anchors /\ accept a = true.
Proof.
  unfold find_anchor. intros (Hin & Ha)%find_some. by rewrite list_elem_of_In.
Qed.

Lemma find_anchor_None accept anchors :
  find_anchor accept anchors = None <-> forall a, a ∈ anchors -> accept a = false.
Proof.
  unfold find_anchor. split.
  - intros Hn a Ha. apply list_elem_of_In in Ha. by eapply find_none in Hn.
  - intros Hall. destruct (List.find accept anchors) as [a|] eqn:E; [|done].
    apply find_some in E as [Hin Ha]. apply list_elem_of_In, Hall in Hin. congruence.
Qed.

(** C15. Each scraper writes only its own file, [data/<file name>], and only
    when it reports the download; a missing link or an exception leaves every
    file as it was. *)
Theorem scrapers_write_only_their_file `{!Web} fs :
  match download_ilr_excel fs with
  | (fs', Saved p) => p = ("data/" ++ excel_filename)%string /\ exists c, fs' = <[p := c]> fs
  | (fs', _) => fs' = fs
  end /\
  match download_ilr_pdf fs with
  | (fs', Saved p) => p = ("data/" ++ pdf_filename)%string /\ exists c, fs' = <[p := c]> fs
  | (fs', _) => fs' = fs
  end.
Proof.
  unfold download_ilr_excel, download_ilr_pdf. split.
  - destruct (http_get public_lu_url ≫= raise_for_status); [apply download_link_effect | done].
  - destruct (http_get ilr_url ≫= raise_for_status); [apply download_link_effect | done].
Qed.

(** C16. The PDF link is an anchor of the page: one whose string contains
    "Télécharger" or, when no anchor's string does, one whose [href] ends with
    [.pdf]; there is none exactly when the page has neither kind. *)
Theorem find_pdf_link_spec anchors :
  (forall a, find_pdf_link anchors = Some a ->
     a ∈ anchors /\
     (string_contains "Télécharger" a = true \/
      ((forall b, b ∈ anchors -> string_contains "Télécharger" b = false) /\
       href_ends_with ".pdf" a = true))) /\
  (find_pdf_link anchors = None <->
     forall b, b ∈ anchors ->
       string_contains "Télécharger" b = false /\ href_ends_with ".pdf" b = false).
Proof.
  unfold find_pdf_link. split.
  - intros a. destruct (find_anchor (string_contains _) anchors) as [a'|] eqn:E.
    + intros [= <-]. apply find_anchor_spec in E as [? ?]. auto.
    + intros (Hin & Hpdf)%find_anchor_spec. rewrite find_anchor_None in E. auto.
  - destruct (find_anchor (string_contains _) anchors) as [a'|] eqn:E.
    + split; [discriminate|]. intros Hall.
      apply find_anchor_spec in E as [Hin Ha]. destruct (Hall a' Hin). congruence.
    + rewrite find_anchor_None in E |- *. split; [intros Hp b Hb; auto|].
      intros Hall b Hb. apply Hall, Hb.
Qed.

(** When the first anchor whose string contains "Télécharger" has no
    [href], no PDF is downloaded, even if the page has [.pdf] links: the
    fallback of line 15 only runs when no such anchor exists. *)
Theorem pdf_text_link_without_href `{!Web} fs page a :
  http_get ilr_url ≫= raise_for_status = Some page ->
  find_anchor (string_contains "Télécharger") (parse_anchors (content page)) = Some a ->
  href a = None ->
  download_ilr_pdf fs = (fs, NoLink).
Proof.
  intros Hpage Ha Hh. unfold download_ilr_pdf, find_pdf_link.
  by rewrite Hpage, Ha; simpl; rewrite Hh.
Qed.

(** ** Witnesses *)

(** A page whose "Télécharger" button is a [<a>] without [href], followed by
    a plain link to the PDF. *)
Definition button_page_web : Web := {|
  http_get _ := Some (Response 200 []);
  parse_anchors _ :=
    [Anchor None (Some "Télécharger"); Anchor (Some "/files/list.pdf") (Some "PDF")]
|}.

Lemma pdf_text_link_without_href_witness :
  @download_ilr_pdf button_page_web ∅ = (∅, NoLink).
Proof.
  apply (@pdf_text_link_without_href button_page_web ∅ (Response 200 [])
           (Anchor None (Some "Télécharger"))); reflexivity.
Defined.

Lemma absolutize_spec_witness :
  String.prefix "http" (absolutize "https://www.ilr.lu" "/files/list.pdf") = true /\
  absolutize "https://www.ilr.lu" (absolutize "https://www.ilr.lu" "/files/list.pdf") =
  absolutize "https://www.ilr.lu" "/files/list.pdf".
Proof. apply absolutize_spec. reflexivity. Defined.

Lemma find_pdf_link_spec_witness :
  Anchor None (Some "Télécharger") ∈
    [Anchor None (Some "Télécharger"); Anchor (Some "/files/list.pdf") (Some "PDF")] /\
  (string_contains "Télécharger" (Anchor None (Some "Télécharger")) = true \/
   ((forall b, b ∈ [Anchor None (Some "Télécharger"); Anchor (Some "/files/list.pdf") (Some "PDF")] ->
       string_contains "Télécharger" b = false) /\
    href_ends_with ".pdf" (Anchor None (Some "Télécharger")) = true)).
Proof.
  exact (proj1 (find_pdf_link_spec
    [Anchor None (Some "Télécharger"); Anchor (Some "/files/list.pdf") (Some "PDF")])
    _ eq_refl).
Defined.
