(* ===== verification/ProductionView.v ===== *)
(** * ProductionView: the date-range filter of the dashboard

    [src/stroumauer_interface.py] lines 113-183 read the persisted series,
    offer two date pickers defaulting to the last seven days, align the
    picked dates with the index (lines 137-175) and keep the rows between them
    (lines 177-183).

    A picked date is a day number [d] (days since 1970-01-01);
    [pd.to_datetime(d)] is its midnight. When the index carries a zone
    ([index_tz = Some offset], a fixed UTC offset), [tz_localize] makes that
    midnight an instant of the zone, [d * day - offset]; when it is naive the
    index values are wall-clock readings and are compared to [d * day]
    directly. The index values are instants in the first case and wall-clock
    readings in the second; [wall_clock] turns both into wall-clock readings.

    Which zone the index ends up in depends on the offsets written in the
    file ([index_zone]): one offset gives an index in that offset, several
    (the collector writes Europe/Brussels times, +01:00 in winter and +02:00
    in summer) give an object index that lines 143-145 convert to UTC. The
    default dates of lines 127-135 are taken in the offset of the latest
    reading itself ([own_offset]), so they and the filter's zone can differ.

    The row type is a parameter: the chart's columns are not inspected. *)

From S2P Require Import Prelude Series.

Abbreviation Date := Z (only parsing).

(** [.date()] of a wall-clock reading: the day it falls in. *)
Definition date_of (wall : Timestamp) : Date := wall / day.

(** [pd.to_datetime(date)]: midnight of the day. *)
Definition midnight (d : Date) : Timestamp := d * day.

Section ProductionView.
Context {V : Type}.
Implicit Types (prod : series V) (index_tz : option Z).

(** The offset a reading was written with ([None]: a naive index, read as
    wall-clock readings, offset 0). *)
Definition own_offset (zones : option (Timestamp -> Z)) (t : Timestamp) : Z :=
  match zones with Some off => off t | None => 0 end.

(** Line 121, then lines 141-149: the zone the index ends up in. Strings
    with one offset parse to an index in that fixed offset; strings with
    several offsets (a history across daylight saving changes) parse to an
    object index of aware datetimes, which lines 143-145 convert to UTC; a
    naive or empty index stays naive. *)
Definition index_zone (zones : option (Timestamp -> Z)) prod : option Z :=
  match zones, index prod with
  | Some off, t :: ts => if forallb (fun t' => off t' =? off t) ts then Some (off t) else Some 0
  | _, _ => None
  end.

(** Lines 127-135: [now = prod_df.index.max()], the default range is the
    dates of [now - 7 days] and [now], each [.date()] taken in the offset of
    the latest reading itself ([None]: empty table, [NaT]). *)
Definition default_range (zones : option (Timestamp -> Z)) prod : option (Date * Date) :=
  match index_max prod with
  | Some now =>
      let wall := now + own_offset zones now in
      Some (date_of (wall - 7 * day), date_of wall)
  | None => None
  end.

(** Lines 137-175: a picked date as a bound comparable with the index. *)
Definition align_user_date (index_tz : option Z) (d : Date) : Timestamp :=
  match index_tz with
  | Some off => midnight d - off
  | None => midnight d
  end.

(** The wall-clock reading of an index value. *)
Definition wall_clock (index_tz : option Z) (t : Timestamp) : Timestamp :=
  match index_tz with Some off => t + off | None => t end.

(** The offset of the index's zone, 0 for a naive index. *)
Definition zone_offset (index_tz : option Z) : Z := default 0 index_tz.

(** Lines 177-183: the rows between the two bounds, or every row (with the
    warning, [true]) when the start is after the end. *)
Definition filter_production (index_tz : option Z) prod (user_start user_end : Date)
  : series V * bool :=
  let start_dt := align_user_date index_tz user_start in
  let end_dt := align_user_date index_tz user_end in
  if end_dt <? start_dt then (prod, true)
  else (List.filter (fun row => (start_dt <=? row.1) && (row.1 <=? end_dt)) prod, false).

(** ** Lemmas *)

Lemma in_day_range (user_start user_end w : Z) :
  user_start <= user_end ->
  (midnight user_start <= w <= midnight user_end <->
   (user_start <= date_of w < user_end \/ w = midnight user_end)).
Proof.
  intros Hle. unfold midnight, date_of, day.
  pose proof (Z.div_mod w 86400 ltac:(lia)). pose proof (Z.mod_pos_bound w 86400 ltac:(lia)).
  split; [intros [H1 H2] | intros [[H1 H2] | ->]]; nia.
Qed.

Lemma align_wall index_tz d t :
  (align_user_date index_tz d <= t <-> midnight d <= wall_clock index_tz t) /\
  (t <= align_user_date index_tz d <-> wall_clock index_tz t <= midnight d).
Proof. unfold align_user_date, wall_clock. destruct index_tz; lia. Qed.

Lemma filter_production_kept_iff index_tz prod user_start user_end row :
  user_start <= user_end ->
  row ∈ (filter_production index_tz prod user_start user_end).1 <->
  row ∈ prod /\ midnight user_start <= wall_clock index_tz row.1 <= midnight user_end.
Proof.
  intros Hle. unfold filter_production.
  assert (align_user_date index_tz user_start <= align_user_date index_tz user_end)
    by (unfold align_user_date, midnight, day in *; destruct index_tz; lia).
  case_zb; [lia|]. rewrite list_filter_elem, andb_true_iff, !Z.leb_le.
  destruct (align_wall index_tz user_start row.1) as [Hs _].
  destruct (align_wall index_tz user_end row.1) as [_ He].
  rewrite Hs, He. done.
Qed.

Lemma wall_clock_offset index_tz t : wall_clock index_tz t = t + zone_offset index_tz.
Proof. destruct index_tz; cbn; lia. Qed.

(** ** Properties of the view *)

(** C18. For a valid range, the dashboard shows exactly the rows whose
    wall-clock date lies from the start date up to the day before the end
    date, plus a row exactly at midnight of the end date. *)
Theorem filter_production_rows index_tz prod user_start user_end row :
  user_start <= user_end ->
  row ∈ (filter_production index_tz prod user_start user_end).1 <->
  row ∈ prod /\
  (user_start <= date_of (wall_clock index_tz row.1) < user_end \/
   wall_clock index_tz row.1 = midnight user_end).
Proof.
  intros Hle. rewrite filter_production_kept_iff by done.
  by rewrite in_day_range by done.
Qed.

(** C19. The default view (the last seven days) shows the latest reading
    exactly when its time of day, in its own offset, is at most that offset
    minus the offset of the index's zone. With one offset in the file (or a
    naive index) the difference is 0: the latest reading is hidden unless it
    falls exactly at midnight. With the collector's history, whose offsets
    change with daylight saving time, the index is compared in UTC: the
    latest reading is shown from local midnight up to 01:00 (winter) or
    02:00 (summer), and hidden the rest of the day. *)
Theorem default_view_latest zones prod now v s e :
  index_max prod = Some now -> (now, v) ∈ prod ->
  default_range zones prod = Some (s, e) ->
  Z.abs (own_offset zones now) < day -> Z.abs (zone_offset (index_zone zones prod)) < day ->
  ((now, v) ∈ (filter_production (index_zone zones prod) prod s e).1 <->
   (now + own_offset zones now) mod day <=
     own_offset zones now - zone_offset (index_zone zones prod)).
Proof.
  intros Hmax Hin Hdef Ho Hz. unfold default_range in Hdef. rewrite Hmax in Hdef.
  injection Hdef as <- <-.
  rewrite filter_production_kept_iff by (apply Z.div_le_mono; unfold day; lia).
  rewrite wall_clock_offset. cbn [fst].
  set (o := own_offset zones now) in *. set (z := zone_offset (index_zone zones prod)) in *.
  unfold midnight, date_of, day in *.
  pose proof (Z.div_mod (now + o) 86400 ltac:(lia)).
  pose proof (Z.mod_pos_bound (now + o) 86400 ltac:(lia)).
  pose proof (Z.mul_div_le (now + o - 7 * 86400) 86400 ltac:(lia)).
  split; [intros (_ & _ & ?); lia | intros ?; split_and!; [done | lia | lia]].
Qed.

(** A start date after the end date shows every row, with the warning. *)
Theorem filter_production_reversed index_tz prod user_start user_end :
  user_end < user_start ->
  filter_production index_tz prod user_start user_end = (prod, true).
Proof.
  intros Hlt. unfold filter_production.
  assert (align_user_date index_tz user_end < align_user_date index_tz user_start)
    by (unfold align_user_date, midnight, day; destruct index_tz; lia).
  by case_zb; [|lia].
Qed.

(** The rows shown are a subsequence of the table, so a strictly
    increasing series stays strictly increasing in the chart. *)
Theorem filter_production_sublist index_tz prod user_start user_end :
  (filter_production index_tz prod user_start user_end).1 `sublist_of` prod /\
  (strictly_increasing prod ->
   strictly_increasing (filter_production index_tz prod user_start user_end).1).
Proof.
  assert (Hsub : (filter_production index_tz prod user_start user_end).1 `sublist_of` prod).
  { unfold filter_production. case_zb; [done|]. apply list_filter_sublist. }
  split; [done|]. unfold strictly_increasing, index. intros Hs.
  eapply StronglySorted_sublist; [|exact Hs]. by apply fmap_sublist.
Qed.

End ProductionView.

(** ** Witnesses *)

(** Two rows: midnight of day 1, and 01:00 of day 2, the latest reading. *)
Definition sample_production : series nat := [(86400, 1%nat); (2 * 86400 + 3600, 2%nat)].

Lemma filter_production_rows_witness :
  (86400, 1%nat) ∈ (filter_production None sample_production 1 2).1 <->
  (86400, 1%nat) ∈ sample_production /\
  (1 <= date_of (wall_clock None 86400) < 2 \/ wall_clock None 86400 = midnight 2).
Proof. apply filter_production_rows. lia. Defined.

(** A history across a daylight saving change: a winter reading (+01:00)
    and the latest one at 00:30 local time in summer (+02:00), that is
    22:30 UTC the day before. *)
Definition dst_latest : Timestamp := 19900 * 86400 - 5400.

Definition dst_zones (t : Timestamp) : Z := if t <? dst_latest - 100 * 86400 then 3600 else 7200.

Definition dst_production : series nat := [(dst_latest - 200 * 86400, 1%nat); (dst_latest, 2%nat)].

Lemma default_view_latest_witness :
  (dst_latest, 2%nat) ∈ (filter_production (index_zone (Some dst_zones) dst_production)
                             dst_production 19893 19900).1.
Proof.
  apply (default_view_latest (Some dst_zones) dst_production dst_latest 2%nat 19893 19900);
    [reflexivity | by right; left | reflexivity | vm_compute; reflexivity.. |].
  vm_compute. discriminate.
Defined.

(** With one offset in the file, the same reading is hidden. *)
Example default_view_single_offset :
  default_range (Some (fun _ => 7200)) dst_production = Some (19893, 19900) /\
  (dst_latest, 2%nat) ∉ (filter_production (index_zone (Some (fun _ => 7200)) dst_production)
                             dst_production 19893 19900).1.
Proof.
  split; [reflexivity|]. intros Hin. vm_compute in Hin. inversion Hin.
Qed.

(** In the mixed file, a latest reading at 03:00 local time is hidden. *)
Example default_view_mixed_late :
  (dst_latest + 9000, 2%nat) ∉
    (filter_production (index_zone (Some dst_zones) [(0, 1%nat); (dst_latest + 9000, 2%nat)])
       [(0, 1%nat); (dst_latest + 9000, 2%nat)] 19893 19900).1.
Proof. intros Hin. vm_compute in Hin. inversion Hin. Qed.

Lemma filter_production_reversed_witness :
  filter_production None sample_production 2 1 = (sample_production, true).
Proof. apply filter_production_reversed. lia. Defined.

Lemma filter_production_sublist_witness :
  strictly_increasing (filter_production None sample_production 1 2).1.
Proof.
  apply (proj2 (filter_production_sublist None sample_production 1 2)).
  vm_compute. repeat constructor.
Defined.
