(* ===== verification/Installations.v ===== *)
(** * Installations: installed power per commune on the dashboard

    [src/stroumauer_interface.py] lines 8-88 read the ILR export, one row per
    installation group with its type ["Type d'installation"], its commune and
    its power ["Sum of Puissance installée (kW)"], and build two tables:

    - lines 12-24: the photovoltaic rows, summed per commune
      ([groupby(commune).sum()]), after checking that both columns exist
      (else [st.stop()]);
    - lines 37-46: a left join with the per-commune coordinates on the exact
      commune name (the comment of line 34 announces a case-insensitive
      merge), then [dropna] on the coordinates;
    - lines 67-88: the rows of the three named technologies plus the rows
      whose type contains "hydro" in any case (relabelled "Hydro"), summed per
      (commune, technology), joined with the coordinates the same way;
      line 90 colours them by [color_map].

    [groupby(...).sum()] is [group_sum]: a list of groups sorted by key, built
    by inserting each row's key and adding its value; a missing power ([NaN])
    adds nothing and a missing key drops the row, as pandas' [dropna=True]
    does. The keys are ordered by [compare] of the [GroupKey] class: the
    code-point order Python uses for strings (Latin-1 text, [Text.latin1]), and
    the lexicographic order for pairs. Before each map is drawn, its text
    columns are normalised (NFKD, then the ASCII characters kept, lines 48-52
    and 85-88, [Text.nfkd_ascii]); the colours of the second map are looked
    up in [color_map] (line 90) under the normalised names. Powers are integers (the kW figures
    scaled); the coordinates are of a parameter type, [None] being [NaN]. *)

From stdpp Require Import strings.
From Stdlib Require Import OrdersEx.
From S2P Require Import Prelude Text Scraper.

(** The order [groupby] sorts its keys by: a total order given by a
    three-way comparison. *)
Class GroupKey (K : Type) := {
  key_compare : K -> K -> comparison;
  key_compare_eq k1 k2 : key_compare k1 k2 = Eq <-> k1 = k2;
  key_compare_antisym k1 k2 : key_compare k2 k1 = CompOpp (key_compare k1 k2);
  key_compare_trans k1 k2 k3 :
    key_compare k1 k2 = Lt -> key_compare k2 k3 = Lt -> key_compare k1 k3 = Lt
}.

(** Python compares strings by code point; [String.compare] compares the
    characters' codes, which for Latin-1 text are the code points. *)
#[export] Instance string_group_key : GroupKey string.
Proof.
  refine {| key_compare := String.compare |}.
  - intros s1 s2. split; [apply String.compare_eq_iff|intros <-].
    induction s1 as [|a s1 IH]; [done|]. cbn. unfold Ascii.compare.
    by rewrite N.compare_refl.
  - intros s1 s2. apply String.compare_antisym.
  - intros s1 s2 s3. apply (StrictOrder_Transitive (R:=String_as_OT.lt)).
Defined.

(** [groupby([a, b])] sorts the pairs lexicographically. *)
Definition pair_compare {A B} `{!GroupKey A, !GroupKey B} (p q : A * B) : comparison :=
  match key_compare p.1 q.1 with
  | Eq => key_compare p.2 q.2
  | c => c
  end.

#[export] Instance pair_group_key {A B} `{!GroupKey A, !GroupKey B} : GroupKey (A * B).
Proof.
  refine {| key_compare := pair_compare |}; unfold pair_compare.
  - intros [a1 b1] [a2 b2]; cbn. split; [|intros [= <- <-]].
    + destruct (key_compare a1 a2) eqn:Ha; try done.
      intros Hb%key_compare_eq. apply key_compare_eq in Ha. by subst.
    + by rewrite !(proj2 (key_compare_eq _ _) eq_refl).
  - intros [a1 b1] [a2 b2]; cbn. rewrite (key_compare_antisym a1 a2).
    destruct (key_compare a1 a2); cbn; [apply key_compare_antisym|done|done].
  - intros [a1 b1] [a2 b2] [a3 b3]; cbn.
    destruct (key_compare a1 a2) eqn:H12, (key_compare a2 a3) eqn:H23;
      intros E1 E2; try discriminate;
      try apply key_compare_eq in H12; try apply key_compare_eq in H23; subst.
    + rewrite (proj2 (key_compare_eq _ _) eq_refl). by eapply key_compare_trans.
    + by rewrite H23.
    + by rewrite H12.
    + by rewrite (key_compare_trans _ _ _ H12 H23).
Defined.

Record installation := Installation {
  inst_type : option string;
  inst_commune : option string;
  inst_power : option Z
}.

Definition pv_type : string := Eval vm_compute in latin1 "Installation photovoltaïque".
Definition type_col : string := "Type d'installation".
Definition commune_col : string := "Commune".
Definition power_col : string := Eval vm_compute in latin1 "Sum of Puissance installée (kW)".

Section Groups.
Context {K : Type} `{!GroupKey K}.

(** Add a value to the group of [k], creating the group in key order. *)
Fixpoint add_to_group (k : K) (v : Z) (gs : list (K * Z)) : list (K * Z) :=
  match gs with
  | [] => [(k, v)]
  | (k', s) :: gs' =>
      match key_compare k k' with
      | Lt => (k, v) :: gs
      | Eq => (k', s + v) :: gs'
      | Gt => (k', s) :: add_to_group k v gs'
      end
  end.

(** [groupby(key).sum()] over rows given as (key, value). *)
Definition group_sum (rows : list (option K * option Z)) : list (K * Z) :=
  foldl (fun gs r => match r.1 with
                     | Some k => add_to_group k (default 0 r.2) gs
                     | None => gs
                     end) [] rows.

(** The key equality [groupby] uses. *)
Definition key_eqb (k1 k2 : K) : bool :=
  match key_compare k1 k2 with Eq => true | _ => false end.

(** What a row adds to the group of [k]: its value, [NaN] counting as 0. *)
Definition key_value (k : K) (r : option K * option Z) : Z :=
  match r.1 with
  | Some k' => if key_eqb k k' then default 0 r.2 else 0
  | None => 0
  end.

(** The total of a key over the rows: what its group should hold. *)
Definition key_total (rows : list (option K * option Z)) (k : K) : Z :=
  foldr (fun r acc => key_value k r + acc) 0 rows.

(** Whether a row has the key, and whether some row does. *)
Definition key_hit (k : K) (r : option K * option Z) : bool :=
  match r.1 with Some k' => key_eqb k k' | None => false end.

Definition key_present (rows : list (option K * option Z)) (k : K) : bool :=
  existsb (key_hit k) rows.

(** The group of a key in the result. *)
Fixpoint group_lookup (k : K) (gs : list (K * Z)) : option Z :=
  match gs with
  | [] => None
  | (k', s) :: gs' => if key_eqb k k' then Some s else group_lookup k gs'
  end.

(** The groups come out sorted by key, each key once. *)
Definition groups_sorted (gs : list (K * Z)) : Prop :=
  StronglySorted (fun p q => key_compare p.1 q.1 = Lt) gs.

End Groups.

(** ** The photovoltaic table (lines 12-47) *)

(** [df[col] == t]: [NaN] equals nothing. *)
Definition is_type (t : string) (r : installation) : bool :=
  match inst_type r with Some t' => String.eqb t' t | None => false end.

(** Line 14. *)
Definition pv_rows (rows : list installation) : list installation :=
  List.filter (is_type pv_type) rows.

(** The (key, value) rows [groupby(commune)[power]] sees. *)
Definition commune_power (r : installation) : option string * option Z :=
  (inst_commune r, inst_power r).

(** How the page stops: [KeyError] when the type column is missing (line
    14), [st.stop()] when the commune or power column is (lines 23-25). *)
Inductive view_error := ViewKeyError (label : string) | ViewStop.

(** Lines 12-25 over the sheet's columns and rows. *)
Definition installed_per_commune (cols : list string) (rows : list installation)
  : view_error + list (string * Z) :=
  if negb (bool_decide (type_col ∈ cols)) then inl (ViewKeyError type_col)
  else if bool_decide (commune_col ∈ cols) && bool_decide (power_col ∈ cols)
  then inr (group_sum (map commune_power (pv_rows rows)))
  else inl ViewStop.

Section Merge.
Context {L C : Type}.

(** Lines 37-42: [pd.merge(left, coords, on=commune, how='left')]: each left
    row, in order, with every coordinate row of the same commune name (exact
    string equality), or with [NaN] coordinates when there is none. *)
Definition merge_left (key : L -> string) (left : list L)
    (coords : list (string * (option C * option C))) : list (L * option C * option C) :=
  flat_map (fun l =>
    match List.filter (fun c => String.eqb c.1 (key l)) coords with
    | [] => [(l, None, None)]
    | ms => map (fun c => (l, c.2.1, c.2.2)) ms
    end) left.

(** Line 46: [dropna(subset=['Latitude', 'Longitude'])]. *)
Definition dropna_coords (rows : list (L * option C * option C)) : list (L * option C * option C) :=
  List.filter (fun r => bool_decide (is_Some r.1.2) && bool_decide (is_Some r.2)) rows.

End Merge.

(** Lines 48-52: the text column of the first map's table, the commune,
    normalised; the power and the coordinates are numbers. *)
Definition normalize_commune_row {C} (r : (string * Z) * option C * option C)
  : (string * Z) * option C * option C :=
  ((nfkd_ascii r.1.1.1, r.1.1.2), r.1.2, r.2).

(** Lines 12-52: the table of the first map. *)
Definition commune_map {C} (cols : list string) (rows : list installation)
    (coords : list (string * (option C * option C)))
  : view_error + list ((string * Z) * option C * option C) :=
  match installed_per_commune cols rows with
  | inl e => inl e
  | inr g => inr (map normalize_commune_row (dropna_coords (merge_left fst g coords)))
  end.

(** ** The technology table (lines 59-97) *)

(** Lines 59-64: [energy_types] and the colour of each. *)
Definition energy_colours : list (string * string) :=
  [(pv_type, "rgb(255, 215, 0)"); ("Eolienne", "rgb(135, 206, 235)");
   ("Biomasse solide", "rgb(144, 238, 144)"); ("Hydro", "rgb(31, 119, 180)")].

(** Line 67: [list(energy_types.keys())]. *)
Definition energy_types : list string := map fst energy_colours.

(** Line 71: [[t for t in all_types if t != 'Hydro']]. *)
Definition other_types : list string :=
  List.filter (fun t => negb (String.eqb t "Hydro")) energy_types.

(** ASCII case folding; for the pattern "hydro" it is what Python's
    [re.IGNORECASE] does, no non-ASCII letter folding to h, y, d, r or o. *)
Definition lower_ascii (c : Ascii.ascii) : Ascii.ascii :=
  let n := Ascii.nat_of_ascii c in
  if (65 <=? n)%nat && (n <=? 90)%nat then Ascii.ascii_of_nat (n + 32) else c.

Fixpoint lower (s : string) : string :=
  match s with
  | EmptyString => EmptyString
  | String c s' => String (lower_ascii c) (lower s')
  end.

(** Line 69: [str.contains('Hydro', case=False, na=False)]. *)
Definition is_hydro (r : installation) : bool :=
  match inst_type r with Some t => contains "hydro" (lower t) | None => false end.

(** Lines 69-72. *)
Definition df_hydro (rows : list installation) : list installation :=
  map (fun r => Installation (Some "Hydro") (inst_commune r) (inst_power r))
      (List.filter is_hydro rows).

Definition df_other (rows : list installation) : list installation :=
  List.filter (fun r => match inst_type r with
                        | Some t => bool_decide (t ∈ other_types)
                        | None => false
                        end) rows.

Definition df_combined (rows : list installation) : list installation :=
  df_other rows ++ df_hydro rows.

(** The (key, value) rows [groupby([commune, type])[power]] sees. *)
Definition commune_type_power (r : installation) : option (string * string) * option Z :=
  (match inst_commune r, inst_type r with Some c, Some t => Some (c, t) | _, _ => None end,
   inst_power r).

(** Line 75. *)
Definition combined_grouped (rows : list installation) : list ((string * string) * Z) :=
  group_sum (map commune_type_power (df_combined rows)).

(** Lines 85-88: the two text columns of the second map's table, commune
    and technology, normalised. *)
Definition normalize_tech_row {C} (r : ((string * string) * Z) * option C * option C)
  : ((string * string) * Z) * option C * option C :=
  (((nfkd_ascii r.1.1.1.1, nfkd_ascii r.1.1.1.2), r.1.1.2), r.1.2, r.2).

(** Lines 75-88: the table of the second map. *)
Definition technology_map {C} (rows : list installation)
    (coords : list (string * (option C * option C)))
  : list (((string * string) * Z) * option C * option C) :=
  map normalize_tech_row (dropna_coords (merge_left (fun l => l.1.1) (combined_grouped rows) coords)).

(** Lines 90 and 97: [color_discrete_map=color_map] gives a technology its
    colour when its name is a key of [color_map]; any other gets one of
    plotly's default sequence ([None]). *)
Definition color_map_lookup (t : string) : option string :=
  snd <$> List.find (fun kv => String.eqb kv.1 t) energy_colours.

(** The technology a row is drawn under: its type when it is one of the named
    ones, "Hydro" when its type mentions hydro. *)
Definition technology (r : installation) : option string :=
  match inst_type r with
  | Some t => if bool_decide (t ∈ other_types) then Some t
              else if is_hydro r then Some "Hydro" else None
  | None => None
  end.

(** ** The bubble plot (lines 349-353) *)

(** Line 350: [df['Sum of Puissance installée (kW)'].dropna()], [df] being the
    photovoltaic rows kept at line 14: one bubble per row with a power. *)
Definition pv_sizes (rows : list installation) : list Z := omap inst_power (pv_rows rows).

(** ** Specifications of the tables *)

(** The first map: the photovoltaic rows of a commune, and their total. *)
Definition pv_of (c : string) (r : installation) : bool :=
  is_type pv_type r && bool_decide (inst_commune r = Some c).

Definition pv_total (rows : list installation) (c : string) : Z :=
  foldr (fun r acc => (if pv_of c r then default 0 (inst_power r) else 0) + acc) 0 rows.

(** The second map: each row drawn once, under its technology. *)
Definition tech_rows (rows : list installation) : list installation :=
  omap (fun r => t ← technology r; Some (Installation (Some t) (inst_commune r) (inst_power r))) rows.

Definition tech_of (c t : string) (r : installation) : bool :=
  bool_decide (inst_commune r = Some c) && bool_decide (technology r = Some t).

Definition tech_total (rows : list installation) (c t : string) : Z :=
  foldr (fun r acc => (if tech_of c t r then default 0 (inst_power r) else 0) + acc) 0 rows.

(** ** Lemmas on [group_sum] *)

Section GroupLemmas.
Context {K : Type} `{!GroupKey K}.
Implicit Types (k : K) (gs : list (K * Z)) (rows : list (option K * option Z)).

Lemma key_compare_refl k : key_compare k k = Eq.
Proof. by apply key_compare_eq. Qed.

Lemma key_eqb_true k1 k2 : key_eqb k1 k2 = true <-> k1 = k2.
Proof.
  unfold key_eqb. rewrite <- key_compare_eq.
  by destruct (key_compare k1 k2).
Qed.

Lemma key_eqb_Lt k1 k2 : key_compare k1 k2 = Lt -> key_eqb k1 k2 = false.
Proof. unfold key_eqb. by intros ->. Qed.

Lemma key_compare_Gt_Lt k1 k2 : key_compare k1 k2 = Gt -> key_compare k2 k1 = Lt.
Proof. rewrite (key_compare_antisym k1 k2). by intros ->. Qed.

Lemma group_lookup_below k gs :
  Forall (fun p => key_compare k p.1 = Lt) gs -> group_lookup k gs = None.
Proof.
  induction 1 as [|[k' s] gs Hlt _ IH]; [done|]. cbn. by rewrite key_eqb_Lt.
Qed.

Lemma add_to_group_Forall (Q : K -> Prop) k v gs :
  Forall (fun p => Q p.1) gs -> Q k -> Forall (fun p => Q p.1) (add_to_group k v gs).
Proof.
  induction 1 as [|[k' s] gs Hk' Hgs IH]; intros Hk; cbn; [by repeat constructor|].
  destruct (key_compare k k'); repeat constructor; auto.
Qed.

Lemma sorted_head_below k k' s gs :
  key_compare k k' = Lt -> groups_sorted ((k', s) :: gs) ->
  Forall (fun p => key_compare k p.1 = Lt) ((k', s) :: gs).
Proof.
  intros Hlt Hs. apply StronglySorted_inv in Hs as [_ Hall]. constructor; [done|].
  eapply Forall_impl; [exact Hall|]. intros p Hp. by eapply key_compare_trans.
Qed.

Lemma add_to_group_sorted k v gs : groups_sorted gs -> groups_sorted (add_to_group k v gs).
Proof.
  induction gs as [|[k' s] gs IH]; intros Hs; cbn; [by repeat constructor|].
  destruct (key_compare k k') eqn:E.
  - apply key_compare_eq in E as ->. apply StronglySorted_inv in Hs as [Hs Hall].
    by constructor.
  - constructor; [done|]. by apply sorted_head_below.
  - apply StronglySorted_inv in Hs as [Hs Hall]. constructor; [by apply IH|].
    apply (add_to_group_Forall (fun j => key_compare k' j = Lt)); [done|].
    by apply key_compare_Gt_Lt.
Qed.

Lemma add_to_group_lookup k v gs j :
  groups_sorted gs ->
  group_lookup j (add_to_group k v gs) =
  if key_eqb j k then Some (default 0 (group_lookup j gs) + v) else group_lookup j gs.
Proof.
  induction gs as [|[k' s] gs IH]; intros Hs; cbn [add_to_group].
  { cbn. by destruct (key_eqb j k). }
  destruct (key_compare k k') eqn:E.
  - apply key_compare_eq in E as ->. cbn. by destruct (key_eqb j k').
  - destruct (key_eqb j k) eqn:Ej; [|cbn; by rewrite Ej].
    apply key_eqb_true in Ej as ->.
    rewrite (group_lookup_below k ((k', s) :: gs)); [|by apply sorted_head_below].
    cbn. by rewrite (proj2 (key_eqb_true k k) eq_refl).
  - cbn [group_lookup]. apply StronglySorted_inv in Hs as [Hs _]. rewrite IH by done.
    destruct (key_eqb j k') eqn:Ej'; [|done].
    destruct (key_eqb j k) eqn:Ej; [|done].
    apply key_eqb_true in Ej as ->. apply key_eqb_true in Ej' as ->.
    by rewrite key_compare_refl in E.
Qed.

Lemma group_sum_snoc rows r :
  group_sum (rows ++ [r]) =
  match r.1 with Some k => add_to_group k (default 0 r.2) (group_sum rows) | None => group_sum rows end.
Proof. unfold group_sum. by rewrite foldl_app. Qed.

Lemma key_total_app rows1 rows2 k :
  key_total (rows1 ++ rows2) k = key_total rows1 k + key_total rows2 k.
Proof.
  induction rows1 as [|r rows1 IH]; cbn; [done|]. fold (key_total (rows1 ++ rows2) k).
  rewrite IH. fold (key_total rows1 k). lia.
Qed.

Lemma key_total_absent rows k : key_present rows k = false -> key_total rows k = 0.
Proof.
  induction rows as [|[[k'|] v] rows IH]; cbn; [done| |apply IH].
  intros [Hk Hr]%orb_false_iff. unfold key_value. cbn. unfold key_hit in Hk. cbn in Hk.
  rewrite Hk. exact (IH Hr).
Qed.

Lemma group_sum_lookup_sorted rows :
  groups_sorted (group_sum rows) /\
  forall k, group_lookup k (group_sum rows) =
            if key_present rows k then Some (key_total rows k) else None.
Proof.
  induction rows as [|r rows IH] using rev_ind; [split; [constructor|done]|].
  destruct IH as [Hs Hl]. rewrite group_sum_snoc. split.
  { destruct r as [[k|] v]; [by apply add_to_group_sorted|done]. }
  intros j. unfold key_present. rewrite existsb_app. fold (key_present rows j).
  rewrite key_total_app. destruct r as [[k|] v]; cbn.
  - rewrite add_to_group_lookup, Hl by done.
    destruct (key_eqb j k) eqn:E, (key_present rows j) eqn:P; cbn; rewrite ?E;
      rewrite ?key_total_absent by done; f_equal; lia.
  - rewrite Hl. destruct (key_present rows j); cbn; [f_equal; lia|done].
Qed.

Lemma key_eqb_refl k : key_eqb k k = true.
Proof. by apply key_eqb_true. Qed.

Lemma groups_sorted_tail_None k s gs :
  groups_sorted ((k, s) :: gs) -> groups_sorted gs /\ group_lookup k gs = None.
Proof.
  intros [Hs Hall]%StronglySorted_inv. split; [done|]. by apply group_lookup_below.
Qed.

(** A sorted list of groups is determined by its lookups. *)
Lemma groups_ext gs1 gs2 :
  groups_sorted gs1 -> groups_sorted gs2 ->
  (forall k, group_lookup k gs1 = group_lookup k gs2) -> gs1 = gs2.
Proof.
  revert gs2; induction gs1 as [|[k1 s1] gs1 IH];
    intros [|[k2 s2] gs2] H1 H2 Hl; [done| | |].
  - specialize (Hl k2). cbn in Hl. by rewrite key_eqb_refl in Hl.
  - specialize (Hl k1). cbn in Hl. by rewrite key_eqb_refl in Hl.
  - destruct (key_compare k1 k2) eqn:E.
    + apply key_compare_eq in E as ->.
      pose proof (Hl k2) as Hk. cbn in Hk. rewrite key_eqb_refl in Hk. injection Hk as ->.
      apply groups_sorted_tail_None in H1 as [H1 N1], H2 as [H2 N2].
      f_equal. apply IH; [done|done|]. intros k. specialize (Hl k). cbn in Hl.
      destruct (key_eqb k k2) eqn:Ek; [|done]. apply key_eqb_true in Ek as ->. by rewrite N1, N2.
    + specialize (Hl k1). rewrite (group_lookup_below k1 ((k2, s2) :: gs2)) in Hl;
        [|by apply sorted_head_below]. cbn in Hl. by rewrite key_eqb_refl in Hl.
    + apply key_compare_Gt_Lt in E. specialize (Hl k2).
      rewrite (group_lookup_below k2 ((k1, s1) :: gs1)) in Hl;
        [|by apply sorted_head_below]. cbn in Hl. by rewrite key_eqb_refl in Hl.
Qed.

(** Sums and membership do not depend on the order of the rows. *)
#[export] Instance key_total_perm : Proper ((≡ₚ) ==> eq ==> eq) (@key_total K _).
Proof.
  intros rows1 rows2 Hp k ? <-. unfold key_total.
  induction Hp; cbn; lia.
Qed.

#[export] Instance key_present_perm : Proper ((≡ₚ) ==> eq ==> eq) (@key_present K _).
Proof.
  intros rows1 rows2 Hp k ? <-. unfold key_present.
  induction Hp as [| |x y l|]; cbn; try congruence.
  by destruct (key_hit k y), (key_hit k x).
Qed.

(** [groupby(...).sum()] does not depend on the order of the rows. *)
Lemma group_sum_perm rows1 rows2 : rows1 ≡ₚ rows2 -> group_sum rows1 = group_sum rows2.
Proof.
  intros Hp. destruct (group_sum_lookup_sorted rows1) as [S1 L1],
                      (group_sum_lookup_sorted rows2) as [S2 L2].
  apply groups_ext; [done|done|]. intros k. rewrite L1, L2.
  by rewrite (key_present_perm _ _ Hp k k eq_refl), (key_total_perm _ _ Hp k k eq_refl).
Qed.

(** In sorted groups, membership is lookup. *)
Lemma group_lookup_elem gs k v : groups_sorted gs -> (k, v) ∈ gs <-> group_lookup k gs = Some v.
Proof.
  induction gs as [|[k' s] gs IH]; intros Hs; cbn; [split; [by intros []%elem_of_nil|done]|].
  apply groups_sorted_tail_None in Hs as [Hs N]. rewrite elem_of_cons, IH by done.
  destruct (key_eqb k k') eqn:E.
  - apply key_eqb_true in E as ->. rewrite N. split; [by intros [[= ->]|]|by intros [= ->]; left].
  - split; [|by right]. intros [[= -> ->]|?]; [|done]. by rewrite key_eqb_refl in E.
Qed.

(** A property of every row's key holds of every group's key. *)
Lemma group_sum_Forall (Q : K -> Prop) rows :
  Forall (fun r => forall k, r.1 = Some k -> Q k) rows -> Forall (fun p => Q p.1) (group_sum rows).
Proof.
  induction rows as [|r rows IH] using rev_ind; [constructor|].
  intros [Hrows [Hr _]%Forall_cons]%Forall_app. rewrite group_sum_snoc.
  destruct r as [[k|] v]; [|by apply IH]. apply add_to_group_Forall; [by apply IH|by apply Hr].
Qed.

(** The total of the groups whose key satisfies [P], and the same total over
    the rows. *)
Definition sum_keys (P : K -> bool) (gs : list (K * Z)) : Z :=
  foldr (fun g acc => (if P g.1 then g.2 else 0) + acc) 0 gs.

Definition sum_rows (P : K -> bool) (rows : list (option K * option Z)) : Z :=
  foldr (fun r acc => match r.1 with
                      | Some k => if P k then default 0 r.2 else 0
                      | None => 0
                      end + acc) 0 rows.

Lemma add_to_group_sum_keys P k v gs :
  sum_keys P (add_to_group k v gs) = sum_keys P gs + (if P k then v else 0).
Proof.
  induction gs as [|[k' s] gs IH]; cbn; [destruct (P k); lia|].
  destruct (key_compare k k') eqn:E; cbn.
  - apply key_compare_eq in E as ->. destruct (P k'); lia.
  - destruct (P k), (P k'); lia.
  - fold (sum_keys P gs). fold (sum_keys P (add_to_group k v gs)). rewrite IH. lia.
Qed.

Lemma sum_rows_app P rows1 rows2 :
  sum_rows P (rows1 ++ rows2) = sum_rows P rows1 + sum_rows P rows2.
Proof.
  induction rows1 as [|r rows1 IH]; cbn; [done|]. fold (sum_rows P (rows1 ++ rows2)).
  rewrite IH. fold (sum_rows P rows1). lia.
Qed.

(** Grouping keeps every total. *)
Lemma group_sum_sum_keys P rows : sum_keys P (group_sum rows) = sum_rows P rows.
Proof.
  induction rows as [|r rows IH] using rev_ind; [done|].
  rewrite group_sum_snoc, sum_rows_app, <- IH.
  destruct r as [[k|] v]; cbn [fst snd].
  - rewrite add_to_group_sum_keys. unfold sum_rows. cbn. destruct (P k); lia.
  - unfold sum_rows. cbn. lia.
Qed.

End GroupLemmas.

(** ** Lemmas on the tables *)

Lemma key_eqb_bool_decide {K} `{!GroupKey K, !EqDecision K} (k k' : K) :
  key_eqb k k' = bool_decide (k = k').
Proof.
  destruct (key_eqb k k') eqn:E.
  - apply key_eqb_true in E. by rewrite bool_decide_true.
  - rewrite bool_decide_false; [done|]. intros ->. by rewrite key_eqb_refl in E.
Qed.

Lemma pv_key_value c r :
  key_value c (commune_power r) = if bool_decide (inst_commune r = Some c) then default 0 (inst_power r) else 0.
Proof.
  unfold key_value, commune_power. cbn. destruct (inst_commune r) as [c'|]; [|done].
  rewrite key_eqb_bool_decide. by repeat case_bool_decide; simplify_eq.
Qed.

Lemma key_total_cons {K} `{!GroupKey K} r rows (k : K) :
  key_total (r :: rows) k = key_value k r + key_total rows k.
Proof. done. Qed.

Lemma pv_key_total rows c : key_total (map commune_power (pv_rows rows)) c = pv_total rows c.
Proof.
  induction rows as [|r rows IH]; [done|]. unfold pv_rows in *.
  change (pv_total (r :: rows) c) with
    ((if pv_of c r then default 0 (inst_power r) else 0) + pv_total rows c).
  unfold pv_of. cbn [List.filter]. destruct (is_type pv_type r); cbn [map andb]; [|lia].
  by rewrite key_total_cons, IH, pv_key_value.
Qed.

Lemma pv_key_present rows c :
  key_present (map commune_power (pv_rows rows)) c = existsb (pv_of c) rows.
Proof.
  induction rows as [|r rows IH]; [done|]. unfold pv_rows, pv_of in *. cbn.
  destruct (is_type pv_type r); cbn; [|exact IH].
  rewrite <- IH. f_equal. unfold key_hit, commune_power. cbn.
  destruct (inst_commune r) as [c'|]; [|done].
  rewrite key_eqb_bool_decide. by repeat case_bool_decide; simplify_eq.
Qed.

Lemma dropna_coords_elem {L C} (rows : list (L * option C * option C)) l la lo :
  (l, la, lo) ∈ dropna_coords rows <-> (l, la, lo) ∈ rows /\ is_Some la /\ is_Some lo.
Proof.
  unfold dropna_coords. rewrite list_filter_elem, andb_true_iff, !bool_decide_eq_true.
  naive_solver.
Qed.

Section MergeLemmas.
Context {L C : Type} (key : L -> string).

Lemma merge_one_elem a (coords : list (string * (option C * option C))) l la lo :
  is_Some la ->
  (l, la, lo) ∈ (match List.filter (fun c => String.eqb c.1 (key a)) coords with
                 | [] => [(a, None, None)]
                 | ms => map (fun c => (a, c.2.1, c.2.2)) ms
                 end) <-> l = a /\ (key a, (la, lo)) ∈ coords.
Proof.
  intros Hla.
  assert (Hm : (l, la, lo) ∈ map (fun c => (a, c.2.1, c.2.2))
                 (List.filter (fun c => String.eqb c.1 (key a)) coords)
               <-> l = a /\ (key a, (la, lo)) ∈ coords).
  { rewrite list_elem_of_fmap. split.
    - intros [[k [x y]] [[= -> -> ->] Hin]]. apply list_filter_elem in Hin as [Hin Hk].
      apply String.eqb_eq in Hk. cbn in Hk. by subst.
    - intros [-> Hin]. exists (key a, (la, lo)). split; [done|].
      apply list_filter_elem. split; [done|]. apply String.eqb_refl. }
  destruct (List.filter _ coords) eqn:F; [|exact Hm].
  rewrite <- Hm. split; [|by intros []%elem_of_nil].
  intros [= _ -> _]%list_elem_of_singleton. by destruct Hla.
Qed.

Lemma merge_left_elem (left : list L) (coords : list (string * (option C * option C))) l la lo :
  is_Some la ->
  (l, la, lo) ∈ merge_left key left coords <-> l ∈ left /\ (key l, (la, lo)) ∈ coords.
Proof.
  intros Hla. unfold merge_left. induction left as [|a left IH]; cbn.
  { split; [by intros []%elem_of_nil|]. by intros [[]%elem_of_nil _]. }
  rewrite elem_of_app, IH, merge_one_elem, elem_of_cons by done.
  split; [intros [[-> H]|[H1 H2]]; by auto | intros [[->|H1] H2]; by auto].
Qed.

End MergeLemmas.

(** ** Lemmas on the technology table *)

Lemma other_types_not_hydro t : t ∈ other_types -> contains "hydro" (lower t) = false.
Proof.
  assert (Hall : Forall (fun t => contains "hydro" (lower t) = false) other_types)
    by (vm_compute; repeat constructor).
  rewrite Forall_forall in Hall. apply Hall.
Qed.

(** The concatenation of lines 68-71 holds each row at most once, under its
    technology: no named type mentions hydro. *)
Lemma df_combined_perm rows : df_combined rows ≡ₚ tech_rows rows.
Proof.
  unfold df_combined. induction rows as [|[[ty|] cm p] rows IH]; [done| |exact IH].
  unfold df_other, df_hydro, tech_rows, technology, is_hydro in *.
  cbn [List.filter map omap inst_type inst_commune inst_power].
  case_bool_decide as Hty.
  - rewrite (other_types_not_hydro ty Hty). cbn -[other_types].
    rewrite bool_decide_true by done. by constructor.
  - cbn -[other_types]. rewrite bool_decide_false by done.
    destruct (contains "hydro" (lower ty)); cbn -[other_types]; [|exact IH].
    rewrite <- Permutation_middle. by constructor.
Qed.

Lemma tech_key_value c t r t' :
  technology r = Some t' ->
  key_value (c, t) (commune_type_power (Installation (Some t') (inst_commune r) (inst_power r))) =
  if tech_of c t r then default 0 (inst_power r) else 0.
Proof.
  intros T. unfold tech_of, key_value, commune_type_power. rewrite T. cbn.
  destruct (inst_commune r) as [c'|]; cbn; rewrite ?key_eqb_bool_decide;
    repeat case_bool_decide; simplify_eq; done.
Qed.

Lemma tech_key_total rows c t :
  key_total (map commune_type_power (tech_rows rows)) (c, t) = tech_total rows c t.
Proof.
  induction rows as [|r rows IH]; [done|].
  change (tech_total (r :: rows) c t) with
    ((if tech_of c t r then default 0 (inst_power r) else 0) + tech_total rows c t).
  unfold tech_rows in *. cbn [omap list_omap]. destruct (technology r) as [t'|] eqn:T.
  - cbn [mbind option_bind map]. by rewrite key_total_cons, IH, (tech_key_value c t r t').
  - cbn [mbind option_bind]. unfold tech_of. rewrite T, (bool_decide_false (None = Some t)),
      andb_false_r by done. rewrite IH. lia.
Qed.

Lemma tech_key_present rows c t :
  key_present (map commune_type_power (tech_rows rows)) (c, t) = existsb (tech_of c t) rows.
Proof.
  induction rows as [|r rows IH]; [done|]. unfold tech_rows in *. cbn [omap list_omap existsb].
  unfold tech_of at 1. destruct (technology r) as [t'|] eqn:T.
  - cbn [mbind option_bind map]. unfold key_present in *. cbn [existsb].
    f_equal; [|exact IH].
    unfold key_hit, commune_type_power. cbn. destruct (inst_commune r) as [c'|]; cbn;
      rewrite ?key_eqb_bool_decide; repeat case_bool_decide; simplify_eq; done.
  - cbn [mbind option_bind]. rewrite (bool_decide_false (None = Some t)) by done.
    rewrite andb_false_r. exact IH.
Qed.

Lemma installed_per_commune_inr cols rows g :
  installed_per_commune cols rows = inr g -> g = group_sum (map commune_power (pv_rows rows)).
Proof.
  unfold installed_per_commune.
  destruct (negb _); [done|]. destruct (_ && _); [by intros [= <-]|done].
Qed.

Lemma pv_groups rows :
  groups_sorted (group_sum (map commune_power (pv_rows rows))) /\
  forall c, group_lookup c (group_sum (map commune_power (pv_rows rows))) =
            if existsb (pv_of c) rows then Some (pv_total rows c) else None.
Proof.
  destruct (group_sum_lookup_sorted (map commune_power (pv_rows rows))) as [Hs Hl].
  split; [done|]. intros c. by rewrite Hl, pv_key_present, pv_key_total.
Qed.

Lemma tech_groups rows :
  groups_sorted (combined_grouped rows) /\
  forall c t, group_lookup (c, t) (combined_grouped rows) =
              if existsb (tech_of c t) rows then Some (tech_total rows c t) else None.
Proof.
  unfold combined_grouped.
  rewrite (group_sum_perm _ _ (fmap_Permutation commune_type_power _ _ (df_combined_perm rows))).
  destruct (group_sum_lookup_sorted (map commune_type_power (tech_rows rows))) as [Hs Hl].
  split; [done|]. intros c t. by rewrite Hl, tech_key_present, tech_key_total.
Qed.

(** ** Properties of the installations view *)

(** C20. When the sheet has the three columns, the first map's table lists
    each commune that has a photovoltaic row once, in sorted order, with the
    total power of its photovoltaic rows (a missing power counting as 0). *)
Theorem installed_per_commune_totals cols rows :
  type_col ∈ cols -> commune_col ∈ cols -> power_col ∈ cols ->
  exists g, installed_per_commune cols rows = inr g /\ groups_sorted g /\
    forall c, group_lookup c g = if existsb (pv_of c) rows then Some (pv_total rows c) else None.
Proof.
  intros Ht Hc Hp. unfold installed_per_commune.
  rewrite !bool_decide_true by done. cbn. eexists; split; [done|]. apply pv_groups.
Qed.

(** C21. Without the type column the page fails with a [KeyError] at the
    filter; with it but without the commune or the power column, it stops. *)
Theorem installed_per_commune_stops cols rows :
  (type_col ∉ cols -> installed_per_commune cols rows = inl (ViewKeyError type_col)) /\
  (type_col ∈ cols -> commune_col ∉ cols \/ power_col ∉ cols ->
   installed_per_commune cols rows = inl ViewStop).
Proof.
  unfold installed_per_commune. split.
  - intros Ht. by rewrite bool_decide_false.
  - intros Ht Hcp. rewrite bool_decide_true by done. cbn.
    destruct Hcp as [H|H]; by rewrite (bool_decide_false _ H), ?andb_false_r.
Qed.

(** The first map's table before the normalisation of lines 48-52. *)
Lemma commune_rows_elem {C} cols rows (coords : list (string * (option C * option C))) g
    c p la lo :
  installed_per_commune cols rows = inr g ->
  (((c, p), la, lo) ∈ dropna_coords (merge_left fst g coords) <->
   existsb (pv_of c) rows = true /\ p = pv_total rows c /\
   (c, (la, lo)) ∈ coords /\ is_Some la /\ is_Some lo).
Proof.
  intros ->%installed_per_commune_inr. destruct (pv_groups rows) as [Hs Hl].
  rewrite dropna_coords_elem. split.
  - intros [Hin [Hla Hlo]]. apply (merge_left_elem fst) in Hin as [Hg Hc]; [|done].
    apply group_lookup_elem in Hg; [|done]. rewrite Hl in Hg.
    destruct (existsb _ rows); [|done]. injection Hg as <-. by repeat split.
  - intros (Hex & -> & Hc & Hla & Hlo). split; [|done].
    apply (merge_left_elem fst); [done|]. split; [|done].
    apply group_lookup_elem; [done|]. by rewrite Hl, Hex.
Qed.

(** C22. The merge of line 37 matches commune names exactly, not
    case-insensitively as the comment of line 34 says. A row of the first
    map's table is a commune with photovoltaic rows, normalised (lines
    48-52), with their total power and coordinates that the coordinate table
    lists under exactly the commune's name, neither of them missing: a
    commune the coordinate table spells in another case ("BERTRANGE" for
    "Bertrange") is dropped from the map. *)
Theorem commune_map_rows {C} cols rows (coords : list (string * (option C * option C))) m
    c' p la lo :
  commune_map cols rows coords = inr m ->
  (((c', p), la, lo) ∈ m <->
   exists c, c' = nfkd_ascii c /\ existsb (pv_of c) rows = true /\ p = pv_total rows c /\
   (c, (la, lo)) ∈ coords /\ is_Some la /\ is_Some lo).
Proof.
  unfold commune_map. destruct (installed_per_commune cols rows) as [e|g] eqn:E; [done|].
  intros [= <-]. rewrite list_elem_of_fmap. split.
  - intros ([[[c p0] la0] lo0] & [= -> -> -> ->] & Hin). exists c.
    split; [done|]. by apply (commune_rows_elem cols rows coords g).
  - intros (c & -> & H). exists ((c, p), la, lo). split; [done|].
    by apply (commune_rows_elem cols rows coords g).
Qed.

(** C23. The technology table groups each row once, under its technology
    (its type when it is one of the named three, "Hydro" when its type
    mentions hydro in any case): for each commune and technology it holds the
    total power of those rows, sorted by (commune, technology). *)
Theorem combined_grouped_totals rows :
  groups_sorted (combined_grouped rows) /\
  forall c t, group_lookup (c, t) (combined_grouped rows) =
              if existsb (tech_of c t) rows then Some (tech_total rows c t) else None.
Proof. apply tech_groups. Qed.

(** The technology map's table before the normalisation of lines 85-88. *)
Lemma tech_rows_elem {C} rows (coords : list (string * (option C * option C))) c t p la lo :
  (((c, t), p), la, lo) ∈ dropna_coords (merge_left (fun l => l.1.1) (combined_grouped rows) coords) <->
  existsb (tech_of c t) rows = true /\ p = tech_total rows c t /\
  (c, (la, lo)) ∈ coords /\ is_Some la /\ is_Some lo.
Proof.
  destruct (tech_groups rows) as [Hs Hl].
  rewrite dropna_coords_elem. split.
  - intros [Hin [Hla Hlo]]. apply (merge_left_elem (fun l => l.1.1)) in Hin as [Hg Hc]; [|done].
    apply group_lookup_elem in Hg; [|done]. rewrite Hl in Hg.
    destruct (existsb _ rows); [|done]. injection Hg as <-. by repeat split.
  - intros (Hex & -> & Hc & Hla & Hlo). split; [|done].
    apply (merge_left_elem (fun l => l.1.1)); [done|]. split; [|done].
    apply group_lookup_elem; [done|]. by rewrite Hl, Hex.
Qed.

(** Every technology of the grouped table is one of [energy_types]. *)
Lemma combined_grouped_types rows :
  Forall (fun g => g.1.2 ∈ energy_types) (combined_grouped rows).
Proof.
  apply (group_sum_Forall (fun k => k.2 ∈ energy_types)).
  apply Forall_forall. intros r Hr k Hk. apply list_elem_of_fmap in Hr as [i [-> Hi]].
  unfold df_combined, df_other, df_hydro in Hi. apply elem_of_app in Hi as [Hi|Hi].
  - apply list_filter_elem in Hi as [_ Ht]. unfold commune_type_power in Hk. cbn in Hk.
    destruct (inst_commune i), (inst_type i) as [ty|]; try done. injection Hk as <-. cbn.
    apply bool_decide_eq_true in Ht. unfold other_types in Ht.
    apply list_filter_elem in Ht as [Ht _]. exact Ht.
  - apply list_elem_of_fmap in Hi as [j [-> _]]. unfold commune_type_power in Hk. cbn in Hk.
    destruct (inst_commune j); [|done]. injection Hk as <-. cbn. by right; right; right; left.
Qed.

(** The four technologies after the normalisation: only the photovoltaic
    one, whose name loses its diaeresis, is no key of [color_map]. *)
Lemma energy_type_colour t :
  t ∈ energy_types ->
  nfkd_ascii t ∈ map nfkd_ascii energy_types /\
  (color_map_lookup (nfkd_ascii t) = None <-> nfkd_ascii t = nfkd_ascii pv_type).
Proof.
  intros Ht. split; [by apply list_elem_of_fmap_2|].
  repeat (apply elem_of_cons in Ht as [->|Ht]; [vm_compute; split; intros H; done || discriminate|]).
  by apply elem_of_nil in Ht.
Qed.

(** C24. The merge of line 76 matches commune names exactly, not
    case-insensitively as the comment of line 34 says. A row of the
    technology map is a (commune, technology) with rows, normalised (lines
    85-88), with their total power and the coordinates listed under exactly
    the commune's name, neither missing. *)
Theorem technology_map_rows {C} rows (coords : list (string * (option C * option C))) c' t' p la lo :
  (((c', t'), p), la, lo) ∈ technology_map rows coords <->
  exists c t, c' = nfkd_ascii c /\ t' = nfkd_ascii t /\
  existsb (tech_of c t) rows = true /\ p = tech_total rows c t /\
  (c, (la, lo)) ∈ coords /\ is_Some la /\ is_Some lo.
Proof.
  unfold technology_map. rewrite list_elem_of_fmap. split.
  - intros ([[[[c t] p0] la0] lo0] & [= -> -> -> -> ->] & Hin). exists c, t.
    split; [done|]. split; [done|]. by apply tech_rows_elem.
  - intros (c & t & -> & -> & H). exists (((c, t), p), la, lo). split; [done|].
    by apply tech_rows_elem.
Qed.

(** C25. The colours of the second map: every technology it draws is one of
    the four, normalised, and it has its colour of [color_map] exactly when
    it is not the photovoltaic one. Lines 85-88 turn
    "Installation photovoltaïque" into "Installation photovoltaique", which
    is no key of [color_map]: the solar bubbles are not drawn in the gold of
    line 60 but in a default colour. *)
Theorem technology_map_colours {C} rows (coords : list (string * (option C * option C))) :
  Forall (fun r => r.1.1.1.2 ∈ map nfkd_ascii energy_types /\
                   (color_map_lookup r.1.1.1.2 = None <-> r.1.1.1.2 = nfkd_ascii pv_type))
    (technology_map rows coords).
Proof.
  apply Forall_forall. intros r ([[[[c t] p] la] lo] & -> & Hin)%list_elem_of_fmap.
  apply dropna_coords_elem in Hin as [Hin [Hla _]].
  apply (merge_left_elem (fun l => l.1.1)) in Hin as [Hg _]; [|done].
  apply energy_type_colour.
  exact (proj1 (Forall_forall _ _) (combined_grouped_types rows) _ Hg).
Qed.

(** The bubbles are the powers of the photovoltaic rows that have one, in
    the order of the sheet. *)
Lemma pv_sizes_spec rows :
  pv_sizes rows = omap (fun r => if is_type pv_type r then inst_power r else None) rows.
Proof.
  unfold pv_sizes, pv_rows. induction rows as [|r rows IH]; [done|]. cbn.
  destruct (is_type pv_type r); cbn; [destruct (inst_power r)|]; by rewrite ?IH.
Qed.

(** ** Witnesses *)

(** Two photovoltaic rows in Mamer (one without power), one in Bertrange, a
    hydro plant in Mamer; the coordinate table spells Bertrange in capitals. *)
Definition sample_installations : list installation :=
  [Installation (Some pv_type) (Some "Mamer") (Some 10);
   Installation (Some pv_type) (Some "Bertrange") (Some 5);
   Installation (Some (latin1 "Centrale HYDROélectrique")) (Some "Mamer") (Some 7);
   Installation (Some pv_type) (Some "Mamer") None].

Definition sample_sheet_columns : list string := [type_col; commune_col; power_col].

Definition sample_coords : list (string * (option Z * option Z)) :=
  [("Mamer", (Some 49, Some 6)); ("BERTRANGE", (Some 49, Some 6))].

Lemma installed_per_commune_totals_witness :
  exists g, installed_per_commune sample_sheet_columns sample_installations = inr g /\
    groups_sorted g /\
    forall c, group_lookup c g =
              if existsb (pv_of c) sample_installations
              then Some (pv_total sample_installations c) else None.
Proof.
  apply installed_per_commune_totals; unfold sample_sheet_columns;
    [left | right; left | right; right; left].
Defined.

Lemma installed_per_commune_stops_witness :
  installed_per_commune [commune_col; power_col] sample_installations = inl (ViewKeyError type_col) /\
  installed_per_commune [type_col; commune_col] sample_installations = inl ViewStop.
Proof.
  split.
  - apply (proj1 (installed_per_commune_stops [commune_col; power_col] sample_installations)).
    apply (bool_decide_unpack (_ ∉ _)). by vm_compute.
  - apply (proj2 (installed_per_commune_stops [type_col; commune_col] sample_installations));
      [left|right]. apply (bool_decide_unpack (_ ∉ _)). by vm_compute.
Defined.

Lemma commune_map_rows_witness :
  (("Bertrange", 5), Some 49, Some 6) ∈ [(("Mamer", 10), Some 49, Some 6)] <->
  exists c, "Bertrange" = nfkd_ascii c /\ existsb (pv_of c) sample_installations = true /\
  5 = pv_total sample_installations c /\
  (c, (Some 49, Some 6)) ∈ sample_coords /\ is_Some (Some 49) /\ is_Some (Some 6).
Proof.
  apply (commune_map_rows sample_sheet_columns sample_installations sample_coords).
  vm_compute. reflexivity.
Defined.

(** The second map of the sample: the hydro bubble of Mamer has its blue,
    the photovoltaic one no colour of [color_map]. *)
Example solar_bubbles_uncoloured :
  map (fun r => (r.1.1.1, color_map_lookup r.1.1.1.2)) (technology_map sample_installations sample_coords) =
  [(("Mamer", "Hydro"), Some "rgb(31, 119, 180)"); (("Mamer", "Installation photovoltaique"), None)].
Proof. vm_compute. reflexivity. Qed.
