(* ===== verification/Csv.v ===== *)
(** * Csv: the persisted series as a CSV file

    [src/daily_data_lux.py] writes the merged table with [updated.to_csv(csv_path)]
    (line 63) and reads it back on the next run with
    [pd.read_csv(csv_path, header=0, skiprows=[1], index_col=0)] followed by
    [pd.to_datetime] on the index (lines 29-31); the dashboard reads the same
    file the same way ([src/stroumauer_interface.py] lines 117-121).

    The text layer is pandas' writer and reader for the default dialect:
    fields separated by [','], lines ended by ['\n'], a field quoted (with
    inner quotes doubled) exactly when it contains a comma, a quote or a line
    break (QUOTE_MINIMAL), and a reader that undoes the quoting and skips
    blank lines. The reader is a state machine over the characters
    ([scan]). A missing cell ([NaN]) is written as an empty field, and an
    empty field reads back as [NaN].

    The table layer is what [to_csv] puts in the file: one header line per
    level of the column index (the first field, the index label, empty), then
    one line per row; and what [read_csv] makes of it: the first line is the
    header, the line numbered 1 is skipped, the first field of every line is
    the index. The labels are the header's names as pandas' C reader makes
    them ([header_names], [_get_header]): an empty field at position [i] is
    [Unnamed: i], and a name met again is renamed [X.1], [X.2], ... (named
    fields first, then the unnamed ones); the loop that picks the suffix runs
    on fuel, shown enough by [mangle_loop_fuel] and [header_names_steps]. Cells and timestamps are printed and parsed by the codecs
    [CsvCell] and [TimestampCodec], whose laws say that parsing a printed
    value gives it back. *)

From stdpp Require Import strings gmap.
From Stdlib Require DecimalZ.
From S2P Require Import Prelude Text Series Projection.

(** The characters of the dialect, by their codes: [','], ['\n'], ['\r'] and the
    double quote. *)
Definition comma : Ascii.ascii := Ascii.ascii_of_nat 44.
Definition newline : Ascii.ascii := Ascii.ascii_of_nat 10.
Definition carriage_return : Ascii.ascii := Ascii.ascii_of_nat 13.
Definition quote_char : Ascii.ascii := Ascii.ascii_of_nat 34.

(** ** Writing *)

Fixpoint has_char (c : Ascii.ascii) (s : string) : bool :=
  match s with
  | EmptyString => false
  | String c' s' => Ascii.eqb c' c || has_char c s'
  end.

(** QUOTE_MINIMAL: the fields that must be quoted. *)
Definition needs_quote (s : string) : bool :=
  has_char comma s || has_char quote_char s || has_char newline s || has_char carriage_return s.

(** Inner quotes are doubled. *)
Fixpoint double_quotes (s : string) : string :=
  match s with
  | EmptyString => EmptyString
  | String c s' =>
      if Ascii.eqb c quote_char then String quote_char (String quote_char (double_quotes s'))
      else String c (double_quotes s')
  end.

Definition write_field (s : string) : string :=
  if needs_quote s then String quote_char (String.append (double_quotes s) (String quote_char EmptyString))
  else s.

(** The fields of a line separated by commas. *)
Fixpoint join_fields (fs : list string) : string :=
  match fs with
  | [] => EmptyString
  | [f] => write_field f
  | f :: fs' => String.append (write_field f) (String comma (join_fields fs'))
  end.

(** The file: every line followed by a newline. *)
Definition write_csv (ls : list (list string)) : string :=
  foldr (fun l acc => String.append (join_fields l) (String newline acc)) EmptyString ls.

(** ** Reading *)

(** Where the reader is within a field. *)
Inductive scan_state :=
  | StartField   (** at the start of a field *)
  | InUnquoted   (** inside a field that did not start with a quote *)
  | InQuoted     (** inside the quotes of a quoted field *)
  | QuoteInQuoted. (** just after a quote inside a quoted field *)

(** [field] holds the characters of the current field in reverse, [fields] the
    fields of the current line in reverse; the result is the list of lines. A
    line break at the start of a line ends a blank line, which is skipped. *)
Fixpoint scan (st : scan_state) (field : list Ascii.ascii) (fields : list string) (s : string)
  : list (list string) :=
  let emit := String.string_of_list_ascii (rev field) in
  match s with
  | EmptyString =>
      match st, field, fields with
      | StartField, [], [] => []
      | _, _, _ => [rev (emit :: fields)]
      end
  | String c s' =>
      match st with
      | StartField =>
          if Ascii.eqb c quote_char then scan InQuoted [] fields s'
          else if Ascii.eqb c comma then scan StartField [] (emit :: fields) s'
          else if Ascii.eqb c newline then
            match fields with
            | [] => scan StartField [] [] s'
            | _ => rev (emit :: fields) :: scan StartField [] [] s'
            end
          else scan InUnquoted [c] fields s'
      | InUnquoted | QuoteInQuoted =>
          if Ascii.eqb c comma then scan StartField [] (emit :: fields) s'
          else if Ascii.eqb c newline then rev (emit :: fields) :: scan StartField [] [] s'
          else if Ascii.eqb c quote_char then
            match st with
            | QuoteInQuoted => scan InQuoted (c :: field) fields s'
            | _ => scan InUnquoted (c :: field) fields s'
            end
          else scan InUnquoted (c :: field) fields s'
      | InQuoted =>
          if Ascii.eqb c quote_char then scan QuoteInQuoted field fields s'
          else scan InQuoted (c :: field) fields s'
      end
  end.

Definition read_lines (text : string) : list (list string) := scan StartField [] [] text.

(** ** The table layer *)

(** Printing and parsing a cell: [str] of a float and the reader's conversion. *)
Class CsvCell (V : Type) := {
  print_cell : V -> string;
  parse_cell : string -> option V;
  parse_print_cell v : parse_cell (print_cell v) = Some v;
  print_cell_nonempty v : print_cell v <> EmptyString
}.

(** Printing a timestamp of the index ([str(Timestamp)]) and parsing it back
    ([pd.to_datetime]). *)
Class TimestampCodec := {
  print_timestamp : Timestamp -> string;
  parse_timestamp : string -> option Timestamp;
  parse_print_timestamp t : parse_timestamp (print_timestamp t) = Some t
}.

(** The table [read_csv] returns: one level of column labels. *)
Record table (V : Type) := Table {
  tcolumns : list string;
  trows : series (list (option V))
}.
Arguments Table {V} _ _.
Arguments tcolumns {V} _.
Arguments trows {V} _.

(** How [read_csv] and [pd.to_datetime] fail. *)
Inductive csv_error :=
  | EmptyDataError                (** no line at all *)
  | ParserError (line : nat)      (** a line with more fields than the header *)
  | CellTypeError (field : string)
  | DateParseError (field : string).

Section Table.
Context {V : Type} `{!CsvCell V, !TimestampCodec}.

Definition table_wf (t : table V) : Prop :=
  Forall (fun row => length row.2 = length (tcolumns t)) (trows t).

(** [na_rep='']: a missing cell is an empty field. *)
Definition print_opt (c : option V) : string :=
  match c with Some v => print_cell v | None => EmptyString end.

(** An empty field is [NaN]. *)
Definition read_cell (s : string) : option (option V) :=
  if String.eqb s EmptyString then Some None else Some <$> parse_cell s.

Definition row_line (row : Timestamp * list (option V)) : list string :=
  print_timestamp row.1 :: map print_opt row.2.

(** Line 63 on the fetched table: one header line per level of the
    two-level column index. *)
Definition frame_to_csv (f : frame V) : string :=
  write_csv ((EmptyString :: map fst (columns f)) :: (EmptyString :: map snd (columns f)) ::
             map row_line (rows f)).

(** Line 63 on a table with one level of column labels. *)
Definition table_to_csv (t : table V) : string :=
  write_csv ((EmptyString :: tcolumns t) :: map row_line (trows t)).

Fixpoint read_cells (cs : list string) : csv_error + list (option V) :=
  match cs with
  | [] => inr []
  | c :: cs' =>
      match read_cell c, read_cells cs' with
      | None, _ => inl (CellTypeError c)
      | Some _, inl e => inl e
      | Some v, inr vs => inr (v :: vs)
      end
  end.

(** A data line of a table with [n] columns: too many fields is an error, too
    few are padded with [NaN]; the first field is the index. *)
Definition read_row (n lineno : nat) (l : list string) : csv_error + (Timestamp * list (option V)) :=
  match l with
  | [] => inl (ParserError lineno)
  | idx :: cells =>
      if (n <? length cells)%nat then inl (ParserError lineno)
      else match read_cells cells with
           | inl e => inl e
           | inr cs =>
               match parse_timestamp idx with
               | Some t => inr (t, cs ++ replicate (n - length cells) None)
               | None => inl (DateParseError idx)
               end
           end
  end.

Fixpoint read_rows (n lineno : nat) (ls : list (list string)) : csv_error + series (list (option V)) :=
  match ls with
  | [] => inr []
  | l :: ls' =>
      match read_row n lineno l, read_rows n (S lineno) ls' with
      | inl e, _ => inl e
      | inr _, inl e => inl e
      | inr r, inr rs => inr (r :: rs)
      end
  end.

(** ** The header names ([_get_header] of pandas' C reader) *)

(** An empty header field at position [i] is named [f"Unnamed: {i}"]. *)
Definition header_field (i : nat) (name : string) : string :=
  if String.eqb name EmptyString then String.append "Unnamed: " (string_of_nat i) else name.

(** [col_loop_order]: the positions of the named fields, then those of the
    empty ones, so that given names are kept and unnamed ones mangled. *)
Definition col_loop_order (raw : list string) : list nat :=
  List.filter (fun i => negb (bool_decide (raw !! i = Some EmptyString))) (seq 0 (length raw)) ++
  List.filter (fun i => bool_decide (raw !! i = Some EmptyString)) (seq 0 (length raw)).

(** [f"{old_col}.{cur_count}"]. *)
Definition dotted (old_col : string) (k : nat) : string :=
  String.append old_col (String.append "." (string_of_nat k)).

(** The [while cur_count > 0] loop: [counts[old_col] = cur_count + 1], the
    next candidate [old_col.cur_count], and the next count: one more when the
    candidate is already a name of the header, its count otherwise. The
    fuel is [len(this_header) + 1] (see [mangle_loop_fuel]). *)
Fixpoint mangle_loop (fuel : nat) (hdr : list string) (counts : gmap string nat)
    (old_col col : string) (cur : nat) : gmap string nat * string * nat :=
  match fuel with
  | O => (counts, col, cur)
  | S fuel' =>
      if (0 <? cur)%nat then
        let counts := <[old_col := S cur]> counts in
        let col := dotted old_col cur in
        if bool_decide (col ∈ hdr) then mangle_loop fuel' hdr counts old_col col (S cur)
        else mangle_loop fuel' hdr counts old_col col (default 0%nat (counts !! col))
      else (counts, col, cur)
  end.

(** One position of [col_loop_order]: its name mangled, then
    [counts[col] = cur_count + 1]. *)
Definition mangle_one (st : list string * gmap string nat) (i : nat) : list string * gmap string nat :=
  let '(hdr, counts) := st in
  let old_col := default EmptyString (hdr !! i) in
  let '(counts', col, cur) :=
    mangle_loop (S (length hdr)) hdr counts old_col old_col (default 0%nat (counts !! old_col)) in
  (<[i := col]> hdr, <[col := S cur]> counts').

(** The names of the header line: empty fields named, duplicates mangled
    into [X.1], [X.2], ... *)
Definition header_names (raw : list string) : list string :=
  (foldl mangle_one (imap header_field raw, ∅) (col_loop_order raw)).1.

(** Lines 29-31: [read_csv(header=0, skiprows=[1], index_col=0)] then
    [pd.to_datetime] on the index. The line numbered 1 is skipped whatever
    it holds; the labels are the header names but the first, the index's. *)
Definition read_csv (text : string) : csv_error + table V :=
  match read_lines text with
  | [] => inl EmptyDataError
  | hdr :: rest =>
      match read_rows (length (tail hdr)) 2 (drop 1 rest) with
      | inl e => inl e
      | inr rs => inr (Table (tail (header_names hdr)) rs)
      end
  end.

End Table.

(** ** Lemmas on the text layer *)

Lemma emit_rev_field f :
  String.string_of_list_ascii (rev (rev (String.list_ascii_of_string f))) = f.
Proof. by rewrite rev_involutive, String.string_of_list_ascii_of_string. Qed.

(** A character of a field that needs no quoting is none of the four. *)
Lemma needs_quote_cons c s :
  needs_quote (String c s) = false ->
  Ascii.eqb c comma = false /\ Ascii.eqb c quote_char = false /\
  Ascii.eqb c newline = false /\ needs_quote s = false.
Proof.
  unfold needs_quote. cbn. rewrite !orb_false_iff. intros [[[[H1 H2] [H3 H4]] [H5 H6]] [H7 H8]].
  by rewrite H1, H3, H5, H2, H4, H6, H8.
Qed.

Lemma scan_unquoted s acc flds r :
  needs_quote s = false ->
  scan InUnquoted acc flds (String.append s r) =
  scan InUnquoted (rev (String.list_ascii_of_string s) ++ acc) flds r.
Proof.
  revert acc. induction s as [|c s IH]; intros acc Hq; [done|].
  apply needs_quote_cons in Hq as (Hc & Hqc & Hn & Hq).
  change (String.append (String c s) r) with (String c (String.append s r)). cbn [scan].
  rewrite Hc, Hn, Hqc, IH by done. cbn [String.list_ascii_of_string rev]. by rewrite <- app_assoc.
Qed.

Lemma scan_quoted f acc flds r :
  scan InQuoted acc flds (String.append (double_quotes f) (String quote_char r)) =
  scan QuoteInQuoted (rev (String.list_ascii_of_string f) ++ acc) flds r.
Proof.
  revert acc. induction f as [|c f IH]; intros acc; cbn [double_quotes].
  { change (String.append EmptyString (String quote_char r)) with (String quote_char r).
    cbn [scan]. by rewrite Ascii.eqb_refl. }
  destruct (Ascii.eqb c quote_char) eqn:E.
  - apply Ascii.eqb_eq in E as ->.
    transitivity (scan InQuoted (quote_char :: acc) flds
                    (String.append (double_quotes f) (String quote_char r))); [reflexivity|].
    rewrite IH. cbn [String.list_ascii_of_string rev]. by rewrite <- app_assoc.
  - change (String.append (String c (double_quotes f)) (String quote_char r)) with
      (String c (String.append (double_quotes f) (String quote_char r))).
    cbn [scan]. rewrite E, IH. cbn [String.list_ascii_of_string rev]. by rewrite <- app_assoc.
Qed.

(** Where the reader stands after the characters of a written field. *)
Definition field_end_state (f : string) : scan_state :=
  if needs_quote f then QuoteInQuoted
  else match f with EmptyString => StartField | _ => InUnquoted end.

Lemma scan_write_field f flds r :
  scan StartField [] flds (String.append (write_field f) r) =
  scan (field_end_state f) (rev (String.list_ascii_of_string f)) flds r.
Proof.
  unfold write_field, field_end_state. destruct (needs_quote f) eqn:Hq.
  - change (String.append (String quote_char (String.append (double_quotes f)
              (String quote_char EmptyString))) r) with
      (String quote_char (String.append (String.append (double_quotes f)
              (String quote_char EmptyString)) r)).
    rewrite append_assoc.
    change (String.append (String quote_char EmptyString) r) with (String quote_char r).
    cbn [scan]. rewrite Ascii.eqb_refl. by rewrite scan_quoted, app_nil_r.
  - destruct f as [|c f]; [done|]. apply needs_quote_cons in Hq as (Hc & Hqc & Hn & Hq).
    change (String.append (String c f) r) with (String c (String.append f r)).
    cbn [scan]. rewrite Hqc, Hc, Hn, scan_unquoted by done.
    cbn [String.list_ascii_of_string rev]. done.
Qed.

Lemma scan_end_comma f flds r :
  scan (field_end_state f) (rev (String.list_ascii_of_string f)) flds (String comma r) =
  scan StartField [] (f :: flds) r.
Proof.
  unfold field_end_state. destruct (needs_quote f); cbn [scan].
  - rewrite Ascii.eqb_refl. by rewrite emit_rev_field.
  - destruct f as [|c f]; cbn [scan]; rewrite Ascii.eqb_refl; [done|].
    by rewrite emit_rev_field.
Qed.

Lemma scan_end_newline f flds r :
  f <> EmptyString \/ flds <> [] ->
  scan (field_end_state f) (rev (String.list_ascii_of_string f)) flds (String newline r) =
  rev (f :: flds) :: scan StartField [] [] r.
Proof.
  intros Hne. unfold field_end_state.
  assert (Hnc : Ascii.eqb newline comma = false) by reflexivity.
  assert (Hnq : Ascii.eqb newline quote_char = false) by reflexivity.
  destruct (needs_quote f); cbn [scan].
  - rewrite Hnc, Ascii.eqb_refl. by rewrite emit_rev_field.
  - destruct f as [|c f]; cbn [scan]; rewrite ?Hnq, Hnc, Ascii.eqb_refl.
    + destruct flds; [by destruct Hne|done].
    + by rewrite emit_rev_field.
Qed.

(** A line the reader gives back: not blank. *)
Definition line_ok (l : list string) : Prop := l <> [] /\ l <> [EmptyString].

Lemma join_fields_cons2 f f' l :
  join_fields (f :: f' :: l) = String.append (write_field f) (String comma (join_fields (f' :: l))).
Proof. done. Qed.

Lemma scan_write_line l flds r :
  l <> [] -> flds <> [] \/ l <> [EmptyString] ->
  scan StartField [] flds (String.append (join_fields l) (String newline r)) =
  (rev flds ++ l) :: scan StartField [] [] r.
Proof.
  revert flds. induction l as [|f l IH]; intros flds Hl Hne; [done|].
  destruct l as [|f' l].
  - cbn [join_fields]. rewrite scan_write_field, scan_end_newline; [done|].
    destruct Hne as [Hf|Hf]; [by right|left]. by intros ->.
  - rewrite join_fields_cons2, append_assoc.
    change (String.append (String comma (join_fields (f' :: l))) (String newline r)) with
      (String comma (String.append (join_fields (f' :: l)) (String newline r))).
    rewrite scan_write_field, scan_end_comma, IH by (done || by left).
    cbn. by rewrite <- app_assoc.
Qed.

(** The reader gives back the lines the writer wrote. *)
Lemma read_write_lines ls : Forall line_ok ls -> read_lines (write_csv ls) = ls.
Proof.
  unfold read_lines. induction 1 as [|l ls [Hl Hb] _ IH]; [done|].
  cbn [write_csv foldr]. rewrite scan_write_line by (done || by right).
  f_equal. exact IH.
Qed.

(** ** Lemmas on the table layer *)

Section TableLemmas.
Context {V : Type} `{!CsvCell V, !TimestampCodec}.

Lemma read_cell_print c : read_cell (print_opt c) = Some c.
Proof.
  unfold read_cell, print_opt. destruct c as [v|]; [|done].
  destruct (String.eqb_spec (print_cell v) EmptyString) as [E|_].
  - by apply print_cell_nonempty in E.
  - by rewrite parse_print_cell.
Qed.

Lemma read_cells_print cs : read_cells (map print_opt cs) = inr cs.
Proof. induction cs as [|c cs IH]; [done|]. cbn. by rewrite read_cell_print, IH. Qed.

Lemma read_rows_lines n k (rs : series (list (option V))) :
  Forall (fun r => length r.2 = n) rs -> read_rows n k (map row_line rs) = inr rs.
Proof.
  revert k. induction rs as [|[t cs] rs IH]; intros k Hrs; [done|].
  apply Forall_cons in Hrs as [Hr Hrs]. cbn in Hr. cbn [map read_rows].
  rewrite IH by done. unfold read_row, row_line. cbn [fst snd].
  rewrite length_map, Hr, Nat.ltb_irrefl, read_cells_print, parse_print_timestamp.
  by rewrite Nat.sub_diag, app_nil_r.
Qed.

(** The lines [to_csv] writes for rows of [n >= 1] cells are never blank. *)
Lemma row_lines_ok n (rs : series (list (option V))) :
  (0 < n)%nat -> Forall (fun r => length r.2 = n) rs -> Forall line_ok (map row_line rs).
Proof.
  intros Hn Hrs. apply Forall_fmap, (Forall_impl _ _ _ Hrs). intros [t cs] Hl. cbn in Hl.
  unfold row_line. split; [done|]. cbn. intros [= _ Hcs].
  apply (f_equal length) in Hcs. rewrite length_map in Hcs. cbn in Hcs. lia.
Qed.

Lemma header_line_ok (names : list string) : names <> [] -> line_ok (EmptyString :: names).
Proof. intros Hn. split; [done|]. by intros [= ->]. Qed.

Lemma read_cells_length cs vs : read_cells cs = inr vs -> length vs = length cs.
Proof.
  revert vs. induction cs as [|c cs IH]; intros vs; cbn; [by intros [= <-]|].
  destruct (read_cell c), (read_cells cs) eqn:E; intros Hr; try done.
  injection Hr as <-. cbn. by rewrite (IH _ eq_refl).
Qed.

(** A row read under [n] columns has [n] cells: padded when short, an error
    when long. *)
Lemma read_row_length n k l r : read_row n k l = inr r -> length r.2 = n.
Proof.
  unfold read_row. destruct l as [|idx cells]; [done|].
  destruct (Nat.ltb_spec n (length cells)) as [|Hle]; [done|].
  destruct (read_cells cells) as [|cs] eqn:E; [done|].
  destruct (parse_timestamp idx); [|done]. intros [= <-]. cbn.
  rewrite length_app, length_replicate, (read_cells_length _ _ E). lia.
Qed.

Lemma read_rows_length n k ls rs :
  read_rows n k ls = inr rs -> Forall (fun row => length row.2 = n) rs.
Proof.
  revert k rs. induction ls as [|l ls IH]; intros k rs; cbn; [by intros [= <-]|].
  destruct (read_row n k l) eqn:E1, (read_rows n (S k) ls) eqn:E2; intros Hr; try done.
  injection Hr as <-. constructor; [exact (read_row_length _ _ _ _ E1)|exact (IH _ _ E2)].
Qed.

Lemma mangle_one_length st i : length (mangle_one st i).1 = length st.1.
Proof.
  destruct st as [hdr counts]. unfold mangle_one.
  destruct (mangle_loop _ _ _ _ _ _) as [[c col] cur]. apply length_insert.
Qed.

Lemma header_names_length raw : length (header_names raw) = length raw.
Proof.
  unfold header_names. rewrite <- (length_imap header_field raw).
  change (imap header_field raw) with (imap header_field raw, ∅ : gmap string nat).1 at 2.
  generalize (imap header_field raw, ∅ : gmap string nat).
  induction (col_loop_order raw) as [|i ix IH]; intros st; [done|].
  cbn [foldl]. rewrite IH. apply mangle_one_length.
Qed.

Lemma tail_header_names_length raw : length (tail (header_names raw)) = length (tail raw).
Proof. pose proof (header_names_length raw). destruct raw, (header_names _); cbn in *; lia. Qed.

End TableLemmas.

(** ** The header names: every loop stops by its guard *)

Lemma dotted_inj old j k : dotted old j = dotted old k -> j = k.
Proof.
  unfold dotted. intros H%append_inv_l. cbv [String.append] in H. injection H as H.
  by apply string_of_nat_inj.
Qed.

Lemma dotted_neq old k : dotted old k <> old.
Proof. intros H%(f_equal String.length). unfold dotted in H. rewrite !length_append in H. cbn in H. lia. Qed.

Section HeaderNames.
Implicit Types (hdr : list string) (counts : gmap string nat).

(** Every name the counts know is a name of the header. *)
Definition counts_in hdr counts : Prop := forall k, is_Some (counts !! k) -> k ∈ hdr.

Lemma mangle_loop_zero fuel hdr counts old col :
  mangle_loop fuel hdr counts old col 0 = (counts, col, 0%nat).
Proof. by destruct fuel. Qed.

(** The loop from [cur > 0] ends at the first [old.k], [k >= cur], that is
    no name of the header, with [counts[old] = k + 1], as long as the fuel
    exceeds the names of the header not yet tried ([seen] holds those
    tried). *)
Lemma mangle_loop_spec fuel hdr counts old col cur seen :
  counts_in hdr counts -> old ∈ hdr -> NoDup (old :: seen) -> (forall x, x ∈ seen -> x ∈ hdr) ->
  (forall x, x ∈ seen -> exists j, (j < cur)%nat /\ x = dotted old j) ->
  (length hdr < fuel + length seen)%nat -> (0 < cur)%nat ->
  exists k, (cur <= k)%nat /\ (dotted old k ∉ hdr) /\
    (forall j, (cur <= j < k)%nat -> dotted old j ∈ hdr) /\
    mangle_loop fuel hdr counts old col cur = (<[old := S k]> counts, dotted old k, 0%nat).
Proof.
  revert counts col cur seen.
  induction fuel as [|fuel IH]; intros counts col cur seen Hc Hold Hnd Hseen Hidx Hfuel Hcur.
  { exfalso. assert (length (old :: seen) <= length hdr)%nat; [|cbn in *; lia].
    apply NoDup_incl_length; [by apply NoDup_ListNoDup|].
    intros x [<-|Hx]%list_elem_of_In%elem_of_cons; apply list_elem_of_In; [done|by apply Hseen]. }
  cbn [mangle_loop]. rewrite (proj2 (Nat.ltb_lt _ _) Hcur).
  apply NoDup_cons in Hnd as [Hold_seen Hnd].
  case_bool_decide as Hin.
  - destruct (IH (<[old := S cur]> counts) (dotted old cur) (S cur) (dotted old cur :: seen))
      as (k & Hk & Hout & Hbelow & Heq).
    + intros x [n Hn]. destruct (decide (x = old)) as [->|Hne]; [done|].
      rewrite lookup_insert_ne in Hn by done. apply Hc. eauto.
    + done.
    + constructor; [|constructor; [|done]].
      * intros [Heq|Hs]%elem_of_cons; [by apply (dotted_neq old cur)|done].
      * intros (j & Hj & Hjeq)%Hidx. apply dotted_inj in Hjeq. lia.
    + intros x [->|Hx]%elem_of_cons; [done|by apply Hseen].
    + intros x [->|Hx]%elem_of_cons; [exists cur; split; [lia|done]|].
      destruct (Hidx x Hx) as (j & ? & ?). exists j. split; [lia|done].
    + cbn. lia.
    + lia.
    + exists k. split_and!; [lia | done | |].
      * intros j Hj. destruct (decide (j = cur)) as [->|?]; [done|]. apply Hbelow. lia.
      * by rewrite Heq, insert_insert_eq.
  - exists cur. assert (<[old := S cur]> counts !! dotted old cur = None) as ->.
    { rewrite lookup_insert_ne by apply not_eq_sym, dotted_neq.
      apply eq_None_not_Some. intros ?%Hc. contradiction. }
    cbn [default]. rewrite mangle_loop_zero. split_and!; [lia | done | lia | done].
Qed.

(** The fuel [len(this_header) + 1] of [mangle_one] is enough. *)
Lemma mangle_loop_fuel hdr counts old cur :
  counts_in hdr counts -> old ∈ hdr -> (0 < cur)%nat ->
  exists k, (cur <= k)%nat /\ (dotted old k ∉ hdr) /\
    (forall j, (cur <= j < k)%nat -> dotted old j ∈ hdr) /\
    mangle_loop (S (length hdr)) hdr counts old old cur = (<[old := S k]> counts, dotted old k, 0%nat).
Proof.
  intros Hc Hold Hcur. apply (mangle_loop_spec _ _ _ _ _ _ []); try done.
  - constructor; [apply not_elem_of_nil | constructor].
  - by intros ? ?%elem_of_nil.
  - by intros ? ?%elem_of_nil.
  - cbn. lia.
Qed.

(** The names the counts know sit at positions already processed. *)
Definition counts_named (P : list nat) hdr counts : Prop :=
  forall k, is_Some (counts !! k) -> exists j, j ∈ P /\ hdr !! j = Some k.

(** One position of [col_loop_order]: its name is kept when it has no count
    yet, and is otherwise [old.k] for the first [k] from its count that is no
    name of the header; the loop stops by its guard, not by the fuel. *)
Lemma mangle_one_step P hdr counts i :
  counts_named P hdr counts -> i ∉ P -> (i < length hdr)%nat ->
  let old := default EmptyString (hdr !! i) in
  exists name counts', mangle_one (hdr, counts) i = (<[i := name]> hdr, <[name := 1%nat]> counts') /\
    counts_named (i :: P) (<[i := name]> hdr) (<[name := 1%nat]> counts') /\
    ((default 0%nat (counts !! old) = 0%nat /\ name = old /\ counts' = counts) \/
     (exists k, (0 < default 0%nat (counts !! old) <= k)%nat /\ name = dotted old k /\
        (dotted old k ∉ hdr) /\
        (forall j, (default 0%nat (counts !! old) <= j < k)%nat -> dotted old j ∈ hdr) /\
        counts' = <[old := S k]> counts)).
Proof.
  intros Hn Hi Hlen old.
  assert (Hold : hdr !! i = Some old).
  { subst old. by destruct (lookup_lt_is_Some_2 hdr i Hlen) as [x ->]. }
  assert (Hc : counts_in hdr counts) by (intros k (j & _ & Hj)%Hn; by eapply list_elem_of_lookup_2).
  assert (Hnamed : forall k name, is_Some (counts !! k) ->
            exists j, j ∈ i :: P /\ <[i := name]> hdr !! j = Some k).
  { intros k name (j & Hj & Hk)%Hn. exists j. split; [by right|].
    rewrite list_lookup_insert_ne; [done|]. by intros ->. }
  assert (Hhere : forall name, <[i := name]> hdr !! i = Some name) by (intros; by rewrite list_lookup_insert, decide_True).
  unfold mangle_one. change (default EmptyString (hdr !! i)) with old.
  destruct (default 0%nat (counts !! old)) as [|c] eqn:Hcnt.
  - rewrite mangle_loop_zero. exists old, counts. split; [done|]. split; [|by left].
    intros k [n Hk]. destruct (decide (k = old)) as [->|Hne]; [exists i; split; [left | done]|].
    rewrite lookup_insert_ne in Hk by done. apply Hnamed. eauto.
  - destruct (mangle_loop_fuel hdr counts old (S c)) as (k & Hk & Hout & Hbelow & ->);
      [done | by eapply list_elem_of_lookup_2 | lia |].
    exists (dotted old k), (<[old := S k]> counts). split; [done|]. split.
    + intros x [n Hx]. destruct (decide (x = dotted old k)) as [->|Hne];
        [exists i; split; [left | done]|].
      rewrite lookup_insert_ne in Hx by done. destruct (decide (x = old)) as [->|Hne'].
      * apply Hnamed. destruct (counts !! old); [eauto | discriminate].
      * rewrite lookup_insert_ne in Hx by done. apply Hnamed. eauto.
    + right. exists k. split_and!; [lia | lia | done | done | done | done].
Qed.

Lemma mangle_fold_named ix P st :
  counts_named P st.1 st.2 -> NoDup (ix ++ P) -> Forall (fun i => i < length st.1)%nat ix ->
  counts_named (rev ix ++ P) (foldl mangle_one st ix).1 (foldl mangle_one st ix).2 /\
  length (foldl mangle_one st ix).1 = length st.1.
Proof.
  induction ix as [|i ix IH] in P, st |- *; [done|]. intros Hn Hnd Hlen.
  destruct st as [hdr counts]. apply Forall_cons in Hlen as [Hi Hlen]. cbn [fst snd] in *.
  apply NoDup_cons in Hnd as [HiP Hnd'].
  destruct (mangle_one_step P hdr counts i Hn) as (name & counts' & Hstep & Hn' & _);
    [intros ?; apply HiP, elem_of_app; by right | done |].
  cbn [foldl]. rewrite Hstep.
  destruct (IH (i :: P) (<[i := name]> hdr, <[name := 1%nat]> counts')) as [IH1 IH2].
  - exact Hn'.
  - rewrite <- Permutation_middle. by constructor.
  - cbn [fst]. rewrite length_insert. exact Hlen.
  - split; [|by rewrite IH2; cbn [fst]; rewrite length_insert].
    cbn [rev]. by rewrite <- app_assoc.
Qed.

Lemma col_loop_order_spec raw :
  NoDup (col_loop_order raw) /\ Forall (fun i => i < length raw)%nat (col_loop_order raw).
Proof.
  unfold col_loop_order. split.
  - apply NoDup_app. split_and!.
    + apply NoDup_ListNoDup, List.NoDup_filter, seq_NoDup.
    + intros x Hx1 Hx2. apply list_elem_of_In, filter_In in Hx1 as [_ H1].
      apply list_elem_of_In, filter_In in Hx2 as [_ H2]. by rewrite H2 in H1.
    + apply NoDup_ListNoDup, List.NoDup_filter, seq_NoDup.
  - apply Forall_app. split; apply Forall_forall; intros x Hx;
      apply list_elem_of_In, filter_In in Hx as [Hx _]; apply in_seq in Hx; lia.
Qed.

(** Every position [header_names] processes meets the conditions of
    [mangle_one_step]: the loops of the header naming all stop by their
    guard, within the fuel. *)
Lemma header_names_steps raw ix1 i ix2 :
  col_loop_order raw = ix1 ++ i :: ix2 ->
  let st := foldl mangle_one (imap header_field raw, ∅) ix1 in
  counts_named (rev ix1) st.1 st.2 /\ (i ∉ rev ix1) /\ (i < length st.1)%nat.
Proof.
  intros Hord st. destruct (col_loop_order_spec raw) as [Hnd Hlen]. rewrite Hord in Hnd, Hlen.
  apply Forall_app in Hlen as [Hlen1 Hlen2]. apply Forall_cons in Hlen2 as [Hi _].
  apply NoDup_app in Hnd as (Hnd1 & Hdisj & _).
  destruct (mangle_fold_named ix1 [] (imap header_field raw, ∅)) as [Hn Hl].
  - intros k [n Hk]. cbn [snd] in Hk. by rewrite lookup_empty in Hk.
  - by rewrite app_nil_r.
  - cbn [fst]. rewrite length_imap. exact Hlen1.
  - rewrite app_nil_r in Hn. split_and!; [exact Hn | |].
    + intros Hin%list_elem_of_In. apply (proj2 (in_rev _ _)), list_elem_of_In in Hin.
      by apply (Hdisj i Hin), elem_of_cons; left.
    + subst st. rewrite Hl. cbn [fst]. by rewrite length_imap.
Qed.

End HeaderNames.

(** ** Properties of the persisted file *)

Section RoundTrip.
Context {V : Type} `{!CsvCell V, !TimestampCodec}.

(** C26. Round trip of the first write: the fetched table, whose columns form
    a two-level index, is written with two header lines; reading the file
    back as lines 29-31 do gives the first level of the labels and every row,
    cell for cell, whatever the labels contain (commas, quotes and line
    breaks are quoted and unquoted). *)
Theorem read_csv_frame_to_csv (f : frame V) :
  columns f <> [] -> frame_wf f ->
  read_csv (frame_to_csv f) =
  inr (Table (tail (header_names (EmptyString :: map fst (columns f)))) (rows f)).
Proof.
  intros Hc Hwf. unfold read_csv, frame_to_csv.
  assert (Hn : (0 < length (columns f))%nat) by (destruct (columns f); cbn; [done|lia]).
  rewrite read_write_lines.
  - cbn [tail skipn drop]. by rewrite drop_0, length_map, read_rows_lines.
  - repeat constructor; try (apply header_line_ok; by destruct (columns f)).
    + by apply (row_lines_ok (length (columns f))).
Qed.

(** Whatever the text of the file, a table [read_csv] returns is well
    typed: every row has exactly one cell per column label, short lines being
    padded with [NaN] and long ones refused with a [ParserError]. *)
Theorem read_csv_wf (text : string) (t : table V) : read_csv text = inr t -> table_wf t.
Proof.
  unfold read_csv. destruct (read_lines text) as [|hdr rest]; [done|].
  destruct (read_rows _ 2 _) as [|rs] eqn:E; [done|]. intros [= <-].
  unfold table_wf. cbn. rewrite tail_header_names_length. exact (read_rows_length _ _ _ _ E).
Qed.

(** A table with one level of column labels is written with one header
    line; the reader's [skiprows=[1]] then skips its first row. *)
Lemma read_csv_table_to_csv_drops_first (t : table V) :
  tcolumns t <> [] -> table_wf t ->
  read_csv (table_to_csv t) =
  inr (Table (tail (header_names (EmptyString :: tcolumns t))) (tail (trows t))).
Proof.
  intros Hc Hwf. unfold read_csv, table_to_csv.
  assert (Hn : (0 < length (tcolumns t))%nat) by (destruct (tcolumns t); cbn; [done|lia]).
  rewrite read_write_lines.
  - cbn [tail]. unfold table_wf in Hwf. destruct (trows t) as [|r rs]; [done|].
    apply Forall_cons in Hwf as [_ Hwf]. cbn [map skipn drop]. by rewrite drop_0, read_rows_lines.
  - constructor; [by apply header_line_ok|]. by apply (row_lines_ok (length (tcolumns t))).
Qed.

End RoundTrip.

(** ** Codecs and witnesses *)

(** Python's [str] of a boolean and its parse. *)
Definition bool_cell : CsvCell bool.
Proof.
  refine {| print_cell := fun b : bool => if b then "True"%string else "False"%string;
            parse_cell := fun s : string => if String.eqb s "True" then Some true
                                   else if String.eqb s "False" then Some false else None |}.
  - by intros [].
  - by intros [].
Defined.

Definition minus_char : Ascii.ascii := Ascii.ascii_of_nat 45.

(** Seconds since the epoch in decimal, the index codec of the examples. *)
Definition print_seconds (t : Timestamp) : string :=
  match Z.to_int t with
  | Decimal.Pos u => print_uint u
  | Decimal.Neg u => String minus_char (print_uint u)
  end.

Definition parse_seconds (s : string) : option Timestamp :=
  match s with
  | String c s' =>
      if Ascii.eqb c minus_char then (fun u => Z.of_int (Decimal.Neg u)) <$> parse_uint s'
      else (fun u => Z.of_int (Decimal.Pos u)) <$> parse_uint s
  | EmptyString => Some 0
  end.

Definition decimal_seconds : TimestampCodec.
Proof.
  refine {| print_timestamp := print_seconds; parse_timestamp := parse_seconds |}.
  intros t. rewrite <- (DecimalZ.of_to t) at 2. unfold print_seconds.
  destruct (Z.to_int t) as [u|u]; cbn [parse_seconds].
  - destruct u; cbn; rewrite ?parse_print_uint; reflexivity.
  - rewrite Ascii.eqb_refl, parse_print_uint. reflexivity.
Defined.

#[local] Existing Instance bool_cell.
#[local] Existing Instance decimal_seconds.

(** The fetched table of the first run: solar generation and the load. *)
Definition sample_frame : frame bool :=
  Frame [("Solar", "Actual Aggregated"); ("Load", EmptyString)]
        [(0, [Some true; None]); (900, [Some false; Some true])].

Lemma read_csv_frame_to_csv_witness :
  read_csv (frame_to_csv sample_frame) =
  inr (Table (tail (header_names (EmptyString :: map fst (columns sample_frame))))
             [(0, [Some true; None]); (900, [Some false; Some true])]).
Proof. apply read_csv_frame_to_csv; [done | repeat constructor]. Defined.

(** A file whose data line has one field less than the header. *)
Definition short_line_file : string :=
  String.append ",Solar,Load" (String newline (String.append ",," (String newline
    (String.append "0,True" (String newline EmptyString))))).

Lemma read_csv_wf_witness :
  read_csv (V:=bool) short_line_file = inr (Table ["Solar"; "Load"] [(0, [Some true; None])]) /\
  table_wf (Table ["Solar"; "Load"] [(0, [Some true; None])]).
Proof.
  assert (H : read_csv (V:=bool) short_line_file =
    inr (Table ["Solar"; "Load"] [(0, [Some true; None])])) by (vm_compute; reflexivity).
  split; [exact H|]. exact (read_csv_wf _ _ H).
Defined.

(** Written with one header line, the first row is not read back. *)
Example table_to_csv_first_row_lost :
  read_csv (table_to_csv (Table ["Solar"; "Load"] [(0, [Some true; None]); (900, [Some false; Some true])])) =
  inr (Table ["Solar"; "Load"] [(900, [Some false; Some true])]).
Proof. apply (read_csv_table_to_csv_drops_first (V:=bool)); [done | repeat constructor]. Qed.
