(* ===== verification/Collector.v ===== *)
(** * Collector: one run of [src/daily_data_lux.py] on the persisted file

    The script is a sequence of steps on the file [data/entsoe_lux.csv]:
    the API key check (lines 11-13), the read of the file (lines 29-31,
    [Csv.read_csv]), the fetch window (lines 32-39, [Reconcile.fetch_window]),
    the fetch and projection (lines 43-49, [Projection.build_result]), the
    merge (lines 51-60, [Reconcile.merge_update]) and the write (line 63,
    [Csv.frame_to_csv] or [Csv.table_to_csv]).

    The merge of lines 56-58 concatenates two tables whose column labels
    differ: the file read back has one level of labels (strings), the
    fetched table two (pairs). [pd.concat] aligns the rows on the union of
    the labels, those of [existing] first, then the new ones, a missing
    column being [NaN]; the union of strings and pairs is a one-level index,
    written with the [str] of each label, a pair as [('a', 'b')].

    [collector_run] returns the text written, or the error the script stops
    with. The row type is [list (option C)], the cells of a row in the order
    of the labels.

    The labels read back are strings, those fetched pairs, so the union
    never lines them up: every run adds the fetched columns anew
    ([collector_run_widens]), printed as tuples, and from the next run on the
    reader renames the repeated tuples [X.1], [X.2], ...

    [runs] chains runs, each on the text the previous one wrote. Under the
    API's promise [MarketClientLaws] (the generation rows and the load of a
    window start at its start or later; the load matters when the generation
    table has no rows, as [result] then takes the load's index), [collector_history_lost] shows where the loss
    of [collector_run_loses_earliest] leads: [readings_upto t] counts the
    readings at or before [t]. Each run drops one of them and fetches none
    back, so after as many runs as there were, the history holds none. *)

From stdpp Require Import strings.
From S2P Require Import Prelude Series Reconcile Projection Csv.

(** A column label of the concatenated table. *)
Inductive label := Flat (s : string) | Pair (a b : string).

#[export] Instance label_eq_dec : EqDecision label.
Proof. solve_decision. Defined.

Definition single_quote : Ascii.ascii := Ascii.ascii_of_nat 39.

(** [str] of a label: a pair prints as the tuple [('a', 'b')]. *)
Definition label_str (l : label) : string :=
  match l with
  | Flat s => s
  | Pair a b =>
      String.append "(" (String single_quote (String.append a (String single_quote
        (String.append ", " (String single_quote (String.append b (String single_quote ")")))))))
  end.

(** How the run stops. *)
Inductive run_error :=
  | MissingApiKey                   (** line 13, [ValueError] *)
  | ReadError (e : csv_error)       (** lines 29-31 *)
  | EmptyHistory                    (** lines 32-35 on a file without rows: [NaT] *)
  | FetchError (e : pandas_error).  (** lines 43-49 *)

(** Line 12: [if not API_KEY]: unset or empty. *)
Definition api_key_ok (k : option string) : bool :=
  match k with Some s => negb (String.eqb s EmptyString) | None => false end.

(** The position of a label. *)
Fixpoint label_position (c : label) (cols : list label) : option nat :=
  match cols with
  | [] => None
  | c' :: cols' => if decide (c = c') then Some 0%nat else S <$> label_position c cols'
  end.

(** Line 57, [pd.concat]: the labels of [existing], then the new ones. *)
Definition concat_columns (ecols rcols : list label) : list label :=
  ecols ++ List.filter (fun c => negb (bool_decide (c ∈ ecols))) rcols.

(** A row moved from its labels to the union: [NaN] where it has no column. *)
Definition align {C} (src dst : list label) (row : list (option C)) : list (option C) :=
  map (fun c => match label_position c src with Some i => mjoin (row !! i) | None => None end) dst.

Section Collector.
Context {C : Type} `{!CsvCell C, !TimestampCodec, !MarketClient C}.

(** Lines 11-63. *)
Definition collector_run (api_key : option string) (file : option string) (now tz_offset : Timestamp)
  : run_error + string :=
  if negb (api_key_ok api_key) then inl MissingApiKey else
  let existing :=
    match file with
    | None => inr None
    | Some text => match read_csv text with inl e => inl e | inr t => inr (Some t) end
    end in
  match existing with
  | inl e => inl (ReadError e)
  | inr ex =>
      match fetch_window (trows <$> ex) now tz_offset with
      | None => inl EmptyHistory
      | Some (start, end_) =>
          match build_result start end_ with
          | inl e => inl (FetchError e)
          | inr result =>
              match ex with
              | None => inr (frame_to_csv result)
              | Some t =>
                  let ecols := map Flat (tcolumns t) in
                  let rcols := map (fun c => Pair c.1 c.2) (columns result) in
                  let cols := concat_columns ecols rcols in
                  let e_rows := map (fun r => (r.1, align ecols cols r.2)) (trows t) in
                  let r_rows := map (fun r => (r.1, align rcols cols r.2)) (rows result) in
                  inr (table_to_csv (Table (map label_str cols) (merge_update e_rows r_rows)))
              end
          end
      end
  end.

(** Successive runs of the script on the persisted file, each on the text
    the previous one wrote. *)
Inductive runs (api_key : option string) (file : string) : nat -> string -> Prop :=
  | runs_done : runs api_key file 0 file
  | runs_step n file' file'' now tz_offset :
      runs api_key file n file' ->
      collector_run api_key (Some file') now tz_offset = inr file'' ->
      runs api_key file (S n) file''.

End Collector.

(** What the market API promises: the generation rows and the load of a
    window start at its start or later. *)
Class MarketClientLaws (C : Type) `{!MarketClient C} := {
  generation_after_start start end_ :
    Forall (fun row => start <= row.1) (rows (query_generation start end_));
  load_after_start start end_ :
    Forall (fun row => start <= row.1) (query_load start end_)
}.

(** The readings of a history at or before [t]. *)
Definition readings_upto {A} (t : Timestamp) (s : series A) : nat :=
  length (filter (fun k => k <= t) (index s)).

(** ** Lemmas *)

Lemma drop_duplicates_sublist {V} (s : series V) : drop_duplicates_keep_last s `sublist_of` s.
Proof.
  induction s as [|[k v] s IH]; cbn; [constructor|].
  destruct (existsb (Z.eqb k) (index s)); by constructor.
Qed.

(** Every row of the merge comes from one of the two tables. *)
Lemma merge_update_Forall {V} (P : Timestamp * V -> Prop) (e r : series V) :
  Forall P e -> Forall P r -> Forall P (merge_update e r).
Proof.
  intros He Hr. unfold merge_update. rewrite (sort_index_perm _).
  apply (Forall_sublist_of _ _ _ (drop_duplicates_sublist _)). apply Forall_app. split; [|done].
  exact (Forall_sublist_of _ _ _ (list_filter_sublist _ _) He).
Qed.

Lemma align_length {C} (src dst : list label) (row : list (option C)) :
  length (align src dst row) = length dst.
Proof. apply length_map. Qed.

Lemma concat_columns_nonempty ecols rcols : rcols <> [] -> concat_columns ecols rcols <> [].
Proof.
  intros Hr. unfold concat_columns. destruct ecols as [|c ecols]; [|done]. cbn.
  assert (Hf : forall l : list label, List.filter (fun c => negb (bool_decide (c ∈ []))) l = l).
  { induction l as [|c l IH]; [done|]. cbn.
    rewrite bool_decide_false by apply not_elem_of_nil. cbn. by rewrite IH. }
  by rewrite Hf.
Qed.

(** A printed pair is never one of the labels read back: [pd.concat] keeps
    every fetched column as a new one. *)
Lemma concat_columns_flat_pair (xs : list string) (ys : list (string * string)) :
  concat_columns (map Flat xs) (map (fun c => Pair c.1 c.2) ys) =
  map Flat xs ++ map (fun c => Pair c.1 c.2) ys.
Proof.
  unfold concat_columns. f_equal. induction ys as [|y ys IH]; [done|]. cbn.
  rewrite bool_decide_false, IH; [done|]. intros (x & [=] & _)%list_elem_of_fmap.
Qed.

Lemma assign_load_columns {C} (f f' : frame C) load :
  assign_load f load = inr f' -> columns f' <> [].
Proof.
  unfold assign_load. cbv zeta. destruct (_ || _); [intros [= <-]; apply set_load_column_columns|].
  destruct (index_is_unique _); [intros [= <-]; apply set_load_column_columns | done].
Qed.

Lemma build_result_columns {C} `{!MarketClient C} start end_ (result : frame C) :
  build_result start end_ = inr result -> columns result <> [].
Proof.
  unfold build_result. destruct (select_columns _ _); [done|]. apply assign_load_columns.
Qed.

Lemma map_nonempty {A B} (f : A -> B) (l : list A) : l <> [] -> map f l <> [].
Proof. by destruct l. Qed.

(** Under the API's promise, the rows of [result] are at or after the start
    of the window: they are the generation rows, or the load's when the
    generation table has none. *)
Lemma build_result_after_start {C} `{!MarketClient C, !MarketClientLaws C} start end_ (result : frame C) :
  build_result start end_ = inr result -> Forall (fun k => start <= k) (index (rows result)).
Proof.
  unfold build_result. destruct (select_columns _ _) as [|sel] eqn:E; [done|].
  apply select_columns_inr in E as (_ & _ & Hr). intros ->%assign_load_index.
  case_bool_decide; [|rewrite Hr, index_map_cells]; unfold index; apply Forall_fmap;
    [apply load_after_start | apply generation_after_start].
Qed.

(** Dropping the first row of an increasing history drops one reading at or
    before [t], if there is one. *)
Lemma readings_upto_tail {A} t (s : series A) :
  strictly_increasing s -> readings_upto t (tail s) = pred (readings_upto t s).
Proof.
  unfold readings_upto, strictly_increasing, index. destruct s as [|[k v] s]; [done|].
  cbn [tail]. rewrite fmap_cons. intros [_ Hall]%StronglySorted_inv. cbn [fst].
  rewrite filter_cons. case_decide; cbn [length]; [lia|].
  cbn [fst] in Hall. induction Hall as [|x l Hx _ IH]; [done|].
  rewrite filter_cons_False by lia. exact IH.
Qed.

(** Merging rows that all come after [t] adds no reading at or before [t]. *)
Lemma readings_upto_merge {A} t (e r : series A) :
  Forall (fun k => t < k) (index r) -> (readings_upto t (merge_update e r) <= readings_upto t e)%nat.
Proof.
  intros Hr. unfold readings_upto. apply NoDup_incl_length.
  - apply NoDup_ListNoDup, NoDup_filter, strictly_increasing_NoDup, merge_update_sorted.
  - intros k. rewrite <- !list_elem_of_In, !list_elem_of_filter.
    intros [Hk [He|Hk']%merge_update_index]; [done|].
    eapply Forall_forall in Hr; [|exact Hk']. lia.
Qed.

(** The latest timestamp after dropping the first row is at least any
    timestamp of the history, when a row is left. *)
Lemma index_max_tail {A} (s : series A) k m :
  strictly_increasing s -> k ∈ index s -> index_max (tail s) = Some m -> k <= m.
Proof.
  destruct s as [|[k0 v] s]; [by intros _ ?%not_elem_of_nil|].
  unfold strictly_increasing, index. rewrite fmap_cons.
  intros [_ Hall]%StronglySorted_inv Hk [Hm Hmax]%index_max_spec. cbn [tail] in *.
  apply elem_of_cons in Hk as [->|Hk]; [|by apply Hmax].
  eapply Forall_forall in Hall; [|exact Hm]. cbn in *. lia.
Qed.

(** ** Properties of a run *)

Section Runs.
Context {C : Type} `{!CsvCell C, !TimestampCodec, !MarketClient C}.

(** A successful run on a file: the history read, the window, the fetched
    table, and the merged rows written under one header line, whose next
    read skips the first. *)
Lemma collector_run_some api file now tz_offset text :
  collector_run api (Some file) now tz_offset = inr text ->
  exists tb start end_ result cols (e_rows r_rows : series (list (option C))),
    read_csv file = inr tb /\ fetch_window (Some (trows tb)) now tz_offset = Some (start, end_) /\
    build_result start end_ = inr result /\
    index e_rows = index (trows tb) /\ index r_rows = index (rows result) /\
    text = table_to_csv (Table cols (merge_update e_rows r_rows)) /\
    read_csv text = inr (Table (tail (header_names (EmptyString :: cols))) (tail (merge_update e_rows r_rows))) /\
    cols = map label_str (concat_columns (map Flat (tcolumns tb)) (map (fun c => Pair c.1 c.2) (columns result))).
Proof.
  unfold collector_run. destruct (api_key_ok api); [|done]. cbn [negb].
  destruct (read_csv file) as [e|t] eqn:Ht; [done|]. cbn [fmap option_fmap option_map].
  destruct (fetch_window (Some (trows t)) now tz_offset) as [[start end_]|] eqn:Hw; [|done].
  destruct (build_result start end_) as [e|result] eqn:B; [done|].
  cbv zeta. intros [= <-].
  eexists t, start, end_, result, _, _, _.
  split_and!; [done|done|done|apply index_map_cells|apply index_map_cells|reflexivity| |reflexivity].
  apply read_csv_table_to_csv_drops_first.
  - apply map_nonempty, concat_columns_nonempty, map_nonempty.
    by apply (build_result_columns start end_).
  - unfold table_wf. cbn [tcolumns trows]. rewrite length_map.
    apply merge_update_Forall; apply Forall_forall; intros r Hr;
      apply list_elem_of_fmap in Hr as [x [-> _]]; apply align_length.
Qed.

(** C27. Every run on an existing file writes the merged series, strictly
    increasing, under one line of labels (strings and printed pairs); the
    next run's [read_csv(header=0, skiprows=[1])] skips its first row: the
    earliest reading of the history is lost at each later run. *)
Theorem collector_run_loses_earliest api file now tz_offset text :
  collector_run api (Some file) now tz_offset = inr text ->
  exists cols rows, text = table_to_csv (Table cols rows) /\ strictly_increasing rows /\
    read_csv text = inr (Table (tail (header_names (EmptyString :: cols))) (tail rows)).
Proof.
  intros Hrun. apply collector_run_some in Hrun as (tb & start & end_ & result & cols & e_rows & r_rows
    & _ & _ & _ & _ & _ & -> & Hr & _).
  eexists _, _. split; [reflexivity|]. split; [apply merge_update_sorted|exact Hr].
Qed.

(** C29. Every successful run on an existing file makes it wider: the
    table read back next has one label per label of the history read, plus
    one per column of the fetched table. The fetched labels are pairs and
    those read back are strings, so [pd.concat] never lines them up: the
    fresh readings go to new columns at every run, printed as the tuple
    [('Solar', 'Actual Aggregated')] and, from the next run on, renamed by
    the reader to [('Solar', 'Actual Aggregated').1], [.2], ... *)
Theorem collector_run_widens api file now tz_offset text tb tb' :
  read_csv file = inr tb -> collector_run api (Some file) now tz_offset = inr text ->
  read_csv text = inr tb' ->
  exists start end_ result, build_result start end_ = inr result /\ columns result <> [] /\
    length (tcolumns tb') = (length (tcolumns tb) + length (columns result))%nat.
Proof.
  intros Hf Hrun Hr. apply collector_run_some in Hrun as (tb0 & start & end_ & result & cols & e_rows
    & r_rows & Hf' & _ & Hb & _ & _ & _ & Hread & ->).
  rewrite Hf in Hf'. injection Hf' as <-. rewrite Hr in Hread. injection Hread as ->.
  exists start, end_, result. split_and!; [done | by apply (build_result_columns start end_) |].
  cbn [tcolumns]. rewrite tail_header_names_length. cbn [tail].
  by rewrite concat_columns_flat_pair, length_map, length_app, !length_map.
Qed.

(** One run on a history whose latest reading is more than the overlap
    after [t]: the next history has one reading at or before [t] less (none
    when there was none), and its latest reading is still that late. *)
Lemma run_step_readings `{!MarketClientLaws C} api file now tz_offset text t tb :
  read_csv file = inr tb ->
  (forall m, index_max (trows tb) = Some m -> t < m - overlap_days * day) ->
  collector_run api (Some file) now tz_offset = inr text ->
  exists tb', read_csv text = inr tb' /\
    (readings_upto t (trows tb') <= pred (readings_upto t (trows tb)))%nat /\
    (forall m, index_max (trows tb') = Some m -> t < m - overlap_days * day).
Proof.
  intros Hf Hlate Hrun.
  apply collector_run_some in Hrun as (tb0 & start & end_ & result & cols & e_rows & r_rows
    & Hf' & Hw & Hb & He & Hr & _ & Hread & _).
  rewrite Hf in Hf'. injection Hf' as <-.
  unfold fetch_window in Hw. destruct (index_max (trows tb)) as [m|] eqn:Hm; [|done].
  injection Hw as <- _. specialize (Hlate m eq_refl).
  assert (Hafter : Forall (fun k => t < k) (index r_rows)).
  { rewrite Hr. eapply Forall_impl; [exact (build_result_after_start _ _ _ Hb)|].
    intros k Hk. cbn. unfold overlap_days, day in *. lia. }
  eexists. split; [exact Hread|]. cbn [trows]. split.
  - rewrite readings_upto_tail by apply merge_update_sorted.
    assert (readings_upto t e_rows = readings_upto t (trows tb)) as <-
      by (unfold readings_upto; by rewrite He).
    pose proof (readings_upto_merge t e_rows r_rows Hafter). lia.
  - intros m' Hm'.
    assert (Hme : index_max e_rows = Some m) by (unfold index_max in *; by rewrite He).
    destruct (merge_update_late_row e_rows r_rows m Hme) as (k & Hk & Hle).
    pose proof (index_max_tail _ k m' (merge_update_sorted _ _) Hk Hm'). lia.
Qed.

Lemma runs_readings `{!MarketClientLaws C} api n file0 file t tb0 :
  read_csv file0 = inr tb0 ->
  (forall m, index_max (trows tb0) = Some m -> t < m - overlap_days * day) ->
  runs api file0 n file ->
  exists tb, read_csv file = inr tb /\
    (readings_upto t (trows tb) <= readings_upto t (trows tb0) - n)%nat /\
    (forall m, index_max (trows tb) = Some m -> t < m - overlap_days * day).
Proof.
  intros H0 Hl0. induction 1 as [|n file' file'' now tz Hruns IH Hrun].
  - exists tb0. split_and!; [done|lia|done].
  - destruct IH as (tb & Hf & Hc & Hl).
    destruct (run_step_readings _ _ _ _ _ _ _ Hf Hl Hrun) as (tb' & Hf' & Hc' & Hl').
    exists tb'. split_and!; [done|lia|done].
Qed.

(** C5. Liveness of the loss: take a reading at or before [t], with [t]
    more than the five days of overlap before the latest reading of the
    file. As many successful runs as there are readings up to [t] leave none
    of them in the history the next run reads, whatever the clock and the
    market API return (rows at or after the window start): each run drops
    the earliest reading and no run fetches one that early again. *)
Theorem collector_history_lost `{!MarketClientLaws C} api n file0 file t tb0 tb m :
  read_csv file0 = inr tb0 -> index_max (trows tb0) = Some m -> t < m - overlap_days * day ->
  (readings_upto t (trows tb0) <= n)%nat -> runs api file0 n file -> read_csv file = inr tb ->
  readings_upto t (trows tb) = 0%nat.
Proof.
  intros H0 Hm Ht Hn Hruns Hf.
  destruct (runs_readings api n file0 file t tb0 H0) as (tb' & Hf' & Hc & _); [|done|].
  - intros m' Hm'. rewrite Hm in Hm'. by injection Hm' as <-.
  - rewrite Hf in Hf'. injection Hf' as <-. lia.
Qed.

End Runs.

(** ** Witnesses *)

#[local] Existing Instance bool_cell.
#[local] Existing Instance decimal_seconds.

(** A client reporting every production type and the load once, at the start
    of the window. *)
Definition bool_client : MarketClient bool := {|
  query_generation start _ :=
    Frame (map (fun l => (l, "Actual Aggregated")) production_types)
          [(start, map (fun _ => Some true) production_types)];
  query_load start _ := [(start, false)]
|}.

#[local] Existing Instance bool_client.

(** The file after the first run, and after a second run a day later. *)
Definition first_file : string :=
  match collector_run (Some "key") None 1700000000 0 with inr t => t | inl _ => EmptyString end.

Definition second_file : string :=
  match collector_run (Some "key") (Some first_file) 1700086400 0 with inr t => t | inl _ => EmptyString end.

Lemma collector_run_loses_earliest_witness :
  exists cols rows, second_file = table_to_csv (Table cols rows) /\ strictly_increasing rows /\
    read_csv second_file = inr (Table (tail (header_names (EmptyString :: cols))) (tail rows)).
Proof.
  apply (collector_run_loses_earliest (Some "key") first_file 1700086400 0).
  vm_compute. reflexivity.
Defined.

Definition read_table (file : string) : table bool :=
  match read_csv file with inr t => t | inl _ => Table [] [] end.

Lemma collector_run_widens_witness :
  exists start end_ result, build_result start end_ = inr result /\ columns result <> [] /\
    length (tcolumns (read_table second_file)) =
    (length (tcolumns (read_table first_file)) + length (columns result))%nat.
Proof.
  apply (collector_run_widens (Some "key") first_file 1700086400 0 second_file).
  - vm_compute. reflexivity.
  - vm_compute. reflexivity.
  - vm_compute. reflexivity.
Defined.

(** The header the third run reads: the fetched columns are printed pairs. *)
Example second_file_labels :
  take 2 (drop 8 (tcolumns (read_table second_file))) =
  ["('Hydro Run-of-river and poundage', 'Actual Aggregated')"; "('Biomass', 'Actual Aggregated')"].
Proof. vm_compute. reflexivity. Qed.

(** The second file holds two readings; the third run reads back one. *)
Example second_file_rows :
  match read_csv (V:=bool) second_file with inr t => length (trows t) | inl _ => 0%nat end = 1%nat.
Proof. vm_compute. reflexivity. Qed.

#[local] Instance bool_client_laws : MarketClientLaws bool.
Proof. constructor; intros start end_; (constructor; [cbn; lia|constructor]). Qed.

(** A history of four readings (the first one not read back), and the files
    after two later runs a day apart. *)
Definition history_file : string :=
  table_to_csv (V:=bool)
    (Table ["Solar"] [(0, [Some true]); (3600, [Some true]); (7200, [Some false]); (1000000, [Some true])]).

Definition run_file (file : string) (now : Timestamp) : string :=
  match collector_run (Some "key") (Some file) now 0 with inr t => t | inl _ => EmptyString end.

Definition history_after_two : string := run_file (run_file history_file 1086400) 1172800.

Lemma collector_history_lost_witness :
  readings_upto 7200 (trows (read_table history_after_two)) = 0%nat.
Proof.
  apply (collector_history_lost (Some "key") 2 history_file history_after_two 7200
    (read_table history_file) (read_table history_after_two) 1000000).
  - vm_compute. reflexivity.
  - vm_compute. reflexivity.
  - vm_compute. reflexivity.
  - vm_compute. lia.
  - apply (runs_step _ _ 1 (run_file history_file 1086400) _ 1172800 0);
      [apply (runs_step _ _ 0 history_file _ 1086400 0); [constructor|]|]; vm_compute; reflexivity.
  - vm_compute. reflexivity.
Defined.

(** The history read from the first file still holds two readings up to
    [7200]; after the two runs, none. *)
Example history_file_readings :
  readings_upto 7200 (trows (read_table history_file)) = 2%nat /\
  map fst (trows (read_table history_after_two)) = [568000; 1000000].
Proof. split; vm_compute; reflexivity. Qed.

(** After a third run the reader renames the repeated labels: the fresh
    readings sit in the columns [....1]. *)
Example third_run_labels :
  take 2 (drop 16 (tcolumns (read_table (run_file second_file 1700172800)))) =
  ["('Hydro Run-of-river and poundage', 'Actual Aggregated').1"; "('Biomass', 'Actual Aggregated').1"].
Proof. vm_compute. reflexivity. Qed.
