(* ===== verification/Regex.v ===== *)
(** * Regex: Python's [re] on the patterns of the dashboard

    [src/stroumauer_interface.py] scans the text of the energy-community PDF
    with [re.findall] (lines 254-261 and 304-305) and cuts fields with
    [Series.str.extract] (lines 311-312 and 316). This file models the part
    of Python's regular-expression engine ([sre]) these patterns use:
    character classes ([\d], [\s], [\S], ranges and their unions), sequence,
    alternation, numbered capturing groups, and the bounded or unbounded
    repetition of one character class, greedy or lazy ([{n}], [+], [*?]).

    The engine is the backtracking matcher of [sre], written in
    continuation-passing style: [match_re r k caps s] tries the ways [r] can
    match a prefix of [s] in the engine's order of preference (the left
    branch of an alternation first; a greedy repetition longest first, a lazy
    one shortest first) and returns the first answer the continuation [k]
    accepts for the rest. [search] tries the positions from left to right,
    [findall_loop] is the loop of [pattern_findall] with its [must_advance]
    flag after an empty match.

    A character is a Latin-1 code point, one [Ascii.ascii] (8 bits) per
    character: [\d] is [0-9], [\s] is [str.isspace] on Latin-1 ([\t] to
    [\r], [\x1c] to [\x20], [\x85], [\xa0]). Text with characters beyond
    U+00FF is outside the model.

    Theorems: [match_at_refines] (a match is a word of the language of the
    pattern followed by the rest, and a match is found whenever such a word
    exists), [findall_loop_terminates] (the loop stops within
    [2 * length + 2] iterations), and the equations of the engine used by
    [Cooperatives] and [Communities]. *)

From stdpp Require Import strings gmap.
From S2P Require Import Prelude Text.

Local Open Scope nat_scope.

(** ** Character classes *)

Definition code (c : Ascii.ascii) : nat := Ascii.nat_of_ascii c.

Inductive cset :=
  | CRange (lo hi : nat)      (** [[a-b]]; one character when [lo = hi] *)
  | CDigit                    (** [\d] *)
  | CSpace                    (** [\s] *)
  | CNotSpace                 (** [\S] *)
  | CUnion (a b : cset).      (** the items of one bracket *)

(** [str.isspace] on Latin-1. *)
Definition is_space_code (n : nat) : bool :=
  ((9 <=? n) && (n <=? 13)) || ((28 <=? n) && (n <=? 32)) || (n =? 133) || (n =? 160).

Fixpoint cset_mem (cs : cset) (c : Ascii.ascii) : bool :=
  match cs with
  | CRange lo hi => (lo <=? code c) && (code c <=? hi)
  | CDigit => (48 <=? code c) && (code c <=? 57)
  | CSpace => is_space_code (code c)
  | CNotSpace => negb (is_space_code (code c))
  | CUnion a b => cset_mem a c || cset_mem b c
  end.

(** One literal character. *)
Definition lit (n : nat) : cset := CRange n n.

(** ** Patterns *)

Inductive regex :=
  | Chr (cs : cset)                                   (** one character *)
  | Seq (r1 r2 : regex)
  | Alt (r1 r2 : regex)                               (** [r1|r2] *)
  | Group (n : nat) (r : regex)                       (** the [n]-th [( )] *)
  | Rep (cs : cset) (min : nat) (max : option nat) (greedy : bool).
      (** [cs{min,max}], lazy when [greedy] is false; [+] is [Rep cs 1 None true] *)

(** The groups of a match: the text each group matched last. *)
Abbreviation captures := (gmap nat string).

(** [pattern.groups]. *)
Fixpoint group_count (r : regex) : nat :=
  match r with
  | Chr _ | Rep _ _ _ _ => 0
  | Seq r1 r2 | Alt r1 r2 => group_count r1 + group_count r2
  | Group _ r1 => S (group_count r1)
  end.

(** ** The matcher *)

Section Matcher.
Context {A : Type}.

(** [REPEAT_ONE] (greedy) and [MIN_REPEAT_ONE] (lazy): one character of
    [cs] per iteration, at least [min], at most [max]; after each count the
    rest of the pattern ([k]) is tried. *)
Fixpoint rep_match (cs : cset) (min : nat) (max : option nat) (greedy : bool)
    (k : string -> option A) (s : string) {struct s} : option A :=
  match s with
  | EmptyString => match min with O => k s | S _ => None end
  | String c s' =>
      if negb (cset_mem cs c) || bool_decide (max = Some 0) then
        match min with O => k s | S _ => None end
      else
        match min with
        | S m => rep_match cs m (pred <$> max) greedy k s'
        | O =>
            if greedy then
              match rep_match cs 0 (pred <$> max) greedy k s' with
              | Some x => Some x
              | None => k s
              end
            else
              match k s with
              | Some x => Some x
              | None => rep_match cs 0 (pred <$> max) greedy k s'
              end
        end
  end.

Fixpoint match_re (r : regex) (k : captures -> string -> option A) (caps : captures)
    (s : string) : option A :=
  match r with
  | Chr cs =>
      match s with
      | String c s' => if cset_mem cs c then k caps s' else None
      | EmptyString => None
      end
  | Seq r1 r2 => match_re r1 (fun caps' s' => match_re r2 k caps' s') caps s
  | Alt r1 r2 =>
      match match_re r1 k caps s with
      | Some x => Some x
      | None => match_re r2 k caps s
      end
  | Group n r1 =>
      match_re r1 (fun caps' s' =>
        k (<[n := String.substring 0 (String.length s - String.length s') s]> caps') s') caps s
  | Rep cs min max greedy => rep_match cs min max greedy (k caps) s
  end.

End Matcher.

(** [SRE(match)] at one position: the groups and the rest of the text; with
    [must_advance] an empty match is refused (and the engine backtracks). *)
Definition match_at (r : regex) (must_advance : bool) (s : string) : option (captures * string) :=
  match_re r (fun caps rest =>
    if must_advance && (String.length rest =? String.length s) then None else Some (caps, rest)) ∅ s.

(** [SRE(search)]: the first position from which the pattern matches; the
    groups, the matched text and the rest. [must_advance] holds at the first
    position only. *)
Fixpoint search (r : regex) (must_advance : bool) (s : string) : option (captures * string * string) :=
  match match_at r must_advance s with
  | Some (caps, rest) => Some (caps, String.substring 0 (String.length s - String.length rest) s, rest)
  | None =>
      match s with
      | EmptyString => None
      | String _ s' => search r false s'
      end
  end.

(** [pattern_findall]: search, record the match, resume at its end, with
    [must_advance] after an empty match. [None]: the fuel ran out. *)
Fixpoint findall_loop (fuel : nat) (r : regex) (must_advance : bool) (s : string)
  : option (list (captures * string)) :=
  match fuel with
  | O => None
  | S fuel' =>
      match search r must_advance s with
      | None => Some []
      | Some (caps, m, rest) =>
          cons (caps, m) <$> findall_loop fuel' r (String.eqb m EmptyString) rest
      end
  end.

(** Enough iterations for any text ([findall_loop_terminates]). *)
Definition findall_fuel (s : string) : nat := 2 * String.length s + 2.

(** An item of [re.findall]: the whole match without groups, else the text
    of each group, [''] for a group that did not take part. *)
Definition findall_item (ngroups : nat) (m : captures * string) : list string :=
  match ngroups with
  | O => [m.2]
  | S _ => map (fun i => default EmptyString (m.1 !! i)) (seq 1 ngroups)
  end.

Definition re_findall (r : regex) (s : string) : list (list string) :=
  map (findall_item (group_count r)) (default [] (findall_loop (findall_fuel s) r false s)).

(** [re.search(r, s).group(1)], [None] when there is no match: what
    [Series.str.extract] with one group gives a cell ([NaN] for [None]). *)
Definition extract (r : regex) (s : string) : option string :=
  match search r false s with
  | Some (caps, _, _) => caps !! 1
  | None => None
  end.

(** ** The language of a pattern *)

(** [w] repeats [cs] between [min] and [max] times. *)
Inductive rep_word (cs : cset) : nat -> option nat -> string -> Prop :=
  | rep_nil max : rep_word cs 0 max EmptyString
  | rep_cons c w min max :
      cset_mem cs c = true -> max <> Some 0 ->
      rep_word cs (pred min) (pred <$> max) w -> rep_word cs min max (String c w).

Inductive in_re : regex -> string -> Prop :=
  | in_chr cs c : cset_mem cs c = true -> in_re (Chr cs) (String c EmptyString)
  | in_seq r1 r2 w1 w2 : in_re r1 w1 -> in_re r2 w2 -> in_re (Seq r1 r2) (String.append w1 w2)
  | in_alt_l r1 r2 w : in_re r1 w -> in_re (Alt r1 r2) w
  | in_alt_r r1 r2 w : in_re r2 w -> in_re (Alt r1 r2) w
  | in_group n r w : in_re r w -> in_re (Group n r) w
  | in_rep cs min max g w : rep_word cs min max w -> in_re (Rep cs min max g) w.

(** [t] is a word of the [n]-th group of [r]. *)
Fixpoint group_word (r : regex) (n : nat) (t : string) : Prop :=
  match r with
  | Chr _ | Rep _ _ _ _ => False
  | Seq r1 r2 | Alt r1 r2 => group_word r1 n t \/ group_word r2 n t
  | Group m r1 => (m = n /\ in_re r1 t) \/ group_word r1 n t
  end.

(** Group [n] lies on every path through [r]: every match sets it. *)
Fixpoint mandatory (r : regex) (n : nat) : bool :=
  match r with
  | Chr _ | Rep _ _ _ _ => false
  | Seq r1 r2 => mandatory r1 n || mandatory r2 n
  | Alt r1 r2 => mandatory r1 n && mandatory r2 n
  | Group m r1 => bool_decide (m = n) || mandatory r1 n
  end.

(** ** Pattern equivalence *)

(** Two patterns that behave the same under every continuation: the engine
    cannot tell them apart. *)
Definition re_equiv (r1 r2 : regex) : Prop :=
  forall A (k : captures -> string -> option A) caps s, match_re r1 k caps s = match_re r2 k caps s.

Infix "≡ᵣ" := re_equiv (at level 70) : stroum_scope.
Local Open Scope stroum_scope.

(** ** The engine refines the language *)

Section Sound.
Context {A : Type}.

Lemma rep_match_sound cs min max g (k : string -> option A) s x :
  rep_match cs min max g k s = Some x ->
  exists w s', s = String.append w s' /\ rep_word cs min max w /\ k s' = Some x.
Proof.
  revert min max. induction s as [|c s IH]; intros min max; cbn.
  { destruct min; [|done]. intros H. by exists EmptyString, EmptyString; split_and!; [|constructor|]. }
  (* stop here: no character taken *)
  assert (Hstop : k (String c s) = Some x -> exists w s',
      String c s = String.append w s' /\ rep_word cs 0 max w /\ k s' = Some x).
  { intros H. by exists EmptyString, (String c s); split_and!; [|constructor|]. }
  destruct (negb (cset_mem cs c) || bool_decide (max = Some 0)) eqn:Hb.
  { destruct min; [exact Hstop|done]. }
  apply orb_false_iff in Hb as [Hc Hm]. apply negb_false_iff in Hc.
  apply bool_decide_eq_false in Hm.
  (* take [c] and repeat on the rest *)
  assert (Htake : forall min, rep_match cs (pred min) (pred <$> max) g k s = Some x ->
      exists w s', String c s = String.append w s' /\ rep_word cs min max w /\ k s' = Some x).
  { intros m H. apply IH in H as (w & s' & -> & Hw & Hk).
    by exists (String c w), s'; split_and!; [|constructor|]. }
  destruct min as [|min]; [|exact (Htake (S min))].
  destruct g.
  - destruct (rep_match cs 0 _ true k s) eqn:E; [intros [= <-]; exact (Htake 0 E)|exact Hstop].
  - destruct (k (String c s)) eqn:E; [intros [= <-]; by apply Hstop|exact (Htake 0)].
Qed.

(** What the engine answers comes from a word of the pattern followed by the
    rest, with groups that are the old ones or words of the groups. *)
Lemma match_re_sound r (k : captures -> string -> option A) caps s x :
  match_re r k caps s = Some x ->
  exists w s' caps', s = String.append w s' /\ in_re r w /\ k caps' s' = Some x /\
    forall n t, caps' !! n = Some t -> caps !! n = Some t \/ group_word r n t.
Proof.
  revert k caps s x. induction r as [cs|r1 IH1 r2 IH2|r1 IH1 r2 IH2|n r1 IH|cs min max g];
    intros k caps s x; cbn.
  - destruct s as [|c s]; [done|]. destruct (cset_mem cs c) eqn:Hc; [|done]. intros H.
    exists (String c EmptyString), s, caps. split_and!; [done|by constructor|done|auto].
  - intros H. apply IH1 in H as (w1 & s1 & caps1 & -> & H1 & H & Hc1).
    apply IH2 in H as (w2 & s2 & caps2 & -> & H2 & H & Hc2).
    exists (String.append w1 w2), s2, caps2. rewrite append_assoc.
    split_and!; [done|by constructor|done|].
    intros m t Ht. destruct (Hc2 m t Ht) as [Ht'|Ht']; [|by right; right].
    destruct (Hc1 m t Ht') as [?|?]; [by left|by right; left].
  - destruct (match_re r1 k caps s) as [y|] eqn:E.
    + intros [= <-]. apply IH1 in E as (w & s' & caps' & -> & Hw & Hk & Hc).
      exists w, s', caps'. split_and!; [done|by constructor|done|].
      intros m t Ht. destruct (Hc m t Ht); [by left|by right; left].
    + intros H. apply IH2 in H as (w & s' & caps' & -> & Hw & Hk & Hc).
      exists w, s', caps'. split_and!; [done|by apply in_alt_r|done|].
      intros m t Ht. destruct (Hc m t Ht); [by left|by right; right].
  - intros H. apply IH in H as (w & s' & caps' & -> & Hw & Hk & Hc).
    rewrite substring_before_suffix in Hk.
    exists w, s', (<[n := w]> caps'). split_and!; [done|by constructor|done|].
    intros m t Ht. destruct (decide (m = n)) as [->|Hmn].
    + rewrite lookup_insert_eq in Ht. injection Ht as <-. right. by left.
    + rewrite lookup_insert_ne in Ht by congruence.
      destruct (Hc m t Ht); [by left|by right; right].
  - intros H. apply rep_match_sound in H as (w & s' & -> & Hw & Hk).
    exists w, s', caps. split_and!; [done|by constructor|done|auto].
Qed.

Lemma rep_match_complete cs min max g (k : string -> option A) w s :
  rep_word cs min max w -> is_Some (k s) -> is_Some (rep_match cs min max g k (String.append w s)).
Proof.
  intros Hw Hk. induction Hw as [max|c w min max Hc Hmax Hw IH]; cbn.
  - destruct Hk as [y Hk]. change (String.append EmptyString s) with s.
    destruct s as [|c s]; cbn; [by rewrite Hk|].
    destruct (negb (cset_mem cs c) || bool_decide (max = Some 0)); [by rewrite Hk|].
    destruct g; [destruct (rep_match cs 0 (pred <$> max) true k s); [done|by rewrite Hk]|by rewrite Hk].
  - rewrite append_cons. cbn. rewrite Hc. cbn. rewrite bool_decide_false by done.
    destruct min as [|min]; cbn in IH; [|done]. destruct g; [by destruct IH as [? ->]|].
    destruct (k (String c (String.append w s))); [done|exact IH].
Qed.

Lemma match_re_complete r w (k : captures -> string -> option A) caps s :
  in_re r w -> (forall caps', is_Some (k caps' s)) -> is_Some (match_re r k caps (String.append w s)).
Proof.
  intros Hw. revert k caps s. induction Hw as [cs c Hc|r1 r2 w1 w2 H1 IH1 H2 IH2|r1 r2 w H IH
    |r1 r2 w H IH|n r w H IH|cs min max g w Hw]; intros k caps s Hk; cbn.
  - change (String.append (String c EmptyString) s) with (String c s). cbn. rewrite Hc. apply Hk.
  - rewrite append_assoc. apply IH1. intros caps'. by apply IH2.
  - by destruct (IH k caps s Hk) as [? ->].
  - destruct (match_re r1 k caps _); [done|]. by apply IH.
  - apply IH. intros caps'. apply Hk.
  - by apply rep_match_complete.
Qed.

End Sound.

(** The continuation of [match_at]. *)
(** A match keeps the groups already set and sets the mandatory ones. *)
Lemma match_re_captures {A} r (k : captures -> string -> option A) caps s x :
  match_re r k caps s = Some x ->
  exists caps' s', k caps' s' = Some x /\ (forall n, is_Some (caps !! n) -> is_Some (caps' !! n)) /\
    (forall n, mandatory r n = true -> is_Some (caps' !! n)).
Proof.
  revert k caps s x. induction r as [cs|r1 IH1 r2 IH2|r1 IH1 r2 IH2|m r1 IH|cs min max g];
    intros k caps s x; cbn [match_re mandatory].
  - destruct s as [|c s]; [done|]. destruct (cset_mem cs c); [|done]. intros H.
    by exists caps, s.
  - intros H. apply IH1 in H as (caps1 & s1 & H & Hm1 & Hg1).
    apply IH2 in H as (caps2 & s2 & H & Hm2 & Hg2).
    exists caps2, s2. split_and!; [done|auto|]. intros n [Hn|Hn]%orb_true_iff; auto.
  - destruct (match_re r1 k caps s) eqn:E.
    + intros [= <-]. apply IH1 in E as (caps' & s' & H & Hm & Hg).
      exists caps', s'. split_and!; [done|done|]. intros n [Hn _]%andb_true_iff. auto.
    + intros H. apply IH2 in H as (caps' & s' & H & Hm & Hg).
      exists caps', s'. split_and!; [done|done|]. intros n [_ Hn]%andb_true_iff. auto.
  - intros H. apply IH in H as (caps1 & s1 & H & Hm & Hg). eexists _, s1.
    split_and!; [exact H| |].
    + intros n Hn. apply lookup_insert_is_Some'. auto.
    + intros n [Hn|Hn]%orb_true_iff; apply lookup_insert_is_Some'; [|auto].
      left. by apply bool_decide_eq_true in Hn.
  - intros H. apply rep_match_sound in H as (w & s' & _ & _ & H). by exists caps, s'.
Qed.

Lemma match_at_sound r adv s caps rest :
  match_at r adv s = Some (caps, rest) ->
  exists w, s = String.append w rest /\ in_re r w /\ (adv = true -> w <> EmptyString) /\
    (forall n t, caps !! n = Some t -> group_word r n t) /\
    (forall n, mandatory r n = true -> is_Some (caps !! n)).
Proof.
  unfold match_at. intros H. pose proof (match_re_captures _ _ _ _ _ H) as (caps'' & s'' & Hk' & _ & Hg).
  apply match_re_sound in H as (w & s' & caps' & -> & Hw & Hk & Hc).
  destruct (adv && _) eqn:Ha; [done|]. injection Hk as <- <-.
  exists w. split_and!; [done|done| | |].
  - intros -> ->. cbn in Ha. rewrite length_append in Ha. apply Nat.eqb_neq in Ha. cbn in Ha. lia.
  - intros n t Ht. by destruct (Hc n t Ht) as [Ht'|?]; [rewrite lookup_empty in Ht'|].
  - revert Hk'. case_match; [done|]. intros [= <- _]. exact Hg.
Qed.

(** The match found at a position is a word of the pattern followed by the
    rest, and a match is found whenever the text starts with such a word. *)
Theorem match_at_refines r s :
  (forall caps rest, match_at r false s = Some (caps, rest) ->
     exists w, s = String.append w rest /\ in_re r w) /\
  ((exists w rest, s = String.append w rest /\ in_re r w) -> is_Some (match_at r false s)).
Proof.
  split.
  - intros caps rest H. apply match_at_sound in H as (w & ? & ? & _). by exists w.
  - intros (w & rest & -> & Hw). unfold match_at. by apply match_re_complete.
Qed.

(** ** [search] and the loop of [findall] *)

Lemma search_unfold r adv s :
  search r adv s =
  match match_at r adv s with
  | Some (caps, rest) => Some (caps, String.substring 0 (String.length s - String.length rest) s, rest)
  | None => match s with EmptyString => None | String _ s' => search r false s' end
  end.
Proof. by destruct s. Qed.

(** The text is what [search] skipped, the match, and the rest; a
    [must_advance] search does not answer an empty match where it starts. *)
Lemma search_shape r adv s caps m rest :
  search r adv s = Some (caps, m, rest) ->
  exists skipped, s = String.append skipped (String.append m rest) /\ in_re r m /\
    (adv = true -> skipped = EmptyString -> m <> EmptyString) /\
    (forall n t, caps !! n = Some t -> group_word r n t) /\
    (forall n, mandatory r n = true -> is_Some (caps !! n)).
Proof.
  (* an answer at the first position *)
  assert (Here : forall adv s caps rest, match_at r adv s = Some (caps, rest) ->
    exists skipped, s = String.append skipped
        (String.append (String.substring 0 (String.length s - String.length rest) s) rest) /\
      in_re r (String.substring 0 (String.length s - String.length rest) s) /\
      (adv = true -> skipped = EmptyString ->
         String.substring 0 (String.length s - String.length rest) s <> EmptyString) /\
      (forall n t, caps !! n = Some t -> group_word r n t) /\
      (forall n, mandatory r n = true -> is_Some (caps !! n))).
  { intros adv' s' caps' rest' E. apply match_at_sound in E as (w & -> & Hw & Ha & Hc & Hg).
    rewrite substring_before_suffix. exists EmptyString.
    split_and!; [reflexivity|done|intros ? _; by apply Ha|done|done]. }
  revert adv. induction s as [|c s IH]; intros adv; rewrite search_unfold;
    (destruct (match_at r adv _) as [[caps' rest']|] eqn:E; [intros [= <- <- <-]; exact (Here _ _ _ _ E)|]).
  - done.
  - intros H. apply IH in H as (sk & -> & Hm & _ & Hc & Hg).
    exists (String c sk). split_and!; [reflexivity|done|by intros _ ?|done|done].
Qed.

(** The variant of the loop: twice the length of the text, and one more
    unless an empty match was just found. *)
Definition loop_measure (adv : bool) (s : string) : nat :=
  2 * String.length s + (if adv then 1 else 2).

Lemma search_progress r adv s caps m rest :
  search r adv s = Some (caps, m, rest) ->
  loop_measure (String.eqb m EmptyString) rest < loop_measure adv s.
Proof.
  intros H. apply search_shape in H as (sk & -> & _ & Ha & _).
  unfold loop_measure. rewrite !length_append.
  destruct m as [|c m]; cbn [String.eqb String.length].
  - destruct sk as [|c sk]; cbn [String.length]; [|destruct adv; lia].
    destruct adv; [by destruct (Ha eq_refl eq_refl)|]. lia.
  - destruct adv; lia.
Qed.

Lemma loop_measure_pos adv s : 0 < loop_measure adv s.
Proof. unfold loop_measure. destruct adv; lia. Qed.

(** The loop stops: from the variant on, it answers, and more fuel does not
    change the answer. *)
Theorem findall_loop_terminates r adv s :
  exists res, forall n, loop_measure adv s <= n -> findall_loop n r adv s = Some res.
Proof.
  remember (loop_measure adv s) as mu eqn:Hmu. revert adv s Hmu.
  induction mu as [mu IH] using lt_wf_ind. intros adv s ->.
  destruct (search r adv s) as [[[caps m] rest]|] eqn:E.
  - pose proof (search_progress _ _ _ _ _ _ E) as Hlt.
    destruct (IH _ Hlt _ _ eq_refl) as [res Hres].
    exists ((caps, m) :: res). intros [|n] Hn; [lia|]. cbn [findall_loop].
    rewrite E, Hres; [done|lia].
  - exists []. intros [|n] Hn; [pose proof (loop_measure_pos adv s); lia|].
    cbn [findall_loop]. by rewrite E.
Qed.

(** [search] finds a match when some position starts a word of the pattern. *)
Lemma search_complete r sk w rest :
  in_re r w -> is_Some (search r false (String.append sk (String.append w rest))).
Proof.
  intros Hw. induction sk as [|c sk IH].
  - change (String.append EmptyString ?x) with x. rewrite search_unfold.
    assert (is_Some (match_at r false (String.append w rest))) as [[caps r'] ->]
      by (by apply match_re_complete).
    done.
  - rewrite append_cons, search_unfold. destruct (match_at r false _) as [[? ?]|]; [done|exact IH].
Qed.

(** Every item [findall] records is a match of the pattern, with its groups. *)
Lemma findall_loop_sound n r adv s ms :
  findall_loop n r adv s = Some ms ->
  Forall (fun cm => in_re r cm.2 /\ (forall k t, cm.1 !! k = Some t -> group_word r k t) /\
    (forall k, mandatory r k = true -> is_Some (cm.1 !! k))) ms.
Proof.
  revert adv s ms. induction n as [|n IH]; intros adv s ms; [done|]. cbn [findall_loop].
  destruct (search r adv s) as [[[caps m] rest]|] eqn:E; [|by intros [= <-]].
  destruct (findall_loop n r _ rest) as [ms'|] eqn:E'; [|done]. intros [= <-].
  apply search_shape in E as (sk & _ & Hm & _ & Hg & Hmand).
  constructor; [done|]. exact (IH _ _ _ E').
Qed.

(** The items of [re.findall], with the groups of their match. *)
Lemma re_findall_elem r s item :
  item ∈ re_findall r s ->
  exists caps m, item = findall_item (group_count r) (caps, m) /\ in_re r m /\
    (forall k t, caps !! k = Some t -> group_word r k t) /\
    (forall k, mandatory r k = true -> is_Some (caps !! k)).
Proof.
  unfold re_findall. intros ([caps m] & -> & Hin)%list_elem_of_fmap.
  destruct (findall_loop _ r false s) as [ms|] eqn:E; [|by apply not_elem_of_nil in Hin].
  apply findall_loop_sound in E. eapply Forall_forall in E; [|exact Hin].
  exists caps, m. by destruct E as (? & ? & ?).
Qed.

(** [cs{n}] is [n] characters of [cs]. *)
Lemma rep_word_exact cs n w :
  rep_word cs n (Some n) w -> String.length w = n /\
  Forall (fun c => cset_mem cs c = true) (String.list_ascii_of_string w).
Proof.
  enough (H : forall min max, rep_word cs min max w -> max = Some min -> String.length w = min /\
    Forall (fun c => cset_mem cs c = true) (String.list_ascii_of_string w)) by eauto.
  intros min max Hw. induction Hw as [max|c w min max Hc Hmax Hw IH]; intros ->; [done|].
  destruct min as [|min]; [done|]. destruct (IH eq_refl) as [Hl Hall].
  split; [cbn; lia|by constructor].
Qed.

Lemma in_re_seq_inv r1 r2 w :
  in_re (Seq r1 r2) w -> exists w1 w2, w = String.append w1 w2 /\ in_re r1 w1 /\ in_re r2 w2.
Proof. inversion 1; subst. eauto. Qed.

Lemma in_re_chr_inv cs w : in_re (Chr cs) w -> exists c, w = String c EmptyString /\ cset_mem cs c = true.
Proof. inversion 1; subst. eauto. Qed.

Lemma in_re_rep_inv cs min max g w : in_re (Rep cs min max g) w -> rep_word cs min max w.
Proof. by inversion 1. Qed.

(** [str.extract] answers when the text contains a word of the pattern and
    group 1 is mandatory: the text of group 1 is a word of that group. *)
Lemma extract_some r s sk w rest :
  mandatory r 1 = true -> s = String.append sk (String.append w rest) -> in_re r w ->
  exists p, extract r s = Some p /\ group_word r 1 p.
Proof.
  intros Hm -> Hw. unfold extract.
  destruct (search_complete r sk w rest Hw) as [[[caps m] rest'] E]. rewrite E.
  apply search_shape in E as (_ & _ & _ & _ & Hg & Hmand).
  destruct (Hmand 1 Hm) as [p Hp]. rewrite Hp. exists p. split; [done|]. by apply Hg.
Qed.

(** [re.findall] as the engine runs it refines the language of the
    pattern: every item it returns comes from a match that is a word of the
    pattern, each group holding a word of that group; and it returns at least
    one item whenever the text contains a word of the pattern. *)
Theorem re_findall_refines r s :
  (forall item, item ∈ re_findall r s -> exists caps m,
     item = findall_item (group_count r) (caps, m) /\ in_re r m /\
     forall k t, caps !! k = Some t -> group_word r k t) /\
  ((exists sk w rest, s = String.append sk (String.append w rest) /\ in_re r w) -> re_findall r s <> []).
Proof.
  split.
  - intros item (caps & m & -> & Hm & Hg & _)%re_findall_elem. eauto.
  - intros (sk & w & rest & -> & Hw). unfold re_findall.
    destruct (search_complete r sk w rest Hw) as [[[caps m] rest'] E].
    set (x := String.append sk (String.append w rest)) in *.
    destruct (findall_loop_terminates r false x) as [res Hres].
    assert (Hf : findall_loop (S (2 * String.length x + 1)) r false x = Some res)
      by (apply Hres; unfold loop_measure; lia).
    replace (findall_fuel x) with (S (2 * String.length x + 1)) by (unfold findall_fuel; lia).
    rewrite Hf. cbn [findall_loop] in Hf. rewrite E in Hf.
    destruct (findall_loop _ r _ rest') in Hf; [|done]. injection Hf as <-. done.
Qed.

(** [re.findall] always answers: its loop stops within
    [findall_fuel s = 2 * length s + 2] iterations (2 per character, 2 more:
    [loop_measure] decreases at each match), more fuel does not change the
    answer, and [re_findall] is the list of those matches. *)
Theorem re_findall_total r s :
  exists res, (forall n, findall_fuel s <= n -> findall_loop n r false s = Some res) /\
    re_findall r s = map (findall_item (group_count r)) res.
Proof.
  destruct (findall_loop_terminates r false s) as [res Hres]. exists res. split; [exact Hres|].
  unfold re_findall. rewrite Hres; [done|unfold findall_fuel, loop_measure; lia].
Qed.

(** ** Pattern equivalence is a congruence *)

Section Ext.
Context {A : Type}.

Lemma rep_match_ext cs min max g (k1 k2 : string -> option A) s :
  (forall s', k1 s' = k2 s') -> rep_match cs min max g k1 s = rep_match cs min max g k2 s.
Proof.
  intros Hk. revert min max. induction s as [|c s IH]; intros min max; cbn; [by rewrite Hk|].
  destruct (negb _ || _); [by rewrite Hk|]. destruct min; [|apply IH].
  by destruct g; rewrite IH, Hk.
Qed.

Lemma match_re_ext r (k1 k2 : captures -> string -> option A) caps s :
  (forall caps' s', k1 caps' s' = k2 caps' s') -> match_re r k1 caps s = match_re r k2 caps s.
Proof.
  revert k1 k2 caps s. induction r as [cs|r1 IH1 r2 IH2|r1 IH1 r2 IH2|n r1 IH|cs min max g];
    intros k1 k2 caps s Hk; cbn.
  - destruct s; [done|]. by rewrite Hk.
  - apply IH1. intros. by apply IH2.
  - by rewrite (IH1 k1 k2), (IH2 k1 k2).
  - apply IH. intros. apply Hk.
  - by apply rep_match_ext.
Qed.

End Ext.

#[export] Instance re_equiv_equivalence : Equivalence re_equiv.
Proof.
  split.
  - by intros r A k caps s.
  - intros r1 r2 H A k caps s. by rewrite H.
  - intros r1 r2 r3 H12 H23 A k caps s. by rewrite H12, H23.
Qed.

#[export] Instance Seq_proper : Proper (re_equiv ==> re_equiv ==> re_equiv) Seq.
Proof.
  intros r1 r1' H1 r2 r2' H2 A k caps s. cbn. rewrite H1.
  apply match_re_ext. intros. apply H2.
Qed.

#[export] Instance Alt_proper : Proper (re_equiv ==> re_equiv ==> re_equiv) Alt.
Proof. intros r1 r1' H1 r2 r2' H2 A k caps s. cbn. by rewrite H1, H2. Qed.

#[export] Instance Group_proper n : Proper (re_equiv ==> re_equiv) (Group n).
Proof. intros r r' H A k caps s. cbn. apply H. Qed.

(** [cs{n+1}] is one [cs] followed by [cs{n}]. *)
Lemma rep_exact_S cs n g : Rep cs (S n) (Some (S n)) g ≡ᵣ Seq (Chr cs) (Rep cs n (Some n) g).
Proof.
  intros A k caps [|c s]; cbn; [done|].
  destruct (cset_mem cs c); cbn; [by rewrite bool_decide_false|done].
Qed.

(** [cs{0}] matches the empty word only. *)
Lemma rep_exact_0 cs g r : Seq r (Rep cs 0 (Some 0) g) ≡ᵣ r.
Proof.
  intros A k caps s. cbn. apply match_re_ext. intros caps' [|c s']; cbn; [done|].
  by rewrite orb_true_r.
Qed.

Lemma rep_exact_0_l cs g r : Seq (Rep cs 0 (Some 0) g) r ≡ᵣ r.
Proof. intros A k caps [|c s]; cbn; [done|]. by rewrite orb_true_r. Qed.

Lemma Seq_assoc r1 r2 r3 : Seq (Seq r1 r2) r3 ≡ᵣ Seq r1 (Seq r2 r3).
Proof. by intros A k caps s. Qed.

(** Unfold the fixed repetitions [cs{n}] of a pattern into [n] characters. *)
Ltac re_unfold_exact :=
  repeat first [rewrite rep_exact_0_l | rewrite rep_exact_0 | rewrite rep_exact_S | rewrite Seq_assoc].

(** Equivalent patterns with as many groups have the same [findall]. *)
Lemma re_findall_equiv r1 r2 s :
  r1 ≡ᵣ r2 -> group_count r1 = group_count r2 -> re_findall r1 s = re_findall r2 s.
Proof.
  intros H Hg. unfold re_findall. rewrite Hg. do 2 f_equal.
  assert (Hs : forall adv t, search r1 adv t = search r2 adv t).
  { intros adv t. revert adv. induction t as [|c t IH]; intros adv;
      rewrite (search_unfold r1 adv), (search_unfold r2 adv); unfold match_at; rewrite H; [done|].
    destruct (match_re r2 _ _ _) as [[? ?]|]; [done|apply IH]. }
  generalize false, s, (findall_fuel s). intros adv t n. revert adv t.
  induction n as [|n IH]; intros adv t; [done|]. cbn [findall_loop].
  rewrite Hs. destruct (search r2 adv t) as [[[? ?] ?]|]; [by rewrite IH|done].
Qed.
