(* ===== verification/Cooperatives.v ===== *)
(** * Cooperatives: the cumulative number of energy communities per month

    [src/stroumauer_interface.py] lines 238-295 read the text of the ILR PDF
    (PyPDF2, one page after the other, each followed by a newline; any
    failure leaves the text empty), collect every date written
    [dd/mm/yyyy], [dd.mm.yyyy] or [yyyy-mm-dd] with [re.findall], parse each
    with the three formats in turn (a date no format accepts is skipped),
    count the dates per month ([Counter], then [sort_index]), accumulate the
    counts ([cumsum]) and spread them over every month from the first to the
    last ([reindex(..., method='ffill').fillna(0)]).

    The text is a [string] of bytes: the patterns are ASCII, so scanning bytes
    finds what scanning characters finds ([\d] is taken as an ASCII digit).
    A date is the triple (year, month, day); [pd.to_datetime] accepts it when
    it is a day of the proleptic Gregorian calendar with a year from 1 whose
    midnight, counted in nanoseconds since 1970 in a signed 64-bit integer,
    does not overflow: [days_from_civil] computes the day number, and
    [in_ns_range] is the [int64] bound. A month is numbered [year * 12 +
    month - 1]; for the four-digit years that pass the bound, the order of
    these numbers is the order of the ['%Y-%m'] labels pandas sorts. The
    counts per month are [Installations.group_sum] over the [Z] keys.

    The scanner [find_dates] is written for the three fixed-length patterns;
    [find_dates_re_findall] proves it equal to [Regex.re_findall] of the
    patterns as the source writes them ([date_regexes]), through the setoid
    [Regex.re_equiv] that unfolds [\d{n}] into [n] characters. *)

From stdpp Require Import strings gmap.
From S2P Require Import Prelude Text Series Scraper Installations Regex.

Local Open Scope stroum_scope.

(** Months are ordered as numbers. *)
#[export] Instance Z_group_key : GroupKey Z.
Proof.
  refine {| key_compare := Z.compare |}.
  - apply Z.compare_eq_iff.
  - intros k1 k2. apply Z.compare_antisym.
  - intros k1 k2 k3. rewrite !Z.compare_lt_iff. lia.
Defined.

(** ** Lines 238-249: the text of the PDF *)

(** [None]: opening or reading the PDF raised, the text is empty. *)
Definition pdf_text (pages : option (list string)) : string :=
  match pages with
  | Some ps => foldr (fun p acc => String.append p (String (Ascii.ascii_of_nat 10) acc)) EmptyString ps
  | None => EmptyString
  end.

(** ** Lines 254-261: [re.findall] of the three date patterns *)

Inductive token := Digit | Lit (c : Ascii.ascii).

Definition is_digit (c : Ascii.ascii) : bool :=
  (48 <=? Ascii.nat_of_ascii c)%nat && (Ascii.nat_of_ascii c <=? 57)%nat.

Definition slash : Ascii.ascii := Ascii.ascii_of_nat 47.
Definition dot : Ascii.ascii := Ascii.ascii_of_nat 46.
Definition dash : Ascii.ascii := Ascii.ascii_of_nat 45.

(** Whether the pattern matches at the start of the string. *)
Fixpoint matches_prefix (pat : list token) (s : string) : bool :=
  match pat, s with
  | [], _ => true
  | Digit :: pat', String c s' => is_digit c && matches_prefix pat' s'
  | Lit l :: pat', String c s' => Ascii.eqb c l && matches_prefix pat' s'
  | _ :: _, EmptyString => false
  end.

(** [re.findall] of a fixed-length pattern: scan left to right, take each
    match and resume after it; [skip] counts the characters of the last
    match still to pass. *)
Fixpoint findall_from (pat : list token) (skip : nat) (s : string) : list string :=
  match s with
  | EmptyString => []
  | String _ s' =>
      match skip with
      | S k => findall_from pat k s'
      | O =>
          if matches_prefix pat s
          then String.substring 0 (length pat) s :: findall_from pat (length pat - 1) s'
          else findall_from pat 0 s'
      end
  end.

Definition findall (pat : list token) (s : string) : list string := findall_from pat 0 s.

(** [r'(\d{2}/\d{2}/\d{4})'], [r'(\d{2}\.\d{2}\.\d{4})'], [r'(\d{4}-\d{2}-\d{2})']. *)
Definition date_patterns : list (list token) :=
  [[Digit; Digit; Lit slash; Digit; Digit; Lit slash; Digit; Digit; Digit; Digit];
   [Digit; Digit; Lit dot; Digit; Digit; Lit dot; Digit; Digit; Digit; Digit];
   [Digit; Digit; Digit; Digit; Lit dash; Digit; Digit; Lit dash; Digit; Digit]].

(** Lines 259-261: the matches of the first pattern, then the second, then
    the third. *)
Definition find_dates (text : string) : list string :=
  flat_map (fun pat => findall pat text) date_patterns.

(** The same three patterns as [re] reads them: [\d{2}] and [\d{4}] are
    repetitions of [\d], the separators literal characters, the whole a
    group. *)
Definition d2 : regex := Rep CDigit 2 (Some 2%nat) true.
Definition d4 : regex := Rep CDigit 4 (Some 4%nat) true.

Definition date_regexes : list regex :=
  [Group 1 (Seq d2 (Seq (Chr (lit 47)) (Seq d2 (Seq (Chr (lit 47)) d4))));
   Group 1 (Seq d2 (Seq (Chr (lit 46)) (Seq d2 (Seq (Chr (lit 46)) d4))));
   Group 1 (Seq d4 (Seq (Chr (lit 45)) (Seq d2 (Seq (Chr (lit 45)) d2))))].

(** A token pattern as a pattern of the engine. *)
Definition token_cset (t : token) : cset :=
  match t with Digit => CDigit | Lit c => lit (code c) end.

Fixpoint tokens_re (t : token) (ts : list token) : regex :=
  match ts with
  | [] => Chr (token_cset t)
  | t' :: ts' => Seq (Chr (token_cset t)) (tokens_re t' ts')
  end.

(** ** Lines 263-270: [pd.to_datetime(d, format=fmt)] *)

Definition is_leap (y : Z) : bool :=
  (Z.eqb (y mod 4) 0 && negb (Z.eqb (y mod 100) 0)) || Z.eqb (y mod 400) 0.

Definition days_in_month (y m : Z) : Z :=
  if Z.eqb m 2 then (if is_leap y then 29 else 28)
  else if Z.eqb m 4 || Z.eqb m 6 || Z.eqb m 9 || Z.eqb m 11 then 30 else 31.

(** A day of the calendar, with a year from 1 as [datetime] requires. *)
Definition valid_date (y m d : Z) : bool :=
  (1 <=? y) && (1 <=? m) && (m <=? 12) && (1 <=? d) && (d <=? days_in_month y m).

(** The number of the day since 1970-01-01 (the civil-from-days algorithm
    inverted: March-based years grouped in eras of 400 years). *)
Definition days_from_civil (y m d : Z) : Z :=
  let y' := if m <=? 2 then y - 1 else y in
  let era := y' / 400 in
  let yoe := y' - era * 400 in
  let mp := if 2 <? m then m - 3 else m + 9 in
  let doy := (153 * mp + 2) / 5 + d - 1 in
  let doe := yoe * 365 + yoe / 4 - yoe / 100 + doy in
  era * 146097 + doe - 719468.

Definition int64_min : Z := - 2 ^ 63.
Definition int64_max : Z := 2 ^ 63 - 1.
Definition ns_per_day : Z := 86400 * 10 ^ 9.

(** A [Timestamp] is a signed 64-bit count of nanoseconds: midnight of the
    day must not overflow ([OutOfBoundsDatetime]). *)
Definition in_ns_range (days : Z) : bool :=
  (int64_min <=? days * ns_per_day) && (days * ns_per_day <=? int64_max).

Inductive fmt_token := FDay | FMonth | FYear | FLit (c : Ascii.ascii).

(** [n] decimal digits as a number. *)
Fixpoint read_digits (n : nat) (s : string) (acc : Z) : option (Z * string) :=
  match n with
  | O => Some (acc, s)
  | S n' =>
      match s with
      | String c s' =>
          if is_digit c then read_digits n' s' (acc * 10 + (Z.of_nat (Ascii.nat_of_ascii c) - 48))
          else None
      | EmptyString => None
      end
  end.

(** [strptime] on the dates the patterns match: two digits for [%d] and
    [%m], four for [%Y], the separators literally, nothing left over. *)
Fixpoint parse_fmt (fmt : list fmt_token) (s : string) (y m d : Z) : option (Z * Z * Z) :=
  match fmt with
  | [] => match s with EmptyString => Some (y, m, d) | _ => None end
  | FDay :: f => match read_digits 2 s 0 with Some (v, s') => parse_fmt f s' y m v | None => None end
  | FMonth :: f => match read_digits 2 s 0 with Some (v, s') => parse_fmt f s' y v d | None => None end
  | FYear :: f => match read_digits 4 s 0 with Some (v, s') => parse_fmt f s' v m d | None => None end
  | FLit c :: f =>
      match s with
      | String c' s' => if Ascii.eqb c' c then parse_fmt f s' y m d else None
      | EmptyString => None
      end
  end.

(** ['%d/%m/%Y'], ['%d.%m.%Y'], ['%Y-%m-%d']. *)
Definition date_formats : list (list fmt_token) :=
  [[FDay; FLit slash; FMonth; FLit slash; FYear];
   [FDay; FLit dot; FMonth; FLit dot; FYear];
   [FYear; FLit dash; FMonth; FLit dash; FDay]].

Definition to_datetime_fmt (fmt : list fmt_token) (s : string) : option (Z * Z * Z) :=
  match parse_fmt fmt s 1900 1 1 with
  | Some (y, m, d) =>
      if valid_date y m d && in_ns_range (days_from_civil y m d) then Some (y, m, d) else None
  | None => None
  end.

(** The first format that accepts the string; [None]: every attempt raised. *)
Fixpoint first_parse (fmts : list (list fmt_token)) (s : string) : option (Z * Z * Z) :=
  match fmts with
  | [] => None
  | f :: fs => match to_datetime_fmt f s with Some dt => Some dt | None => first_parse fs s end
  end.

Definition parse_date (s : string) : option (Z * Z * Z) := first_parse date_formats s.

Definition parsed_dates (text : string) : list (Z * Z * Z) := omap parse_date (find_dates text).

(** ** Lines 271-295: counts per month, cumulated and spread *)

(** [dt.strftime('%Y-%m')] as a month number. *)
Definition month_index (dt : Z * Z * Z) : Z := dt.1.1 * 12 + (dt.1.2 - 1).

(** Lines 273-275: [Counter(months)] sorted by month. *)
Definition month_counts (ms : list Z) : list (Z * Z) :=
  group_sum (map (fun m => (Some m, Some 1)) ms).

(** Line 277: [cumsum]. *)
Fixpoint cumsum_from (acc : Z) (gs : list (Z * Z)) : list (Z * Z) :=
  match gs with
  | [] => []
  | (k, c) :: gs' => (k, acc + c) :: cumsum_from (acc + c) gs'
  end.

(** [reindex(..., method='ffill')] at one label: the value at the last label
    not after it, [None] ([NaN]) before the first. *)
Fixpoint ffill (cs : list (Z * Z)) (m : Z) : option Z :=
  match cs with
  | [] => None
  | (k, v) :: cs' =>
      match ffill cs' m with
      | Some v' => Some v'
      | None => if k <=? m then Some v else None
      end
  end.

(** [pd.date_range(start, end, freq='MS')]: every month from one to the other. *)
Definition month_range (lo hi : Z) : list Z := seqZ lo (hi - lo + 1).

(** Lines 277-281. *)
Definition cumulative_months (ms : list Z) : list (Z * Z) :=
  let cum := cumsum_from 0 (month_counts ms) in
  match cum with
  | [] => cum
  | (first, _) :: _ =>
      let final := default first (fst <$> last cum) in
      map (fun m => (m, default 0 (ffill cum m))) (month_range first final)
  end.

(** What the page shows: lines 295, 293, or the chart of lines 283-291. *)
Inductive coop_view := NoTextInfo | NoDatesInfo | CoopChart (points : list (Z * Z)).

Definition cooperatives_view (pages : option (list string)) : coop_view :=
  let text := pdf_text pages in
  if String.eqb text EmptyString then NoTextInfo
  else match parsed_dates text with
       | [] => NoDatesInfo
       | ds => CoopChart (cumulative_months (map month_index ds))
       end.

(** ** Specification *)

(** The number of dates up to a month, and the chart it should give: every
    month from the earliest to the latest date, with that number. *)
Definition months_upto (ms : list Z) (m : Z) : Z :=
  Z.of_nat (length (List.filter (fun x => x <=? m) ms)).

Definition cumulative_reference (ms : list Z) : list (Z * Z) :=
  match ms with
  | [] => []
  | m0 :: ms' => map (fun m => (m, months_upto ms m)) (month_range (foldl Z.min m0 ms') (foldl Z.max m0 ms'))
  end.

(** ** Lemmas *)

(** *** The scanner and the engine *)

(** The source's patterns are the token patterns, as the engine sees them. *)
Lemma date_regexes_tokens :
  Forall2 (fun r pat => match pat with
    | t :: ts => r ≡ᵣ Group 1 (tokens_re t ts) /\ group_count r = 1%nat
    | [] => False end) date_regexes date_patterns.
Proof.
  unfold date_regexes, date_patterns, d2, d4.
  repeat (apply Forall2_cons; split); [..|done]. all: split.
  all: first [reflexivity | cbn [tokens_re token_cset]; re_unfold_exact; reflexivity].
Qed.

Lemma token_cset_mem t c :
  cset_mem (token_cset t) c = match t with Digit => is_digit c | Lit l => Ascii.eqb c l end.
Proof.
  destruct t as [|l]; [done|]. cbn. unfold code.
  destruct (Ascii.eqb_spec c l) as [->|Hne]; [by rewrite Nat.leb_refl|].
  destruct (Nat.leb_spec (Ascii.nat_of_ascii l) (Ascii.nat_of_ascii c)),
    (Nat.leb_spec (Ascii.nat_of_ascii c) (Ascii.nat_of_ascii l)); [|done..].
  exfalso. apply Hne. rewrite <- (Ascii.ascii_nat_embedding c), <- (Ascii.ascii_nat_embedding l).
  f_equal. lia.
Qed.

Lemma matches_prefix_length pat s :
  matches_prefix pat s = true -> (length pat <= String.length s)%nat.
Proof.
  revert s. induction pat as [|t pat IH]; intros [|c s]; cbn [matches_prefix String.length length];
    [lia|lia|by destruct t|].
  intros H. destruct t; apply andb_true_iff in H as [_ H]; apply IH in H; lia.
Qed.

(** The engine on a token pattern is [matches_prefix]. *)
Lemma match_tokens {A} t ts (k : captures -> string -> option A) caps s :
  match_re (tokens_re t ts) k caps s =
  if matches_prefix (t :: ts) s then k caps (sdrop (length (t :: ts)) s) else None.
Proof.
  revert t k caps s. induction ts as [|t' ts IH]; intros t k caps [|c s];
    cbn [tokens_re match_re]; [by destruct t| |by destruct t|];
    rewrite token_cset_mem; destruct t; cbn [matches_prefix];
    [destruct (is_digit c)|destruct (Ascii.eqb c _)|destruct (is_digit c)|destruct (Ascii.eqb c _)];
    try done; by rewrite IH.
Qed.

Lemma tokens_re_groups t ts : group_count (tokens_re t ts) = 0%nat.
Proof. revert t. induction ts as [|t' ts IH]; intros t; [done|]. exact (IH t'). Qed.

Lemma search_tokens t ts s :
  search (Group 1 (tokens_re t ts)) false s =
  if matches_prefix (t :: ts) s
  then Some (<[1%nat := String.substring 0 (length (t :: ts)) s]> ∅,
             String.substring 0 (length (t :: ts)) s, sdrop (length (t :: ts)) s)
  else match s with EmptyString => None | String _ s' => search (Group 1 (tokens_re t ts)) false s' end.
Proof.
  rewrite search_unfold. unfold match_at. cbn [match_re]. rewrite match_tokens.
  destruct (matches_prefix (t :: ts) s) eqn:E; [|done].
  apply matches_prefix_length in E. cbn [andb]. rewrite length_sdrop.
  by replace (String.length s - (String.length s - length (t :: ts)))%nat with (length (t :: ts)) by lia.
Qed.

Lemma findall_from_skip pat k s : findall_from pat k s = findall_from pat 0 (sdrop k s).
Proof.
  revert k. induction s as [|c s IH]; intros [|k]; try done. cbn [findall_from sdrop]. apply IH.
Qed.

Lemma findall_loop_tokens t ts n s :
  (String.length s < n)%nat ->
  findall_loop n (Group 1 (tokens_re t ts)) false s =
  Some (map (fun m => (<[1%nat := m]> ∅, m)) (findall_from (t :: ts) 0 s)).
Proof.
  remember (String.length s) as L eqn:HL. revert s n HL.
  induction L as [L IH] using lt_wf_ind. intros s [|n] -> Hn; [lia|].
  cbn [findall_loop]. rewrite search_tokens.
  destruct (matches_prefix (t :: ts) s) eqn:E.
  - pose proof (matches_prefix_length _ _ E) as Hlen. destruct s as [|c s]; [cbn in Hlen; lia|].
    cbn [findall_from]. rewrite E, findall_from_skip.
    cbn [String.substring length String.eqb sdrop].
    assert (Hd : (String.length (sdrop (length ts) s) < String.length (String c s))%nat)
      by (rewrite length_sdrop; cbn [String.length length] in *; lia).
    rewrite (IH _ Hd (sdrop (length ts) s) n eq_refl).
    { by replace (S (length ts) - 1)%nat with (length ts) by lia. }
    rewrite length_sdrop. cbn [String.length length] in *; lia.
  - destruct s as [|c s]; [done|]. cbn [findall_from]. rewrite E.
    specialize (IH (String.length s) ltac:(cbn; lia) s (S n) eq_refl ltac:(cbn in Hn; lia)).
    cbn [findall_loop] in IH. exact IH.
Qed.

Lemma re_findall_tokens t ts s :
  re_findall (Group 1 (tokens_re t ts)) s = map (fun d => [d]) (findall (t :: ts) s).
Proof.
  unfold re_findall, findall. cbn [group_count]. rewrite tokens_re_groups.
  rewrite findall_loop_tokens by (unfold findall_fuel; lia).
  change (default [] (Some ?l)) with l. rewrite map_map. apply map_ext. intros m. unfold findall_item. cbn.
  by rewrite lookup_insert_eq.
Qed.

Lemma flat_map_findall_equiv rs pats text :
  Forall2 (fun r pat => match pat with
    | t :: ts => r ≡ᵣ Group 1 (tokens_re t ts) /\ group_count r = 1%nat
    | [] => False end) rs pats ->
  map (fun d => [d]) (flat_map (fun pat => findall pat text) pats) =
  flat_map (fun r => re_findall r text) rs.
Proof.
  induction 1 as [|r pat rs pats Hp _ IH]; [done|].
  destruct pat as [|t ts]; [done|]. destruct Hp as [Hr Hg].
  cbn [flat_map]. rewrite map_app, IH, (re_findall_equiv _ _ _ Hr), re_findall_tokens; [done|].
  cbn [group_count]. by rewrite Hg, tokens_re_groups.
Qed.

(** *** Dates and the [int64] range *)

(** The days whose midnight fits a signed 64-bit count of nanoseconds. *)
Lemma in_ns_range_iff days : in_ns_range days = true <-> -106751 <= days <= 106751.
Proof.
  unfold in_ns_range. rewrite andb_true_iff, !Z.leb_le.
  change int64_min with (-9223372036854775808). change int64_max with 9223372036854775807.
  change ns_per_day with 86400000000000. lia.
Qed.

Lemma to_datetime_fmt_sound f s y m d :
  to_datetime_fmt f s = Some (y, m, d) -> valid_date y m d = true /\ in_ns_range (days_from_civil y m d) = true.
Proof.
  unfold to_datetime_fmt. destruct (parse_fmt f s 1900 1 1) as [[[y' m'] d']|]; [|done].
  destruct (valid_date y' m' d' && in_ns_range _) eqn:E; [|done].
  intros [= <- <- <-]. by apply andb_true_iff in E.
Qed.

Lemma first_parse_sound fmts s dt : first_parse fmts s = Some dt -> exists f, to_datetime_fmt f s = Some dt.
Proof.
  induction fmts as [|f fmts IH]; [done|]. cbn.
  destruct (to_datetime_fmt f s) eqn:E; [intros [= <-]; by exists f|exact IH].
Qed.

Lemma month_rows_sum m ms :
  sum_rows (fun k => k <=? m) (map (fun x => (Some x, Some 1)) ms) = months_upto ms m.
Proof.
  induction ms as [|x ms IH]; [done|]. unfold months_upto in *. cbn [map List.filter].
  unfold sum_rows in *. cbn [foldr fst snd]. rewrite IH.
  destruct (x <=? m); cbn [length default id]; lia.
Qed.

Lemma month_counts_sorted ms : StronglySorted Z.lt (month_counts ms).*1.
Proof.
  destruct (group_sum_lookup_sorted (map (fun m => (Some m, Some 1)) ms)) as [Hs _].
  fold (month_counts ms) in Hs. unfold groups_sorted in Hs.
  induction Hs as [|[k c] gs _ IH Hall]; constructor; [done|].
  apply Forall_fmap. eapply Forall_impl; [exact Hall|]. intros [k' c'] H.
  by apply Z.compare_lt_iff.
Qed.

Lemma month_counts_keys ms x : x ∈ (month_counts ms).*1 <-> x ∈ ms.
Proof.
  destruct (group_sum_lookup_sorted (map (fun m => (Some m, Some 1)) ms)) as [Hs Hl].
  fold (month_counts ms) in Hs, Hl.
  assert (Hp : key_present (map (fun m => (Some m, Some 1)) ms) x = true <-> x ∈ ms).
  { unfold key_present. rewrite existsb_exists. split.
    - intros (r & Hr & Hx). apply in_map_iff in Hr as (y & <- & Hy).
      apply key_eqb_true in Hx as ->. by apply list_elem_of_In.
    - intros Hx. exists (Some x, Some 1). split; [|apply key_eqb_refl].
      apply in_map_iff. exists x. split; [done|]. by apply list_elem_of_In. }
  rewrite <- Hp, list_elem_of_fmap. split.
  - intros [[k c] [-> Hin]]. apply group_lookup_elem in Hin; [|done].
    rewrite Hl in Hin. cbn. by destruct (key_present _ k).
  - intros Hx. specialize (Hl x). rewrite Hx in Hl.
    exists (x, key_total (map (fun m => (Some m, Some 1)) ms) x). split; [done|].
    by apply group_lookup_elem.
Qed.

Lemma cumsum_keys acc gs : (cumsum_from acc gs).*1 = gs.*1.
Proof.
  revert acc. induction gs as [|[k c] gs IH]; intros acc; [done|]. cbn. by rewrite IH.
Qed.

Lemma sum_keys_none (P : Z -> bool) gs : existsb P gs.*1 = false -> sum_keys P gs = 0.
Proof.
  induction gs as [|[k c] gs IH]; [done|]. cbn. intros [-> Hr]%orb_false_iff.
  fold (sum_keys P gs). rewrite IH by done. lia.
Qed.

(** Forward filling the cumulated counts gives, at a month, the total of the
    counts up to it. *)
Lemma ffill_cumsum acc gs m :
  StronglySorted Z.lt gs.*1 ->
  ffill (cumsum_from acc gs) m =
  if existsb (fun k => k <=? m) gs.*1 then Some (acc + sum_keys (fun k => k <=? m) gs) else None.
Proof.
  revert acc. induction gs as [|[k c] gs IH]; intros acc Hs; [done|].
  cbn in Hs. apply StronglySorted_inv in Hs as [Hs Hall].
  cbn [cumsum_from ffill]. rewrite IH by done. cbn [fmap list_fmap existsb fst snd].
  unfold sum_keys at 2. cbn [foldr fst snd]. fold (sum_keys (fun k => k <=? m) gs).
  destruct (existsb (fun k => k <=? m) gs.*1) eqn:E.
  - apply existsb_exists in E as (k' & Hk' & Hle). apply list_elem_of_In in Hk'.
    eapply Forall_forall in Hall; [|exact Hk'].
    assert (Hk : (k <=? m) = true) by (apply Z.leb_le in Hle; apply Z.leb_le; lia).
    rewrite Hk. cbn. f_equal. lia.
  - rewrite sum_keys_none by done. destruct (k <=? m); cbn; [f_equal; lia|done].
Qed.

Lemma sorted_head_le (k0 : Z) l : StronglySorted Z.lt (k0 :: l) -> forall y, y ∈ k0 :: l -> k0 <= y.
Proof.
  intros [_ Hall]%StronglySorted_inv y [->|Hy]%elem_of_cons; [lia|].
  eapply Forall_forall in Hall; [|exact Hy]. lia.
Qed.

Lemma sorted_last_ge (l : list Z) x : StronglySorted Z.lt l -> last l = Some x -> forall y, y ∈ l -> y <= x.
Proof.
  induction 1 as [|k l Hs IH Hall]; [done|]. rewrite last_cons.
  destruct (last l) as [x'|] eqn:E.
  - intros [= ->] y [->|Hy]%elem_of_cons; [|by apply IH].
    apply last_Some_elem_of in E. eapply Forall_forall in Hall; [|exact E]. lia.
  - apply last_None in E as ->. intros [= ->] y [->|[]%elem_of_nil]%elem_of_cons. lia.
Qed.

(** The first month counted is the earliest date's, the last the latest's. *)
Lemma month_counts_bounds m0 ms :
  exists c0 rest, month_counts (m0 :: ms) = (foldl Z.min m0 ms, c0) :: rest /\
    last (month_counts (m0 :: ms)).*1 = Some (foldl Z.max m0 ms).
Proof.
  pose proof (month_counts_sorted (m0 :: ms)) as Hs.
  pose proof (month_counts_keys (m0 :: ms)) as Hk.
  destruct (foldl_min_spec m0 ms) as [Hmin Hmin_le], (foldl_max_spec m0 ms) as [Hmax Hmax_ge].
  rewrite Forall_forall in Hmin_le, Hmax_ge.
  destruct (month_counts (m0 :: ms)) as [|[k0 c0] rest] eqn:E.
  { exfalso. pose proof (proj2 (Hk m0) (list_elem_of_here _ _)) as H. cbn in H.
    by apply elem_of_nil in H. }
  exists c0, rest. cbn in Hs, Hk |- *. split.
  - do 2 f_equal. apply Z.le_antisymm.
    + apply (sorted_head_le k0 rest.*1); [done|]. by apply Hk.
    + apply Hmin_le, Hk, list_elem_of_here.
  - destruct (last (k0 :: rest.*1)) as [kl|] eqn:L.
    + f_equal. apply Z.le_antisymm.
      * apply Hmax_ge, Hk. by apply last_Some_elem_of in L.
      * eapply sorted_last_ge; [exact Hs|exact L|]. by apply Hk.
    + by apply last_None in L.
Qed.

(** ** Properties of the chart *)

(** C28. The chart equals the direct count: counting the dates per month,
    accumulating, and forward filling over every month from the first to the
    last gives, for each month from the earliest date's to the latest's, the
    number of dates up to that month. *)
Theorem cumulative_months_reference ms : cumulative_months ms = cumulative_reference ms.
Proof.
  destruct ms as [|m0 ms]; [reflexivity|].
  destruct (month_counts_bounds m0 ms) as (c0 & rest & Hgs & Hlast).
  pose proof (month_counts_sorted (m0 :: ms)) as Hs.
  unfold cumulative_months, cumulative_reference. cbv zeta.
  rewrite Hgs. cbn [cumsum_from].
  change ((foldl Z.min m0 ms, 0 + c0) :: cumsum_from (0 + c0) rest) with
    (cumsum_from 0 ((foldl Z.min m0 ms, c0) :: rest)).
  rewrite <- Hgs, <- fmap_last, cumsum_keys, Hlast. cbn [default fmap option_fmap option_map].
  apply map_ext_in. intros m Hm. apply list_elem_of_In, elem_of_seqZ in Hm.
  f_equal. rewrite ffill_cumsum by done.
  assert (Hsum : sum_keys (fun k => k <=? m) (month_counts (m0 :: ms)) = months_upto (m0 :: ms) m).
  { unfold month_counts. rewrite group_sum_sum_keys. apply month_rows_sum. }
  assert (Hex : existsb (fun k => k <=? m) (month_counts (m0 :: ms)).*1 = true).
  { rewrite Hgs. cbn. apply orb_true_iff. left. apply Z.leb_le. lia. }
  by rewrite Hex, Hsum.
Qed.

(** The date scanner of lines 254-261 is [re.findall]: for every text,
    the dates [find_dates] finds are, pattern by pattern and in text order,
    the matches Python's backtracking engine gives for the three patterns as
    written in the source ([\d{2}/\d{2}/\d{4}], [\d{2}\.\d{2}\.\d{4}],
    [\d{4}-\d{2}-\d{2}], each one group). *)
Theorem find_dates_re_findall text :
  map (fun d => [d]) (find_dates text) = flat_map (fun r => re_findall r text) date_regexes.
Proof. apply flat_map_findall_equiv, date_regexes_tokens. Qed.

(** Every date [parse_date] accepts (lines 263-270) is a day of the
    calendar whose midnight, counted in nanoseconds since 1970 as pandas'
    [Timestamp] does, fits a signed 64-bit integer: its day number lies
    between those of 1677-09-22 and 2262-04-11; the dates outside raise
    [OutOfBoundsDatetime] and are dropped. *)
Theorem parse_date_int64_bounds s y m d :
  parse_date s = Some (y, m, d) ->
  valid_date y m d = true /\
  days_from_civil 1677 9 22 <= days_from_civil y m d <= days_from_civil 2262 4 11 /\
  int64_min <= days_from_civil y m d * ns_per_day <= int64_max.
Proof.
  intros H. apply first_parse_sound in H as [f H]. apply to_datetime_fmt_sound in H as [Hv Hr].
  split; [done|]. pose proof Hr as Hr'. apply in_ns_range_iff in Hr'.
  unfold in_ns_range in Hr. apply andb_true_iff in Hr as [H1 H2]. apply Z.leb_le in H1, H2.
  assert (E1 : days_from_civil 1677 9 22 = -106751) by (vm_compute; reflexivity).
  assert (E2 : days_from_civil 2262 4 11 = 106751) by (vm_compute; reflexivity).
  rewrite E1, E2. remember (days_from_civil y m d) as D. split; [lia|split; assumption].
Qed.

Lemma parse_date_int64_bounds_witness :
  valid_date 1677 9 22 = true /\
  days_from_civil 1677 9 22 <= days_from_civil 1677 9 22 <= days_from_civil 2262 4 11 /\
  int64_min <= days_from_civil 1677 9 22 * ns_per_day <= int64_max.
Proof. apply (parse_date_int64_bounds "22/09/1677"). vm_compute. reflexivity. Defined.

(** ** Examples *)

(** Two communities notified in January 2024, on a page whose footer carries
    the publication date: the footer date is counted as a third community. *)
Example cooperatives_count_footer_dates :
  cooperatives_view (Some ["CE Mamer 12/01/2024 CE Bertrange 2024-01-20"; "Publication 01.02.2024"]) =
  CoopChart [(2024 * 12 + 0, 2); (2024 * 12 + 1, 3)].
Proof. vm_compute. reflexivity. Qed.

(** The [int64] bound: the first and the last days pandas accepts. *)
Example parse_date_bounds :
  map parse_date ["21/09/1677"; "22/09/1677"; "11/04/2262"; "12/04/2262"] =
  [None; Some (1677, 9, 22); Some (2262, 4, 11); None].
Proof. vm_compute. reflexivity. Qed.
