(* ===== verification/Communities.v ===== *)
(** * Communities: the map of energy communities by postcode

    [src/stroumauer_interface.py] lines 297-343. On the text of the PDF
    ([Cooperatives.pdf_text]) the dashboard runs [re.findall] of one pattern
    with three groups: a name (letters, Latin-1 letters, digits, [-] and
    spaces), whitespace, a lazy stretch holding [L-] and four digits (the
    seat, "Siège social"), and a date in one of the three formats
    ([community_pattern]). Each match is a row; its postcode is the first
    [L-dddd] of the seat, then the four digits of that ([postcode_of], lines
    311-312). The address table, keyed by the first four digits of its
    [code_postal] and deduplicated on that key keeping the first row
    (lines 316-317), is joined on the postcode (line 318, a left join in
    which [NaN] keys match), and rows without coordinates are dropped
    (line 320). The hover columns are three fixed names plus those of three
    extra names present among the columns (lines 323-326).

    The address CSV (line 315) enters as its rows: the [str] of the
    [code_postal] cell and the two coordinates, [None] being [NaN], of a
    parameter type [C]. The conversion of the date column (line 313) only
    feeds the hover text and is not modelled: the date stays the text the
    pattern matched. *)

From stdpp Require Import strings gmap.
From S2P Require Import Prelude Text Regex Cooperatives.

Local Open Scope nat_scope.

(** ** The pattern of line 304 *)

(** [[A-Za-zÀ-ÿ0-9\- ]]. *)
Definition name_cs : cset :=
  CUnion (CRange 65 90) (CUnion (CRange 97 122) (CUnion (CRange 192 255)
    (CUnion (CRange 48 57) (CUnion (lit 45) (lit 32))))).

(** [[\s\S]]: any character. *)
Definition any_cs : cset := CUnion CSpace CNotSpace.

(** [L-\d{4}]. *)
Definition lpost : regex := Seq (Chr (lit 76)) (Seq (Chr (lit 45)) d4).

(** [[\s\S]*?L-\d{4}[\s\S]*?]. *)
Definition seat_re : regex :=
  Seq (Rep any_cs 0 None false) (Seq lpost (Rep any_cs 0 None false)).

(** [\d{2}/\d{2}/\d{4}|\d{2}\.\d{2}\.\d{4}|\d{4}-\d{2}-\d{2}]. *)
Definition date_alt : regex :=
  Alt (Alt (Seq d2 (Seq (Chr (lit 47)) (Seq d2 (Seq (Chr (lit 47)) d4))))
           (Seq d2 (Seq (Chr (lit 46)) (Seq d2 (Seq (Chr (lit 46)) d4)))))
      (Seq d4 (Seq (Chr (lit 45)) (Seq d2 (Seq (Chr (lit 45)) d2)))).

Definition community_pattern : regex :=
  Seq (Group 1 (Rep name_cs 1 None true))
    (Seq (Rep CSpace 1 None true) (Seq (Group 2 seat_re) (Group 3 date_alt))).

(** ** Lines 305-313: the rows *)

Record community := Community {
  community_name : string;   (** ['Community'] *)
  seat : string;             (** ['Siège social'] *)
  date_text : string         (** ['Date'], as matched *)
}.

Definition to_community (item : list string) : community :=
  Community (default EmptyString (item !! 0)) (default EmptyString (item !! 1))
    (default EmptyString (item !! 2)).

(** Lines 305 and 309. *)
Definition communities (text : string) : list community :=
  map to_community (re_findall community_pattern text).

(** [(L-\d{4})] and [(\d{4})]. *)
Definition postcode_re : regex := Group 1 lpost.
Definition digits4_re : regex := Group 1 d4.

(** Lines 311-312: [str.extract] twice; [NaN] stays [NaN]. *)
Definition postcode_of (s : string) : option string :=
  extract postcode_re s ≫= extract digits4_re.

(** ** Lines 315-320: the join with the addresses *)

Section Join.
Context {C : Type}.

Record address := Address {
  code_postal : string;      (** [str] of the cell *)
  lat_wgs84 : option C;
  lon_wgs84 : option C
}.

(** Line 316, then the three columns of line 317. *)
Definition address_key (a : address) : option string * (option C * option C) :=
  (extract digits4_re (code_postal a), (lat_wgs84 a, lon_wgs84 a)).

(** Line 317, [drop_duplicates('postcode')]: the first row of each key,
    [NaN] being one key. *)
Fixpoint drop_duplicates_first (seen : list (option string))
    (rows : list (option string * (option C * option C))) : list (option string * (option C * option C)) :=
  match rows with
  | [] => []
  | r :: rs =>
      if bool_decide (r.1 ∈ seen) then drop_duplicates_first seen rs
      else r :: drop_duplicates_first (r.1 :: seen) rs
  end.

(** Line 318, [pd.merge(..., left_on='Postcode', right_on='postcode',
    how='left')]: each community, in order, with every address row of its
    key, or with [NaN] coordinates. *)
Definition merge_postcodes (left : list (community * option string))
    (right : list (option string * (option C * option C))) : list (community * option string * option C * option C) :=
  flat_map (fun l =>
    match List.filter (fun r => bool_decide (r.1 = l.2)) right with
    | [] => [(l.1, l.2, None, None)]
    | ms => map (fun r => (l.1, l.2, r.2.1, r.2.2)) ms
    end) left.

(** Line 320. *)
Definition dropna_latlon (rows : list (community * option string * option C * option C))
  : list (community * option string * option C * option C) :=
  List.filter (fun r => bool_decide (is_Some r.1.2) && bool_decide (is_Some r.2)) rows.

End Join.

Arguments address : clear implicits.

(** The columns of [df_communities] after the join. *)
Definition community_columns : list string := Eval vm_compute in
  map latin1 ["Community"; "Siège social"; "Date"; "Postcode"; "postcode"; "lat_wgs84"; "lon_wgs84"].

(** Lines 323-326. *)
Definition hover_cols (cols : list string) : list string :=
  map latin1 ["Postcode"; "Date"; "Siège social"] ++
  List.filter (fun c => bool_decide (c ∈ cols))
    (map latin1 ["Nom de la Communauté énergétique"; "Date de la dernière notification"; "Raison sociale"]).

(** What the page shows: nothing (line 299), the info of line 343, or the map
    of lines 327-341 with its points and hover columns. *)
Inductive community_view {C} :=
  | NoMapSection
  | NoCommunitiesInfo
  | CommunityMap (points : list (community * option string * option C * option C)) (hover : list string).

Arguments community_view : clear implicits.

Definition community_map_view {C} (pages : option (list string)) (addresses : list (address C))
  : community_view C :=
  let text := pdf_text pages in
  if String.eqb text EmptyString then NoMapSection
  else
    match communities text with
    | [] => NoCommunitiesInfo
    | cs =>
        let left := map (fun c => (c, postcode_of (seat c))) cs in
        let right := drop_duplicates_first [] (map address_key addresses) in
        CommunityMap (dropna_latlon (merge_postcodes left right)) (hover_cols community_columns)
    end.

(** ** Lemmas *)

Lemma d4_digits p :
  in_re d4 p -> String.length p = 4 /\ Forall (fun c => is_digit c = true) (String.list_ascii_of_string p).
Proof. intros Hp%in_re_rep_inv%rep_word_exact. exact Hp. Qed.

(** The four digits of an [L-dddd]. *)
Lemma lpost_digits t :
  in_re lpost t -> exists p, extract digits4_re t = Some p /\ String.length p = 4 /\
    Forall (fun c => is_digit c = true) (String.list_ascii_of_string p).
Proof.
  intros (w1 & w2 & -> & _ & (w3 & w4 & -> & _ & Hw4)%in_re_seq_inv)%in_re_seq_inv.
  destruct (extract_some digits4_re (String.append w1 (String.append w3 w4))
    (String.append w1 w3) w4 EmptyString) as (p & Hp & Hg); [done| |by constructor|].
  - by rewrite append_nil_r, append_assoc.
  - exists p. split; [done|]. apply d4_digits. cbn in Hg. by destruct Hg as [[_ ?]|[]].
Qed.

(** A seat the pattern accepts has a postcode of four digits. *)
Lemma seat_postcode t :
  in_re seat_re t -> exists p, postcode_of t = Some p /\ String.length p = 4 /\
    Forall (fun c => is_digit c = true) (String.list_ascii_of_string p).
Proof.
  intros (a & t' & -> & _ & (l & b & -> & Hl & _)%in_re_seq_inv)%in_re_seq_inv.
  destruct (extract_some postcode_re (String.append a (String.append l b)) a l b)
    as (t1 & Ht1 & Hg); [done|done|by constructor|].
  unfold postcode_of. rewrite Ht1. cbn [mbind option_bind]. apply lpost_digits.
  cbn in Hg. by destruct Hg as [[_ ?]|[[]|[[]|[]]]].
Qed.

(** Group 2 of the pattern is the seat. *)
Lemma community_group2 t : group_word community_pattern 2 t -> in_re seat_re t.
Proof. cbn. intuition congruence. Qed.

(** ** Properties *)

(** C17. Every community the pattern finds in the text has a postcode: the
    seat it captures always holds an [L-] followed by four digits, so the two
    extractions of lines 311-312 give four digits and never [NaN]; a
    community is dropped from the map only when no address carries its
    postcode or the address has no coordinates. *)
Theorem community_postcode text c :
  c ∈ communities text ->
  exists p, postcode_of (seat c) = Some p /\ String.length p = 4 /\
    Forall (fun ch => is_digit ch = true) (String.list_ascii_of_string p).
Proof.
  unfold communities. intros (item & -> & Hin)%list_elem_of_fmap.
  apply re_findall_elem in Hin as (caps & m & -> & _ & Hg & Hmand).
  destruct (Hmand 2 eq_refl) as [t Ht]. cbn. rewrite Ht. cbn [default].
  by apply seat_postcode, community_group2, Hg.
Qed.

Lemma community_postcode_witness :
  Community "CEL Soleil rue X" "L-1234 Luxembourg " "01/02/2023" ∈
    communities "CEL Soleil rue X L-1234 Luxembourg 01/02/2023" /\
  exists p, postcode_of "L-1234 Luxembourg " = Some p /\ String.length p = 4 /\
    Forall (fun ch => is_digit ch = true) (String.list_ascii_of_string p).
Proof.
  assert (H : Community "CEL Soleil rue X" "L-1234 Luxembourg " "01/02/2023" ∈
    communities "CEL Soleil rue X L-1234 Luxembourg 01/02/2023")
    by (vm_compute; left).
  split; [exact H|]. exact (community_postcode _ _ H).
Defined.

(** The name group is greedy and its class holds letters, digits and
    spaces: a street written with those only is read into the name, the
    seat starting at [L-] (the witness above). The page title is read as
    the name of the first community, and a row with a second date lends the
    year of that date as the name of the next one. *)
Example communities_shifted_names :
  map community_name (communities (String.append "Liste des communautes"
    (String (Ascii.ascii_of_nat 10)
      (String.append "CEL Soleil asbl 1, rue X L-1234 Luxembourg 01/02/2023 15/03/2023"
        (String (Ascii.ascii_of_nat 10) "CEL Vent asbl 2 rue Y L-5678 Esch 10/10/2023 11/11/2023")))))
  = ["Liste des communautes"; "2023"].
Proof. vm_compute. reflexivity. Qed.

(** The extra hover columns of lines 324-326 are never among the columns. *)
Example hover_cols_fixed : hover_cols community_columns = map latin1 ["Postcode"; "Date"; "Siège social"].
Proof. reflexivity. Qed.
