(* ===== verification/DummyApp.v ===== *)
(** * DummyApp: the placeholder dashboard of [src/old/app.py]

    [get_dummy_production_data] (lines 7-18) builds 24 hourly rows ending at
    [datetime.now()]: the times [now - i hours] for [i] in [range(24)],
    reversed, and for each source a value [base + i * slope] indexed by the
    row. The page then melts the table into (time, source, value) rows
    (line 28) for a stacked area chart (lines 36-45, not modelled).

    Times are seconds; the values are kept in tenths of MW, in which every
    base and slope of the source is an integer, so the arithmetic is exact. *)

From stdpp Require Import strings.
From S2P Require Import Prelude.

(** Lines 12-16: each source with its base and its slope, in tenths of MW. *)
Definition dummy_sources : list (string * Z * Z) :=
  [("Solar", 100, 5); ("Wind", 200, 3); ("Hydro", 150, 2); ("Biomass", 50, 1);
   ("Fossil", 300, -4)].

(** Line 9: [[now - timedelta(hours=i) for i in range(24)][::-1]]. *)
Definition dummy_times (now : Z) : list Z :=
  rev (map (fun i => now - Z.of_nat i * 3600) (seq 0 24)).

(** Lines 12-16: row [j] holds [base + j * slope] for each source. *)
Definition dummy_values : list (list Z) :=
  map (fun j => map (fun src => src.1.2 + Z.of_nat j * src.2) dummy_sources) (seq 0 24).

(** Lines 7-18: the rows (time, values in the order of the sources). *)
Definition get_dummy_production_data (now : Z) : list (Z * list Z) :=
  zip (dummy_times now) dummy_values.

(** Line 28: [data.melt(id_vars='Time', var_name='Source',
    value_name='Production (MW)')]: the column of each source in turn. *)
Definition melt (cols : list string) (rows : list (Z * list Z)) : list (Z * string * Z) :=
  concat (imap (fun c name => omap (fun row => (fun v => (row.1, name, v)) <$> row.2 !! c) rows) cols).

Definition melted_data (now : Z) : list (Z * string * Z) :=
  melt (map (fun src => src.1.1) dummy_sources) (get_dummy_production_data now).

(** ** Properties *)

Lemma hours_before_sorted now n :
  StronglySorted Z.lt (rev (map (fun i => now - Z.of_nat i * 3600) (seq 0 n))).
Proof.
  induction n as [|n IH]; [constructor|].
  rewrite seq_S, map_app, rev_app_distr. cbn [map rev app]. constructor; [exact IH|].
  apply Forall_forall. intros x Hx. apply list_elem_of_In, in_rev, in_map_iff in Hx as (i & <- & Hi).
  apply in_seq in Hi. lia.
Qed.

(** The times are hourly and increasing, ending at [now]. *)
Lemma dummy_times_increasing now :
  StronglySorted Z.lt (dummy_times now) /\ last (dummy_times now) = Some now.
Proof.
  split; [apply hours_before_sorted|]. unfold dummy_times. cbn. f_equal. lia.
Qed.

(** Every value is positive, so the stacked areas are well defined. *)
Lemma dummy_values_positive : Forall (Forall (fun v => 0 < v)) dummy_values.
Proof. vm_compute. repeat constructor. Qed.

(** The melted table has one row per (source, time), the sources in turn. *)
Lemma melted_data_shape now :
  length (melted_data now) = 120%nat /\
  map (fun r => r.1.2) (melted_data now) =
  concat (map (fun src => replicate 24 src.1.1) dummy_sources).
Proof. split; reflexivity. Qed.
